(** * ds_toolkit.common.files: a model of the filesystem helpers

    The module [ds_toolkit/common/files.py] is a thin layer over the
    operating system: every function is a few calls into [os], [os.path],
    [shutil] and [open].  The development has these layers:

    - [Path]: the string functions of [posixpath] the module calls
      ([join], [split], [basename], [dirname]);
    - [FS]: a POSIX directory tree of regular files and directories (no
      symbolic links, one device, no permissions) and the resolution of
      path strings in it;
    - [codec], [Codec]: text as code points, the encodings [open] is
      given, newline translation and [str.replace];
    - [OS]: the calls the module reaches ([os.listdir], [os.walk],
      [os.mknod], [os.remove], [os.rename], [os.mkdir], [os.makedirs],
      [os.rmdir], [open], [shutil.move], [shutil.rmtree]) in a
      state-and-exception monad over the tree;
    - [Files]: the functions of [files.py], one definition each.

    [current_directory] reads the file name of its caller from the
    stack of the interpreter; here that name is its argument.  The
    working directory of the process is the root of the tree, so
    relative and absolute paths resolve from the same place.  A path
    string that ends in a separator is resolved with its empty last
    component like any other; for a target of that form that is no
    directory, Linux gives [open] and [os.rename] an errno of their
    own, which the model does not follow. *)

From Stdlib Require Import List String Ascii Bool Arith ZArith Lia.
From Stdlib.Strings Require Import Byte.
Import ListNotations.
Local Open Scope string_scope.
Local Open Scope list_scope.


(** ** Exceptions and results *)

(** The exceptions the module and the calls below it raise.  Python maps
    the errno of a failed system call to a subclass of [OSError];
    [FileExistsError] carries its message, because both the module's own
    guard and the kernel ([EEXIST]) raise that class. *)
Inductive exn : Type :=
| FileExistsError (msg : string)
| FileNotFoundError
| NotADirectoryError
| IsADirectoryError
| OSError (msg : string)
| ShutilError (msg : string)
| UnicodeEncodeError
| UnicodeDecodeError
| ImportError (msg : string)
| MagicException (msg : string)
| KeyboardInterrupt.

(** [except Exception] catches every class but those deriving from
    [BaseException] alone. *)
Definition is_Exception (e : exn) : bool :=
  match e with
  | KeyboardInterrupt => false
  | _ => true
  end.

(** What the specification calls AlreadyExistsError is the class
    [FileExistsError], whoever raised it. *)
Definition is_already_exists (e : exn) : bool :=
  match e with
  | FileExistsError _ => true
  | _ => false
  end.

Inductive result (A : Type) : Type :=
| Ok (a : A)
| Raise (e : exn).
Arguments Ok {A} a.
Arguments Raise {A} e.

Definition raises {A} (r : result A) : bool :=
  match r with
  | Ok _ => false
  | Raise _ => true
  end.

(** ** Path strings: [posixpath] *)

Module Path.

Definition sep : ascii := "/"%char.

Definition is_sep (c : ascii) : bool := Ascii.eqb c sep.

Fixpoint has_sep (s : string) : bool :=
  match s with
  | EmptyString => false
  | String c s' => is_sep c || has_sep s'
  end.

Fixpoint all_sep (s : string) : bool :=
  match s with
  | EmptyString => true
  | String c s' => is_sep c && all_sep s'
  end.

Definition startswith_sep (s : string) : bool :=
  match s with
  | String c _ => is_sep c
  | EmptyString => false
  end.

Fixpoint endswith_sep (s : string) : bool :=
  match s with
  | EmptyString => false
  | String c EmptyString => is_sep c
  | String _ s' => endswith_sep s'
  end.

(** [s.rstrip('/')] *)
Fixpoint rstrip_sep (s : string) : string :=
  match s with
  | EmptyString => EmptyString
  | String c s' =>
      match rstrip_sep s' with
      | EmptyString => if is_sep c then EmptyString else String c EmptyString
      | r => String c r
      end
  end.

(** [p[:i]] and [p[i:]] for [i = p.rfind('/') + 1]. *)
Fixpoint head_raw (s : string) : string :=
  match s with
  | EmptyString => EmptyString
  | String c s' => if has_sep s then String c (head_raw s') else EmptyString
  end.

Fixpoint tail_raw (s : string) : string :=
  match s with
  | EmptyString => EmptyString
  | String c s' => if has_sep s then tail_raw s' else s
  end.

(** [posixpath.join(a, b)] *)
Definition join (a b : string) : string :=
  if startswith_sep b then b
  else if (String.eqb a "" || endswith_sep a)%bool then a ++ b
  else a ++ String sep b.

(** [posixpath.split(p)] *)
Definition split (p : string) : string * string :=
  let head := head_raw p in
  let tail := tail_raw p in
  if (negb (String.eqb head "") && negb (all_sep head))%bool
  then (rstrip_sep head, tail)
  else (head, tail).

(** [posixpath.basename(p)] *)
Definition basename (p : string) : string := tail_raw p.

(** [p.split('/')]: the components between separators, empty ones
    included; never the empty list. *)
Fixpoint components (s : string) : list string :=
  match s with
  | EmptyString => [EmptyString]
  | String c s' =>
      if is_sep c then EmptyString :: components s'
      else match components s' with
           | [] => [String c EmptyString]
           | w :: ws => String c w :: ws
           end
  end.

(** A name a directory entry can carry: not empty, no separator, and
    neither of the two names every directory reserves. *)
Definition valid_name (s : string) : bool :=
  (negb (String.eqb s "") && negb (has_sep s)
   && negb (String.eqb s ".") && negb (String.eqb s ".."))%bool.

(** [posixpath.dirname(p)] *)
Definition dirname (p : string) : string :=
  let head := head_raw p in
  if (negb (String.eqb head "") && negb (all_sep head))%bool
  then rstrip_sep head
  else head.

End Path.

(** ** The directory tree *)

Module FS.

(** A regular file holds bytes; a directory holds named entries in the
    order the system reports them ([os.listdir], [os.walk]). *)
#[local] Unset Elimination Schemes.
Inductive node : Type :=
| File (data : list byte)
| Dir (entries : list (string * node)).
#[local] Set Elimination Schemes.

(** Induction over the tree with the hypothesis on every entry of a
    directory. *)
Section node_induction.
Variable P : node -> Prop.
Hypothesis P_File : forall d, P (File d).
Hypothesis P_Dir :
  forall es, Forall (fun e => P (snd e)) es -> P (Dir es).

Fixpoint node_ind (n : node) : P n :=
  match n with
  | File d => P_File d
  | Dir es =>
      P_Dir es
        ((fix all (l : list (string * node)) :
            Forall (fun e => P (snd e)) l :=
            match l with
            | [] => Forall_nil _
            | e :: l' => Forall_cons e (node_ind (snd e)) (all l')
            end) es)
  end.
End node_induction.

(** A resolved path: the entry names from the root down. *)
Definition path := list string.

Inductive errno : Type :=
| ENOENT | ENOTDIR | EISDIR | EEXIST | ENOTEMPTY | EINVAL.

Fixpoint assoc (k : string) (es : list (string * node)) : option node :=
  match es with
  | [] => None
  | (k', v) :: es' => if String.eqb k k' then Some v else assoc k es'
  end.

Fixpoint lookup (p : path) (n : node) : option node :=
  match p with
  | [] => Some n
  | c :: p' =>
      match n with
      | Dir es =>
          match assoc c es with
          | Some child => lookup p' child
          | None => None
          end
      | File _ => None
      end
  end.

Definition is_dir_node (o : option node) : bool :=
  match o with
  | Some (Dir _) => true
  | _ => false
  end.

Definition is_file_node (o : option node) : bool :=
  match o with
  | Some (File _) => true
  | _ => false
  end.

Fixpoint remove_entry (k : string) (es : list (string * node)) :
  list (string * node) :=
  match es with
  | [] => []
  | (k', v) :: es' =>
      if String.eqb k k' then remove_entry k es'
      else (k', v) :: remove_entry k es'
  end.

(** Replaces the entry named [k] where it stands, or appends it. *)
Fixpoint put_entry (k : string) (v : node) (es : list (string * node)) :
  list (string * node) :=
  match es with
  | [] => [(k, v)]
  | (k', v') :: es' =>
      if String.eqb k k' then (k, v) :: es'
      else (k', v') :: put_entry k v es'
  end.

Definition set_entry (k : string) (v : option node)
  (es : list (string * node)) : list (string * node) :=
  match v with
  | Some n => put_entry k n es
  | None => remove_entry k es
  end.

(** [set_at p v fs] binds the last name of [p] to [v] in its parent
    directory ([None] unlinks it).  The parent has to be a directory of
    [fs]; the root itself cannot be rebound. *)
Fixpoint set_at (p : path) (v : option node) (n : node) : option node :=
  match p with
  | [] => None
  | c :: p' =>
      match n with
      | File _ => None
      | Dir es =>
          match p' with
          | [] => Some (Dir (set_entry c v es))
          | _ :: _ =>
              match assoc c es with
              | Some child =>
                  match set_at p' v child with
                  | Some child' => Some (Dir (put_entry c child' es))
                  | None => None
                  end
              | None => None
              end
          end
      end
  end.

(** The directories [os.makedirs] creates on the way down to a new
    entry. *)
Fixpoint chain (p : path) (v : node) : node :=
  match p with
  | [] => v
  | c :: p' => Dir [(c, chain p' v)]
  end.

(** [put_mk p v fs] creates [p] as [v] together with the directories
    missing above it; [p] itself must not exist. *)
Fixpoint put_mk (p : path) (v : node) (n : node) : errno + node :=
  match p with
  | [] => inl EEXIST
  | c :: p' =>
      match n with
      | File _ => inl ENOTDIR
      | Dir es =>
          match assoc c es with
          | Some child =>
              match put_mk p' v child with
              | inr child' => inr (Dir (put_entry c child' es))
              | inl e => inl e
              end
          | None => inr (Dir (put_entry c (chain p' v) es))
          end
      end
  end.

Fixpoint is_prefix (p q : path) : bool :=
  match p, q with
  | [], _ => true
  | a :: p', b :: q' => String.eqb a b && is_prefix p' q'
  | _ :: _, [] => false
  end.

Definition path_eqb (p q : path) : bool :=
  is_prefix p q && is_prefix q p.

(** One component of a path string, lexically: empty components and
    [.] stay, [..] goes up (and stays at the root). *)
Definition step (cur : path) (c : string) : path :=
  if (String.eqb c "" || String.eqb c ".")%bool then cur
  else if String.eqb c ".." then removelast cur
  else cur ++ [c].

(** [os.path.normpath] followed from the root: no look at the tree. *)
Definition norm (p : string) : path :=
  fold_left step (Path.components p) [].

(** Path resolution as the kernel does it: before a component is
    taken, the place reached so far has to be a directory.  The last
    name itself need not exist. *)
Fixpoint namei_from (fs : node) (cur : path) (cs : list string) :
  errno + path :=
  match cs with
  | [] => inr cur
  | c :: cs' =>
      match lookup cur fs with
      | Some (Dir _) => namei_from fs (step cur c) cs'
      | Some (File _) => inl ENOTDIR
      | None => inl ENOENT
      end
  end.

Definition namei (p : string) (fs : node) : errno + path :=
  if String.eqb p "" then inl ENOENT
  else namei_from fs [] (Path.components p).

Definition stat (p : string) (fs : node) : errno + node :=
  match namei p fs with
  | inr cp =>
      match lookup cp fs with
      | Some n => inr n
      | None => inl ENOENT
      end
  | inl e => inl e
  end.

Definition names (es : list (string * node)) : list string := map fst es.

Fixpoint nodupb (l : list string) : bool :=
  match l with
  | [] => true
  | x :: l' => negb (existsb (String.eqb x) l') && nodupb l'
  end.

(** Entry names are valid and distinct in every directory. *)
Fixpoint wf (n : node) : bool :=
  match n with
  | File _ => true
  | Dir es =>
      forallb Path.valid_name (names es) && nodupb (names es)
      && (fix all (l : list (string * node)) : bool :=
            match l with
            | [] => true
            | (_, child) :: l' => wf child && all l'
            end) es
  end.

(** A filesystem is a well-formed tree whose root is a directory. *)
Definition wf_fs (fs : node) : bool :=
  match fs with
  | Dir _ => wf fs
  | File _ => false
  end.

Definition dirnames (es : list (string * node)) : list string :=
  flat_map (fun e => match snd e with Dir _ => [fst e] | File _ => [] end) es.

Definition filenames (es : list (string * node)) : list string :=
  flat_map (fun e => match snd e with File _ => [fst e] | Dir _ => [] end) es.

(** The number of regular files in a tree, at every depth. *)
Fixpoint count_files (n : node) : nat :=
  match n with
  | File _ => 1
  | Dir es =>
      (fix sum (l : list (string * node)) : nat :=
         match l with
         | [] => 0
         | (_, child) :: l' => count_files child + sum l'
         end) es
  end.

(** The regular files below a directory, as paths relative to it with
    their contents, in the order [os.walk] meets them: the files of a
    directory first, then its subdirectories one after the other. *)
Fixpoint files_below (n : node) : list (path * list byte) :=
  match n with
  | File _ => []
  | Dir es =>
      flat_map (fun e => match snd e with
                         | File d => [([fst e], d)]
                         | Dir _ => []
                         end) es
      ++ (fix sub (l : list (string * node)) : list (path * list byte) :=
            match l with
            | [] => []
            | (name, child) :: l' =>
                map (fun f => (name :: fst f, snd f)) (files_below child)
                ++ sub l'
            end) es
  end.

End FS.

(** ** Text and encodings *)

Local Open Scope Z_scope.

(** A Python [str]: a sequence of code points. *)
Definition text := list Z.

(** A text encoding as [open] uses it: strict encoding and decoding,
    which fail on what the encoding cannot express, and decoding with
    [errors='ignore'], which drops what it cannot decode. *)
Record codec : Type := {
  encode : text -> option (list byte);
  decode : list byte -> option text;
  decode_ignore : list byte -> text
}.

Module Codec.

Definition val (b : byte) : Z := Z.of_N (Byte.to_N b).

Definition byte_of (z : Z) : byte :=
  match Byte.of_N (Z.to_N z) with
  | Some b => b
  | None => x00
  end.

Fixpoint encode_all (f : Z -> option (list byte)) (t : text) :
  option (list byte) :=
  match t with
  | [] => Some []
  | c :: t' =>
      match f c, encode_all f t' with
      | Some bs, Some bs' => Some (bs ++ bs')
      | _, _ => None
      end
  end.

(** A decoder scans the bytes once; it yields the code points it could
    decode and whether every byte was decodable. *)
Definition strict (scan : list byte -> text * bool) (bs : list byte) :
  option text :=
  let (t, clean) := scan bs in if clean then Some t else None.

Definition lenient (scan : list byte -> text * bool) (bs : list byte) :
  text := fst (scan bs).

Definition keep (c : Z) (r : text * bool) : text * bool :=
  (c :: fst r, snd r).

Definition drop (r : text * bool) : text * bool := (fst r, false).

(** *** UTF-8 *)

Definition utf8_encode_cp (c : Z) : option (list byte) :=
  if c <? 0 then None
  else if c <? 0x80 then Some [byte_of c]
  else if c <? 0x800 then
    Some [byte_of (Z.lor 0xC0 (Z.shiftr c 6));
          byte_of (Z.lor 0x80 (Z.land c 0x3F))]
  else if c <? 0x10000 then
    if (0xD800 <=? c) && (c <=? 0xDFFF) then None
    else
      Some [byte_of (Z.lor 0xE0 (Z.shiftr c 12));
            byte_of (Z.lor 0x80 (Z.land (Z.shiftr c 6) 0x3F));
            byte_of (Z.lor 0x80 (Z.land c 0x3F))]
  else if c <? 0x110000 then
    Some [byte_of (Z.lor 0xF0 (Z.shiftr c 18));
          byte_of (Z.lor 0x80 (Z.land (Z.shiftr c 12) 0x3F));
          byte_of (Z.lor 0x80 (Z.land (Z.shiftr c 6) 0x3F));
          byte_of (Z.lor 0x80 (Z.land c 0x3F))]
  else None.

Definition is_cont (b : byte) : bool :=
  (0x80 <=? val b) && (val b <? 0xC0).

Definition low6 (b : byte) : Z := Z.land (val b) 0x3F.

(** The UTF-8 decoder of CPython: an invalid start byte is one
    undecodable byte; a start byte whose first, second or third
    continuation is wrong makes the one, two or three bytes before the
    wrong one undecodable; a sequence cut short by the end of the data
    makes all that is left undecodable. *)
Fixpoint utf8_scan (bs : list byte) : text * bool :=
  match bs with
  | [] => ([], true)
  | b1 :: r1 =>
      let ch := val b1 in
      if ch <? 0x80 then keep ch (utf8_scan r1)
      else if ch <? 0xC2 then drop (utf8_scan r1)
      else if ch <? 0xE0 then
        match r1 with
        | [] => ([], false)
        | b2 :: r2 =>
            if is_cont b2
            then keep (Z.lor (Z.shiftl (Z.land ch 0x1F) 6) (low6 b2))
                      (utf8_scan r2)
            else drop (utf8_scan r1)
        end
      else if ch <? 0xF0 then
        match r1 with
        | [] => ([], false)
        | b2 :: r2 =>
            if negb (is_cont b2)
               || (if val b2 <? 0xA0 then ch =? 0xE0 else ch =? 0xED)
            then drop (utf8_scan r1)
            else
              match r2 with
              | [] => ([], false)
              | b3 :: r3 =>
                  if is_cont b3
                  then keep (Z.lor (Z.shiftl (Z.land ch 0x0F) 12)
                               (Z.lor (Z.shiftl (low6 b2) 6) (low6 b3)))
                            (utf8_scan r3)
                  else drop (utf8_scan r2)
              end
        end
      else if ch <? 0xF5 then
        match r1 with
        | [] => ([], false)
        | b2 :: r2 =>
            if negb (is_cont b2)
               || (if val b2 <? 0x90 then ch =? 0xF0 else ch =? 0xF4)
            then drop (utf8_scan r1)
            else
              match r2 with
              | [] => ([], false)
              | b3 :: r3 =>
                  if is_cont b3
                  then
                    match r3 with
                    | [] => ([], false)
                    | b4 :: r4 =>
                        if is_cont b4
                        then keep (Z.lor (Z.shiftl (Z.land ch 0x07) 18)
                                     (Z.lor (Z.shiftl (low6 b2) 12)
                                        (Z.lor (Z.shiftl (low6 b3) 6)
                                           (low6 b4))))
                                  (utf8_scan r4)
                        else drop (utf8_scan r3)
                    end
                  else drop (utf8_scan r2)
              end
        end
      else drop (utf8_scan r1)
  end.

Definition utf8 : codec := {|
  encode := encode_all utf8_encode_cp;
  decode := strict utf8_scan;
  decode_ignore := lenient utf8_scan
|}.

(** *** Single-byte encodings: code points below [limit] are their own
    byte. *)

Definition byte_encode_cp (limit c : Z) : option (list byte) :=
  if (0 <=? c) && (c <? limit) then Some [byte_of c] else None.

Fixpoint byte_scan (limit : Z) (bs : list byte) : text * bool :=
  match bs with
  | [] => ([], true)
  | b :: r =>
      if val b <? limit then keep (val b) (byte_scan limit r)
      else drop (byte_scan limit r)
  end.

Definition single_byte (limit : Z) : codec := {|
  encode := encode_all (byte_encode_cp limit);
  decode := strict (byte_scan limit);
  decode_ignore := lenient (byte_scan limit)
|}.

Definition ascii : codec := single_byte 0x80.
Definition latin_1 : codec := single_byte 0x100.

(** The code points of a string literal whose characters are ASCII. *)
Fixpoint text_of_string (s : string) : text :=
  match s with
  | EmptyString => []
  | String c s' => Z.of_N (N_of_ascii c) :: text_of_string s'
  end.

End Codec.

(** Reading in text mode with the default [newline=None]: a carriage
    return, with the line feed after it when there is one, comes out as
    one line feed. *)
Fixpoint universal_newlines (t : text) : text :=
  match t with
  | [] => []
  | c :: t' =>
      if c =? 13 then
        10 :: match t' with
              | [] => []
              | c' :: t'' =>
                  if c' =? 10 then universal_newlines t''
                  else universal_newlines t'
              end
      else c :: universal_newlines t'
  end%Z.

(** [str.replace(old, new)]: left to right, each occurrence of [old]
    that does not overlap one already replaced; an empty [old] matches
    before every character and at the end. *)
Fixpoint has_prefix (old t : text) : bool :=
  match old with
  | [] => true
  | c :: old' =>
      match t with
      | [] => false
      | d :: t' => (c =? d) && has_prefix old' t'
      end
  end.

(** [skip] counts the characters of an occurrence still to pass. *)
Fixpoint replace_scan (old new : text) (skip : nat) (t : text) : text :=
  match t with
  | [] => []
  | c :: t' =>
      match skip with
      | S k => replace_scan old new k t'
      | O =>
          if has_prefix old t
          then new ++ replace_scan old new (List.length old - 1)%nat t'
          else c :: replace_scan old new O t'
      end
  end.

Definition str_replace (t old new : text) : text :=
  match old with
  | [] => new ++ flat_map (fun c => c :: new) t
  | _ :: _ => replace_scan old new O t
  end.

Local Close Scope Z_scope.

(** ** The system calls *)

Module OS.
Import FS.

(** A computation reads and changes the tree and returns or raises;
    what it changed before it raised stays changed. *)
Definition M (A : Type) : Type := node -> result A * node.

Definition ret {A} (a : A) : M A := fun fs => (Ok a, fs).

Definition raise {A} (e : exn) : M A := fun fs => (Raise e, fs).

Definition bind {A B} (m : M A) (k : A -> M B) : M B :=
  fun fs =>
    match m fs with
    | (Ok a, fs') => k a fs'
    | (Raise e, fs') => (Raise e, fs')
    end.

Definition query {A} (f : node -> A) : M A := fun fs => (Ok (f fs), fs).

(** [try: m except OSError: handler]; every exception a system call
    raises here is an [OSError]. *)
Definition is_OSError (e : exn) : bool :=
  match e with
  | FileExistsError _ | FileNotFoundError | NotADirectoryError
  | IsADirectoryError | OSError _ | ShutilError _ => true
  | _ => false
  end.

Definition try_except_OSError {A} (m handler : M A) : M A :=
  fun fs =>
    match m fs with
    | (Ok a, fs') => (Ok a, fs')
    | (Raise e, fs') => if is_OSError e then handler fs' else (Raise e, fs')
    end.

Declare Scope os_scope.
Delimit Scope os_scope with os.
Notation "x <- m ;; k" := (bind m (fun x => k))
  (at level 61, m at next level, right associativity) : os_scope.
Notation "m ;;; k" := (bind m (fun _ => k))
  (at level 61, right associativity) : os_scope.
Local Open Scope os_scope.

(** [for x in l: body x] *)
Fixpoint for_each {A} (l : list A) (body : A -> M unit) : M unit :=
  match l with
  | [] => ret tt
  | x :: l' => body x ;;; for_each l' body
  end.

Definition exn_of_errno (e : errno) : exn :=
  match e with
  | ENOENT => FileNotFoundError
  | ENOTDIR => NotADirectoryError
  | EISDIR => IsADirectoryError
  | EEXIST => FileExistsError "[Errno 17] File exists"
  | ENOTEMPTY => OSError "[Errno 39] Directory not empty"
  | EINVAL => OSError "[Errno 22] Invalid argument"
  end.

Definition fail {A} (e : errno) : M A := raise (exn_of_errno e).

(** [os.path.isfile], [os.path.isdir], [os.path.exists]: a failed
    [stat] is a plain no. *)
Definition isfile (p : string) (fs : node) : bool :=
  match stat p fs with
  | inr (File _) => true
  | _ => false
  end.

Definition isdir (p : string) (fs : node) : bool :=
  match stat p fs with
  | inr (Dir _) => true
  | _ => false
  end.

Definition exists_ (p : string) (fs : node) : bool :=
  match stat p fs with
  | inr _ => true
  | inl _ => false
  end.

(** [os.path.samefile] under [shutil._samefile]: without hard links two
    paths are the same file when both exist and resolve alike. *)
Definition samefile (p q : string) (fs : node) : bool :=
  match namei p fs, namei q fs with
  | inr cp, inr cq =>
      path_eqb cp cq && exists_ p fs && exists_ q fs
  | _, _ => false
  end.

(** [os.listdir] *)
Definition listdir (p : string) : M (list string) :=
  fun fs =>
    match stat p fs with
    | inr (Dir es) => (Ok (names es), fs)
    | inr (File _) => (Raise NotADirectoryError, fs)
    | inl e => (Raise (exn_of_errno e), fs)
    end.

(** [os.walk(top)], top down, errors of [scandir] ignored: one triple
    per directory, a directory before the directories below it. *)
Fixpoint walk_node (top : string) (n : node) :
  list (string * list string * list string) :=
  match n with
  | File _ => []
  | Dir es =>
      (top, dirnames es, filenames es)
      :: (fix sub (l : list (string * node)) :
            list (string * list string * list string) :=
            match l with
            | [] => []
            | (name, child) :: l' =>
                match child with
                | Dir _ => walk_node (Path.join top name) child
                | File _ => []
                end ++ sub l'
            end) es
  end.

Definition walk (top : string) (fs : node) :
  list (string * list string * list string) :=
  match stat top fs with
  | inr n => walk_node top n
  | inl _ => []
  end.

(** Writing a resolved path whose parent exists cannot fail; the last
    branch is there for totality. *)
Definition store (cp : path) (v : option node) : M unit :=
  fun fs =>
    match set_at cp v fs with
    | Some fs' => (Ok tt, fs')
    | None => (Raise (exn_of_errno EINVAL), fs)
    end.

(** [os.remove], [os.unlink] *)
Definition remove (p : string) : M unit :=
  fun fs =>
    match namei p fs with
    | inl e => fail e fs
    | inr cp =>
        match lookup cp fs with
        | None => fail ENOENT fs
        | Some (Dir _) => fail EISDIR fs
        | Some (File _) => store cp None fs
        end
    end.

(** [os.mknod(p)]: a new empty regular file; any existing entry is in
    the way. *)
Definition mknod (p : string) : M unit :=
  fun fs =>
    match namei p fs with
    | inl e => fail e fs
    | inr cp =>
        match lookup cp fs with
        | Some _ => fail EEXIST fs
        | None => store cp (Some (File [])) fs
        end
    end.

(** The entry at [s] becomes the entry at [d], in one step. *)
Definition relink (s d : path) (n : node) (fs : node) : option node :=
  match set_at s None fs with
  | Some fs1 => set_at d (Some n) fs1
  | None => None
  end.

(** [os.rename(src, dst)] on Linux. *)
Definition rename (src dst : string) : M unit :=
  fun fs =>
    match namei src fs, namei dst fs with
    | inl e, _ => fail e fs
    | inr _, inl e => fail e fs
    | inr s, inr d =>
        match lookup s fs with
        | None => fail ENOENT fs
        | Some n =>
            if path_eqb s d then (Ok tt, fs)
            else
              match n, lookup d fs with
              | File _, Some (Dir _) => fail EISDIR fs
              | Dir _, Some (File _) => fail ENOTDIR fs
              | _, _ =>
                  if is_dir_node (Some n) && is_prefix s d
                  then fail EINVAL fs
                  else
                    match n, lookup d fs with
                    | Dir _, Some (Dir (_ :: _)) => fail ENOTEMPTY fs
                    | _, _ =>
                        match relink s d n fs with
                        | Some fs' => (Ok tt, fs')
                        | None => fail EINVAL fs
                        end
                    end
              end
        end
    end.

(** A file object is the resolved path it was opened at. *)
Definition handle := path.

(** [open(p, 'w+')] and [open(p, 'wb')]: create or truncate. *)
Definition open_w (p : string) : M handle :=
  fun fs =>
    match namei p fs with
    | inl e => fail e fs
    | inr cp =>
        match lookup cp fs with
        | Some (Dir _) => fail EISDIR fs
        | _ => (store cp (Some (File [])) ;;; ret cp) fs
        end
    end.

(** [open(p)], [open(p, 'r')], [open(p, 'rb')] *)
Definition open_r (p : string) : M handle :=
  fun fs =>
    match namei p fs with
    | inl e => fail e fs
    | inr cp =>
        match lookup cp fs with
        | Some (File _) => (Ok cp, fs)
        | Some (Dir _) => fail EISDIR fs
        | None => fail ENOENT fs
        end
    end.

Definition read_bytes (h : handle) : M (list byte) :=
  fun fs =>
    match lookup h fs with
    | Some (File d) => (Ok d, fs)
    | _ => fail EINVAL fs
    end.

Definition write_bytes (h : handle) (bs : list byte) : M unit :=
  fun fs =>
    match lookup h fs with
    | Some (File d) => store h (Some (File (d ++ bs))) fs
    | _ => fail EINVAL fs
    end.

(** [file.read()] of a text file: decode, then translate newlines. *)
Definition read_text (enc : codec) (ignore_errors : bool) (h : handle) :
  M text :=
  bs <- read_bytes h ;;
  if ignore_errors then ret (universal_newlines (decode_ignore enc bs))
  else match decode enc bs with
       | Some t => ret (universal_newlines t)
       | None => raise UnicodeDecodeError
       end.

(** [file.write(data)] of a text file; on POSIX a line feed is written
    as it is.  A text the encoding cannot express is refused whole. *)
Definition write_text (enc : codec) (h : handle) (data : text) : M unit :=
  match encode enc data with
  | Some bs => write_bytes h bs
  | None => raise UnicodeEncodeError
  end.

(** [shutil.copy2(src, dst)] of a regular file. *)
Definition copy2 (src dst : string) : M unit :=
  into <- query (isdir dst) ;;
  let dst' := if into : bool then Path.join dst (Path.basename src) else dst in
  same <- query (samefile src dst') ;;
  if same : bool then raise (ShutilError "SameFileError")
  else
    hin <- open_r src ;;
    bs <- read_bytes hin ;;
    hout <- open_w dst' ;;
    write_bytes hout bs.

(** [shutil.copytree(src, dst)] followed by [shutil.rmtree(src)]:
    [os.makedirs(dst)] first, so [dst] must not exist and the
    directories missing above it are made.  The destination is taken
    lexically. *)
Definition copytree_rmtree (src dst : string) : M unit :=
  fun fs =>
    match namei src fs with
    | inl e => fail e fs
    | inr s =>
        match lookup s fs with
        | Some (Dir es) =>
            match put_mk (norm dst) (Dir es) fs with
            | inr fs' => store s None fs'
            | inl e => fail e fs
            end
        | Some (File _) => fail ENOTDIR fs
        | None => fail ENOENT fs
        end
    end.

(** [shutil._basename]: the base name once trailing separators are
    gone. *)
Definition shutil_basename (p : string) : string :=
  Path.basename (Path.rstrip_sep p).

(** [shutil._destinsrc]: a comparison of the two absolute path
    strings. *)
Definition destinsrc (src dst : string) : bool :=
  is_prefix (norm src) (norm dst).

(** [shutil.move(src, dst)].  The messages of [shutil.Error] are kept
    short: the source puts the paths into them. *)
Definition shutil_move (src dst : string) : M unit :=
  let move_to (real_dst : string) : M unit :=
    try_except_OSError (rename src real_dst)
      (src_is_dir <- query (isdir src) ;;
       if src_is_dir : bool then
         if destinsrc src dst
         then raise (ShutilError "Cannot move a directory into itself")
         else copytree_rmtree src real_dst
       else copy2 src real_dst ;;; remove src) in
  dst_is_dir <- query (isdir dst) ;;
  if dst_is_dir : bool then
    same <- query (samefile src dst) ;;
    if same : bool then rename src dst
    else
      let real_dst := Path.join dst (shutil_basename src) in
      there <- query (exists_ real_dst) ;;
      if there : bool
      then raise (ShutilError "Destination path already exists")
      else move_to real_dst
  else move_to dst.

(** The last component of a path as the kernel sees it: trailing
    separators do not count; the root has none. *)
Definition last_component (p : string) : string :=
  Path.tail_raw (Path.rstrip_sep p).

(** [os.rmdir(p)]: the directory has to be empty; [.] and [..] as the
    last component and the root are refused whatever they hold. *)
Definition rmdir (p : string) : M unit :=
  fun fs =>
    match namei p fs with
    | inl e => fail e fs
    | inr cp =>
        if String.eqb (last_component p) "." then fail EINVAL fs
        else if String.eqb (last_component p) ".." then fail ENOTEMPTY fs
        else
          match cp with
          | [] => raise (OSError "[Errno 16] Device or resource busy") fs
          | _ :: _ =>
              match lookup cp fs with
              | Some (Dir []) => store cp None fs
              | Some (Dir (_ :: _)) => fail ENOTEMPTY fs
              | Some (File _) => fail ENOTDIR fs
              | None => fail ENOENT fs
              end
          end
    end.

(** The tree once everything below the directory at [cp] is
    unlinked. *)
Definition emptied (cp : path) (fs : node) : node :=
  match cp with
  | [] => Dir []
  | _ :: _ =>
      match set_at cp (Some (Dir [])) fs with
      | Some fs' => fs'
      | None => fs
      end
  end.

(** [shutil.rmtree(p)] with its defaults: what [p] denotes is opened
    and scanned, every entry below it is unlinked, the files by
    [os.unlink] and the directories, emptied first, by [os.rmdir];
    then comes [os.rmdir(p)] on the path as it was given. *)
Definition rmtree (p : string) : M unit :=
  fun fs =>
    match namei p fs with
    | inl e => fail e fs
    | inr cp =>
        match lookup cp fs with
        | Some (Dir _) => rmdir p (emptied cp fs)
        | Some (File _) => fail ENOTDIR fs
        | None => fail ENOENT fs
        end
    end.

(** [os.mkdir(p)]: one new empty directory; separators after the last
    name are allowed, and any existing entry is in the way. *)
Definition mkdir (p : string) : M unit :=
  fun fs =>
    match namei (if Path.all_sep p then p else Path.rstrip_sep p) fs with
    | inl e => fail e fs
    | inr cp =>
        match lookup cp fs with
        | Some _ => fail EEXIST fs
        | None => store cp (Some (Dir [])) fs
        end
    end.

Definition try_except_FileExistsError {A} (m handler : M A) : M A :=
  fun fs =>
    match m fs with
    | (Ok a, fs') => (Ok a, fs')
    | (Raise e, fs') =>
        if is_already_exists e then handler fs' else (Raise e, fs')
    end.

(** [os.makedirs(name)] with [exist_ok=False].  The recursion is on
    the head of the name, which is shorter than the name whenever the
    tail is not empty; [fuel] bounds it by the length of the name and
    so never runs out. *)
Fixpoint makedirs_from (fuel : nat) (name : string) : M unit :=
  match fuel with
  | O => mkdir name
  | S fuel' =>
      let (head, tail) := Path.split name in
      let (head, tail) :=
        if String.eqb tail "" then Path.split head else (head, tail) in
      missing <- query (fun fs =>
                   negb (String.eqb head "") && negb (String.eqb tail "")
                   && negb (exists_ head fs)) ;;
      if missing : bool then
        try_except_FileExistsError (makedirs_from fuel' head) (ret tt) ;;;
        if String.eqb tail "." then ret tt else mkdir name
      else mkdir name
  end.

Definition makedirs (name : string) : M unit :=
  makedirs_from (String.length name) name.

End OS.

(** ** The functions of [files.py] *)

Module Files.
Import FS OS.
Local Open Scope os_scope.

(** A loop that appends to a result list: [body x] is what the
    iteration for [x] appends. *)
Fixpoint for_append {A B} (l : list A) (body : A -> M (list B)) :
  M (list B) :=
  match l with
  | [] => ret []
  | x :: l' =>
      ys <- body x ;;
      zs <- for_append l' body ;;
      ret (ys ++ zs)
  end.

(** The error of the module's own guard. *)
Definition already_exists : exn := FileExistsError "File path already exists".

Definition list_dir (folder_path : string) (full_path : bool) :
  M (list string) :=
  file_names <- listdir folder_path ;;
  if full_path
  then ret (map (fun file_name => Path.join folder_path file_name) file_names)
  else ret file_names.

Definition list_dir_files (folder_path : string) (full_path : bool) :
  M (list string) :=
  file_names <- listdir folder_path ;;
  for_append file_names (fun file_name =>
    let file_path := Path.join folder_path file_name in
    is_file <- query (isfile file_path) ;;
    if is_file : bool
    then ret [if full_path then file_path else file_name]
    else ret []).

Definition list_dir_folders (folder_path : string) (full_path : bool) :
  M (list string) :=
  file_names <- listdir folder_path ;;
  for_append file_names (fun file_name =>
    let file_path := Path.join folder_path file_name in
    is_dir <- query (isdir file_path) ;;
    if is_dir : bool
    then ret [if full_path then (file_path ++ "/")%string else file_name]
    else ret []).

Definition list_dir_tree (root_folder : string) : M (list string) :=
  triples <- query (walk root_folder) ;;
  for_append triples (fun '(root, directories, files) =>
    for_append files (fun file =>
      let fp := Path.join root file in
      is_dir <- query (isdir fp) ;;
      if negb is_dir then ret [fp] else ret [])).

(** The content-type inspector: the module [magic], when it can be
    imported.  [from_file path mime] reads the file and returns a
    description or, with [mime], a type label; it may raise. *)
Record magic_module : Type := {
  from_file : string -> bool -> node -> result string
}.

Record file_type : Type := {
  ft_file_path : string;
  ft_info : string;
  ft_type : string
}.

(** [str(e)] *)
Definition exn_str (e : exn) : string :=
  match e with
  | FileExistsError m | OSError m | ShutilError m | ImportError m
  | MagicException m => m
  | FileNotFoundError => "[Errno 2] No such file or directory"
  | NotADirectoryError => "[Errno 20] Not a directory"
  | IsADirectoryError => "[Errno 21] Is a directory"
  | UnicodeEncodeError => "codec can't encode characters"
  | UnicodeDecodeError => "codec can't decode bytes"
  | KeyboardInterrupt => ""
  end.

(** A line of the logging sink: level and message. *)
Definition log_line : Type := string * string.

(** A line break and the two tabs the source has before each line of
    its message. *)
Definition line_break : string :=
  String "010"%char (String "009"%char (String "009"%char EmptyString)).

(** The f-string of the source, line breaks and tabs included. *)
Definition import_error_message (e : exn) : string :=
  line_break ++ "Exception importing magic library."
  ++ line_break ++ "See how to set up for your OS here. https://pypi.org/project/python-magic/"
  ++ line_break ++ "Exception: " ++ exn_str e
  ++ line_break.

Section FileType.
(** What [import magic] does in this process. *)
Variable import_magic : result magic_module.

(** The function reads the tree and writes the log; [None] is
    Python's [None] of the bare [return]. *)
Definition get_file_type (file_path : string) (fs : node)
  (log : list log_line) : result (option file_type) * list log_line :=
  match import_magic with
  | Raise e =>
      if is_Exception e
      then (Ok None, log ++ [("ERROR", import_error_message e)])
      else (Raise e, log)
  | Ok magic =>
      match from_file magic file_path false fs with
      | Raise e => (Raise e, log)
      | Ok info =>
          match from_file magic file_path true fs with
          | Raise e => (Raise e, log)
          | Ok type =>
              (Ok (Some {| ft_file_path := file_path;
                           ft_info := info;
                           ft_type := type |}), log)
          end
      end
  end.
End FileType.

Definition create_file (file_path : string) : M unit :=
  is_file <- query (isfile file_path) ;;
  if is_file : bool then raise already_exists
  else mknod file_path.

Section Locale.
(** The encoding [open] takes from the locale when none is given. *)
Variable locale : codec.

Definition write_to_file (file_path : string) (data : text)
  (overwrite : bool) : M unit :=
  (if negb overwrite then
     is_file <- query (isfile file_path) ;;
     if is_file : bool then raise already_exists else ret tt
   else ret tt) ;;;
  file <- open_w file_path ;;
  write_text locale file data.

Definition read_file (file_path : string) : M text :=
  file <- open_r file_path ;;
  read_text locale false file.
End Locale.

Definition delete_file (file_path : string) : M unit :=
  is_file <- query (isfile file_path) ;;
  if is_file : bool then remove file_path else ret tt.

Definition move_file (from_file_path to_file_path : string) : M unit :=
  is_file <- query (isfile to_file_path) ;;
  if is_file : bool then raise already_exists
  else shutil_move from_file_path to_file_path.

Definition rename_file (file_path new_name : string) : M unit :=
  let (head, tail) := Path.split file_path in
  let to_file_path := Path.join head new_name in
  is_file <- query (isfile to_file_path) ;;
  if is_file : bool then raise already_exists
  else rename file_path to_file_path.

Definition make_folder (folder_path : string) : M unit :=
  is_dir <- query (isdir folder_path) ;;
  if is_dir : bool then ret tt else makedirs folder_path.

Definition delete_folder (folder_path : string) : M unit :=
  is_dir <- query (isdir folder_path) ;;
  if is_dir : bool then rmtree folder_path else ret tt.

(** [remove_chars] is [None] or a list of strings; an empty list is as
    good as [None]. *)
Definition fix_encoding (file_path : string) (read_as write_as : codec)
  (remove_chars : option (list text)) : M unit :=
  file <- open_r file_path ;;
  text <- read_text read_as true file ;;
  let text :=
    match remove_chars with
    | Some ((_ :: _) as chars) =>
        fold_left (fun text remove_char => str_replace text remove_char [])
          chars text
    | _ => text
    end in
  file <- open_w file_path ;;
  write_text write_as file text.

Definition move_all_files_from_root (root_folder to_folder : string) :
  M unit :=
  file_paths <- list_dir_tree root_folder ;;
  for_each file_paths (fun file_path =>
    is_file <- query (isfile file_path) ;;
    if is_file : bool then
      let (head, tail) := Path.split file_path in
      move_file file_path (Path.join to_folder tail)
    else ret tt).

(** [inspect.stack()[1][1]] is the file name of the calling frame:
    [caller_file] here. *)
Definition current_directory (caller_file : string) : string :=
  (Path.dirname caller_file ++ "/")%string.

End Files.

(** Whether a computation ended in the error the specification calls
    AlreadyExistsError. *)
Definition raises_already_exists {A} (r : result A * FS.node) : bool :=
  match fst r with
  | Raise e => is_already_exists e
  | Ok _ => false
  end.

(** ** What a path denotes *)

(** The observable state of a path: a regular file with its bytes, a
    directory, or nothing. *)
Inductive kind : Type :=
| KFile (data : list byte)
| KDir.

Definition kind_of (o : option FS.node) : option kind :=
  match o with
  | Some (FS.File d) => Some (KFile d)
  | Some (FS.Dir _) => Some KDir
  | None => None
  end.

Definition kind_at (q : FS.path) (fs : FS.node) : option kind :=
  kind_of (FS.lookup q fs).

(** A path string can be written to: it resolves, and not to a
    directory. *)
Definition writable (p : string) (fs : FS.node) : bool :=
  match FS.namei p fs with
  | inr cp => negb (FS.is_dir_node (FS.lookup cp fs))
  | inl _ => false
  end.

(** A resolved path is anchored in the tree: it is the root or has a
    directory for parent. *)
Definition anchored (fs : FS.node) (c : FS.path) : Prop :=
  c = [] \/
  exists d k, c = d ++ [k] /\ FS.is_dir_node (FS.lookup d fs) = true.

(** ** Example trees *)

(** [/root/a.txt], [/root/sub/b.txt] and an empty [/dest]. *)
Definition tree_two_levels : FS.node :=
  FS.Dir [("root", FS.Dir [("a.txt", FS.File [x61]);
                           ("sub", FS.Dir [("b.txt", FS.File [x62])])]);
          ("dest", FS.Dir [])].

(** Two files named [a.txt] at different depths. *)
Definition tree_same_basename : FS.node :=
  FS.Dir [("root", FS.Dir [("a.txt", FS.File [x61]);
                           ("sub", FS.Dir [("a.txt", FS.File [x62])])]);
          ("dest", FS.Dir [])].

(** ** Example collaborators *)

(** A process in which [magic] is not installed. *)
Definition magic_missing : result Files.magic_module :=
  Raise (ImportError "No module named 'magic'").

(** An inspector that cannot read the file it is given. *)
Definition magic_unreadable : Files.magic_module :=
  {| Files.from_file := fun _ _ _ => Raise FileNotFoundError |}.

(** A computation that did not end in that error. *)
Definition quiet {A} (r : result A * FS.node) : Prop :=
  raises_already_exists r = false.

(** The path string [os.walk] builds for a file: the names on the way
    down joined one by one to the path the walk started from. *)
Definition joined (top : string) (rel : FS.path) : string :=
  fold_left Path.join rel top.

(** The files below [n] as [list_dir_tree] names them when [n] is
    what [top] denotes. *)
Definition tree_paths (top : string) (n : FS.node) : list string :=
  map (fun f => joined top (fst f)) (FS.files_below n).

(** What one directory of the walk contributes to the result of
    [list_dir_tree]. *)
Definition listed (fs : FS.node) (t : string * list string * list string) :
  list string :=
  let '(root, _, files) := t in
  flat_map (fun file =>
              if negb (OS.isdir (Path.join root file) fs)
              then [Path.join root file] else []) files.

(** What [fix_encoding] does to the decoded text: one
    [text.replace(remove_char, '')] per entry, in the order of the
    list. *)
Definition strip (remove_chars : option (list text)) (t : text) : text :=
  match remove_chars with
  | Some chars => fold_left (fun t r => str_replace t r []) chars t
  | None => t
  end.

(** [old] occurs in [t]. *)
Definition occurs (old t : text) : Prop :=
  exists a b, t = a ++ old ++ b.

(** The file of the scenario: the bytes of [café\x00broken] in
    UTF-8. *)
Definition tree_cafe : FS.node :=
  FS.Dir [("notes.txt",
           FS.File [x63; x61; x66; xc3; xa9; x00;
                    x62; x72; x6f; x6b; x65; x6e])].

(** A file with a byte that is no UTF-8. *)
Definition tree_bad_byte : FS.node :=
  FS.Dir [("notes.txt", FS.File [x63; xff; x61])].

(** No occurrence of [old] starts inside [a] when [a] is followed by
    [rest]. *)
Definition starts_none (old a rest : text) : Prop :=
  forall a1 c a2,
    a = a1 ++ c :: a2 -> has_prefix old (c :: a2 ++ rest) = false.

(** ** Flattening a tree *)

(** A file below the root of the walk: its path relative to the root
    and its bytes. *)
Definition below : Type := FS.path * list byte.

(** The name a file keeps when it is moved: the last name of its
    path. *)
Definition basename_of (f : below) : string := last (fst f) "".

Section Flatten.
(** The walk starts at the directory [cp], named [root]; files go to
    the directory [ct]. *)
Variables (root : string) (cp ct : FS.path).

Definition source (f : below) : FS.path := cp ++ fst f.

Definition target (f : below) : FS.path := ct ++ [basename_of f].

Definition listed_path (f : below) : string := joined root (fst f).

(** One move, on what paths denote: the target is the file, the
    source is gone, nothing else changes. *)
Definition relocate (f : below) (k : FS.path -> option kind) :
  FS.path -> option kind :=
  fun q =>
    if FS.path_eqb (target f) q then Some (KFile (snd f))
    else if FS.path_eqb (source f) q then None
    else k q.

(** The moves of [done], one after the other, from the tree [fs]. *)
Definition flattened (fs : FS.node) (done : list below) :
  FS.path -> option kind :=
  fold_left (fun k f => relocate f k) done (fun q => kind_at q fs).
End Flatten.

(** The name of [f] is the name of no entry of the directory [et]. *)
Definition name_free (et : list (string * FS.node)) (f : below) : bool :=
  match FS.assoc (basename_of f) et with
  | None => true
  | Some _ => false
  end.

(** Where the loop stops, for a destination whose entries are [et]:
    the files of [pre] have names that differ and are free at the
    destination, and the first file of [rest], if there is one, has the
    name of one of them or of a regular file of the destination. *)
Definition stops_after (et : list (string * FS.node))
  (pre rest : list below) : bool :=
  FS.nodupb (map basename_of pre)
  && forallb (name_free et) pre
  && match rest with
     | [] => true
     | f :: _ =>
         existsb (String.eqb (basename_of f)) (map basename_of pre)
         || FS.is_file_node (FS.assoc (basename_of f) et)
     end.

(** The body of the loop of [move_all_files_from_root]. *)
Definition flatten_step (to_folder file_path : string) : OS.M unit :=
  OS.bind (OS.query (OS.isfile file_path)) (fun is_file : bool =>
    if is_file then
      let (head, tail) := Path.split file_path in
      Files.move_file file_path (Path.join to_folder tail)
    else OS.ret tt).

(** A tree in which the files of [pre] have been moved out of the
    tree [fs0]. *)
Definition moved (cp ct : FS.path) (fs0 : FS.node) (pre : list below)
  (fs1 : FS.node) : Prop :=
  forall q, kind_at q fs1 = flattened cp ct fs0 pre q.

(** ** Checking UTF-8 code point by code point *)

(** The scanner reads the encoding of [c] as [c] and nothing else. *)
Definition utf8_cp_ok (c : Z) : bool :=
  match Codec.utf8_encode_cp c with
  | None => true
  | Some bs =>
      match Codec.utf8_scan bs with
      | ([c'], true) => Z.eqb c' c
      | _ => false
      end
  end.

(** The same for the [fuel] code points from [c] on. *)
Fixpoint utf8_range_ok (fuel : nat) (c : Z) : bool :=
  match fuel with
  | O => true
  | S fuel' =>
      if utf8_cp_ok c then utf8_range_ok fuel' (Z.add c 1) else false
  end.

(** A file named [a.txt] is at the destination already. *)
Definition tree_name_taken : FS.node :=
  FS.Dir [("root", FS.Dir [("sub", FS.Dir [("b.txt", FS.File [x62])]);
                           ("a.txt", FS.File [x61])]);
          ("dest", FS.Dir [("a.txt", FS.File [x7a])])].

(** [k] separators in a row. *)
Fixpoint seps (k : nat) : string :=
  match k with
  | O => EmptyString
  | S k' => String Path.sep (seps k')
  end.

(** [q] is one of the places on the way from [cp], which is not
    counted, down to [cp ++ rel]. *)
Definition on_the_way (cp rel q : FS.path) : bool :=
  FS.is_prefix cp q && negb (FS.path_eqb cp q)
  && FS.is_prefix q (cp ++ rel).

(** No file of [files] has the name of a directory among the entries
    [et] of the destination. *)
Definition no_folder_named (et : list (string * FS.node))
  (files : list below) : bool :=
  forallb (fun f => negb (FS.is_dir_node (FS.assoc (basename_of f) et)))
    files.

(** The destination holds a directory named [a.txt]. *)
Definition tree_dir_clash : FS.node :=
  FS.Dir [("root", FS.Dir [("a.txt", FS.File [x61])]);
          ("dest", FS.Dir [("a.txt", FS.Dir [])])].

(** * Properties *)

(** ** Path strings *)

Example join_ex1 : Path.join "/root" "a.txt" = "/root/a.txt".
Proof. reflexivity. Qed.
Example join_ex2 : Path.join "/root/" "a.txt" = "/root/a.txt".
Proof. reflexivity. Qed.
Example join_ex3 : Path.join "/root" "/etc" = "/etc".
Proof. reflexivity. Qed.
Example split_ex1 : Path.split "/root/sub/b.txt" = ("/root/sub", "b.txt").
Proof. reflexivity. Qed.
Example split_ex2 : Path.split "/b.txt" = ("/", "b.txt").
Proof. reflexivity. Qed.
Example split_ex3 : Path.split "b.txt" = ("", "b.txt").
Proof. reflexivity. Qed.
Example split_ex4 : Path.split "a//" = ("a", "").
Proof. reflexivity. Qed.
Example components_ex : Path.components "/a//b/" = [""; "a"; ""; "b"; ""].
Proof. reflexivity. Qed.

(** ** Text *)

Example utf8_encode_ex :
  encode Codec.utf8 [99; 97; 102; 233; 0x20AC; 0x1F600]%Z
  = Some [x63; x61; x66; xc3; xa9; xe2; x82; xac; xf0; x9f; x98; x80].
Proof. reflexivity. Qed.

Example utf8_decode_ex :
  decode Codec.utf8 [x63; x61; x66; xc3; xa9; xe2; x82; xac; xf0; x9f; x98; x80]
  = Some [99; 97; 102; 233; 0x20AC; 0x1F600]%Z.
Proof. reflexivity. Qed.

Example utf8_ignore_ex :
  decode_ignore Codec.utf8 [x63; xff; x61; xc3; x66; xe2; x82]
  = [99; 97; 102]%Z
  /\ decode Codec.utf8 [x63; xff; x61; xc3; x66; xe2; x82] = None.
Proof. split; reflexivity. Qed.

Example str_replace_ex1 :
  str_replace [97; 97; 98; 98; 97]%Z [97]%Z [] = [98; 98]%Z.
Proof. reflexivity. Qed.

Example str_replace_ex2 :
  str_replace [97; 98; 99]%Z [] [45]%Z = [45; 97; 45; 98; 45; 99; 45]%Z.
Proof. reflexivity. Qed.

Example str_replace_ex3 :
  str_replace [97; 97; 97]%Z [97; 97]%Z [45]%Z = [45; 97]%Z.
Proof. reflexivity. Qed.

(** ** The directory tree *)

Module FSFacts.
Import FS.

Lemma assoc_put_same k v es : assoc k (put_entry k v es) = Some v.
Proof.
  induction es as [|[k' v'] es IH]; simpl.
  - now rewrite String.eqb_refl.
  - destruct (String.eqb k k') eqn:E; simpl.
    + now rewrite String.eqb_refl.
    + now rewrite E.
Qed.

Lemma assoc_put_other k k' v es :
  k' <> k -> assoc k' (put_entry k v es) = assoc k' es.
Proof.
  intros Hne. induction es as [|[k0 v0] es IH]; simpl.
  - apply String.eqb_neq in Hne. now rewrite Hne.
  - destruct (String.eqb k k0) eqn:E; simpl.
    + apply String.eqb_eq in E. subst k0.
      apply String.eqb_neq in Hne. now rewrite Hne.
    + destruct (String.eqb k' k0); auto.
Qed.

Lemma assoc_remove_same k es : assoc k (remove_entry k es) = None.
Proof.
  induction es as [|[k' v'] es IH]; simpl; auto.
  destruct (String.eqb k k') eqn:E; simpl; auto.
  now rewrite E.
Qed.

Lemma assoc_remove_other k k' es :
  k' <> k -> assoc k' (remove_entry k es) = assoc k' es.
Proof.
  intros Hne. induction es as [|[k0 v0] es IH]; simpl; auto.
  destruct (String.eqb k k0) eqn:E; simpl.
  - apply String.eqb_eq in E. subst k0.
    apply String.eqb_neq in Hne. now rewrite Hne.
  - destruct (String.eqb k' k0); auto.
Qed.

Lemma assoc_set_same k v es : assoc k (set_entry k v es) = v.
Proof.
  destruct v; simpl; [apply assoc_put_same | apply assoc_remove_same].
Qed.

Lemma assoc_set_other k k' v es :
  k' <> k -> assoc k' (set_entry k v es) = assoc k' es.
Proof.
  destruct v; simpl; [apply assoc_put_other | apply assoc_remove_other].
Qed.

Lemma is_prefix_refl p : is_prefix p p = true.
Proof. induction p; simpl; auto. now rewrite String.eqb_refl. Qed.

Lemma is_prefix_app p r : is_prefix p (p ++ r) = true.
Proof. induction p; simpl; auto. now rewrite String.eqb_refl. Qed.

Lemma is_prefix_spec p q :
  is_prefix p q = true <-> exists r, q = p ++ r.
Proof.
  split.
  - revert q. induction p as [|a p IH]; intros q H.
    + now exists q.
    + destruct q as [|b q]; simpl in H; [discriminate|].
      apply andb_true_iff in H as [Hab H]. apply String.eqb_eq in Hab.
      destruct (IH _ H) as [r ->]. subst. now exists r.
  - intros [r ->]. apply is_prefix_app.
Qed.

Lemma path_eqb_eq p q : path_eqb p q = true <-> p = q.
Proof.
  unfold path_eqb. split.
  - intros H. apply andb_true_iff in H as [H1 H2].
    apply is_prefix_spec in H1 as [r ->].
    apply is_prefix_spec in H2 as [r' H2].
    rewrite <- app_assoc in H2.
    rewrite <- (app_nil_r p) in H2 at 1.
    apply app_inv_head in H2. symmetry in H2.
    apply app_eq_nil in H2 as [-> _]. now rewrite app_nil_r.
  - intros ->. now rewrite is_prefix_refl.
Qed.

Lemma path_eqb_refl p : path_eqb p p = true.
Proof. now apply path_eqb_eq. Qed.

Lemma lookup_app p r n :
  lookup (p ++ r) n =
  match lookup p n with
  | Some m => lookup r m
  | None => None
  end.
Proof.
  revert n. induction p as [|c p IH]; intros n; simpl; auto.
  destruct n as [d|es]; auto.
  destruct (assoc c es); auto.
Qed.

Lemma lookup_file_below d p k r n :
  lookup p n = Some (File d) -> lookup (p ++ k :: r) n = None.
Proof. intros H. now rewrite lookup_app, H. Qed.

(** Whatever lies above an existing entry is a directory. *)
Lemma lookup_above_dir p k r n :
  lookup (p ++ k :: r) n <> None -> is_dir_node (lookup p n) = true.
Proof.
  rewrite lookup_app. destruct (lookup p n) as [[d|es]|]; simpl; auto.
  all: intros H; now contradiction H.
Qed.

(** *** Rebinding one entry *)

Lemma set_at_some p k v n :
  is_dir_node (lookup p n) = true ->
  exists n', set_at (p ++ [k]) v n = Some n'.
Proof.
  revert n. induction p as [|c p IH]; intros n H; simpl in *.
  - destruct n as [d|es]; [discriminate|]. eauto.
  - destruct n as [d|es]; [discriminate|].
    destruct (assoc c es) as [child|] eqn:E; [|discriminate].
    destruct (IH _ H) as [n' Hn'].
    destruct (p ++ [k]) eqn:Epk.
    + now destruct p.
    + rewrite Hn'. eauto.
Qed.

Lemma set_at_parent_dir p v n n' :
  set_at p v n = Some n' ->
  exists d k, p = d ++ [k] /\ is_dir_node (lookup d n) = true.
Proof.
  revert n n'. induction p as [|c p IH]; intros n n' H; simpl in H.
  - discriminate.
  - destruct n as [dt|es]; [discriminate|].
    destruct p as [|c' p].
    + exists [], c. split; auto.
    + destruct (assoc c es) as [child|] eqn:E; [|discriminate].
      destruct (set_at (c' :: p) v child) as [child'|] eqn:E'; [|discriminate].
      destruct (IH _ _ E') as (d & k & Hp & Hd).
      exists (c :: d), k. split.
      * simpl. now rewrite Hp.
      * simpl. now rewrite E.
Qed.

Lemma lookup_set_at_below p v n n' r :
  set_at p v n = Some n' ->
  lookup (p ++ r) n' =
  match v with
  | Some m => lookup r m
  | None => None
  end.
Proof.
  revert n n'. induction p as [|c p IH]; intros n n' H; simpl in H.
  - discriminate.
  - destruct n as [dt|es]; [discriminate|].
    destruct p as [|c' p].
    + injection H as <-. simpl. rewrite assoc_set_same.
      destruct v; auto.
    + destruct (assoc c es) as [child|] eqn:E; [|discriminate].
      destruct (set_at (c' :: p) v child) as [child'|] eqn:E'; [|discriminate].
      injection H as <-.
      change ((c :: c' :: p) ++ r) with (c :: ((c' :: p) ++ r)).
      cbn [lookup]. rewrite assoc_put_same. eapply IH; eauto.
Qed.

Lemma lookup_set_at_same p v n n' :
  set_at p v n = Some n' -> lookup p n' = v.
Proof.
  intros H. rewrite <- (app_nil_r p).
  rewrite (lookup_set_at_below p v n n' [] H). now destruct v.
Qed.

Lemma lookup_set_at_other p v n n' q :
  set_at p v n = Some n' ->
  is_prefix p q = false -> is_prefix q p = false ->
  lookup q n' = lookup q n.
Proof.
  revert n n' q. induction p as [|c p IH]; intros n n' q H Hpq Hqp; simpl in H.
  - discriminate.
  - destruct n as [dt|es]; [discriminate|].
    destruct q as [|b q]; [discriminate|].
    simpl in Hpq, Hqp.
    destruct p as [|c' p].
    + injection H as <-. simpl.
      destruct (String.eqb c b) eqn:E.
      * simpl in Hpq. discriminate.
      * apply String.eqb_neq in E.
        rewrite assoc_set_other; auto.
    + destruct (assoc c es) as [child|] eqn:E; [|discriminate].
      destruct (set_at (c' :: p) v child) as [child'|] eqn:E'; [|discriminate].
      injection H as <-. cbn [lookup].
      destruct (String.eqb c b) eqn:Ecb.
      * apply String.eqb_eq in Ecb. subst b.
        rewrite String.eqb_refl in Hqp. simpl in Hpq, Hqp.
        rewrite assoc_put_same, E.
        eapply IH; eauto.
      * apply String.eqb_neq in Ecb.
        rewrite assoc_put_other; auto.
Qed.

Lemma lookup_set_at_above p v n n' q :
  set_at p v n = Some n' ->
  is_prefix q p = true -> q <> p ->
  is_dir_node (lookup q n') = true /\ is_dir_node (lookup q n) = true.
Proof.
  revert n n' q. induction p as [|c p IH]; intros n n' q H Hqp Hne; simpl in H.
  - discriminate.
  - destruct n as [dt|es]; [discriminate|].
    destruct q as [|b q].
    + destruct p as [|c' p].
      * injection H as <-. simpl. auto.
      * destruct (assoc c es) as [child|]; [|discriminate].
        destruct (set_at (c' :: p) v child); [|discriminate].
        injection H as <-. simpl. auto.
    + simpl in Hqp. apply andb_true_iff in Hqp as [Ebc Hqp].
      apply String.eqb_eq in Ebc. subst b.
      destruct p as [|c' p].
      * destruct q; [now contradiction Hne | discriminate].
      * destruct (assoc c es) as [child|] eqn:E; [|discriminate].
        destruct (set_at (c' :: p) v child) as [child'|] eqn:E'; [|discriminate].
        injection H as <-. cbn [lookup]. rewrite assoc_put_same, E.
        eapply IH; eauto. intros ->. now apply Hne.
Qed.

End FSFacts.

(** ** Path strings and their resolution *)

Module PathFacts.
Import Path.

Lemma has_sep_app a b : has_sep (a ++ b) = has_sep a || has_sep b.
Proof.
  induction a as [|c a IH]; simpl; auto.
  now rewrite IH, orb_assoc.
Qed.

Lemma tail_raw_nosep s : has_sep s = false -> tail_raw s = s.
Proof. destruct s; simpl; auto. now intros ->. Qed.

Lemma tail_raw_sep_app a b :
  has_sep b = false -> tail_raw (a ++ String sep b) = b.
Proof.
  intros Hb. induction a as [|c a IH].
  - simpl. now apply tail_raw_nosep.
  - change ((String c a ++ String sep b)%string)
      with (String c (a ++ String sep b)).
    cbn [tail_raw has_sep].
    rewrite has_sep_app. cbn [has_sep].
    replace (is_sep sep) with true by reflexivity.
    simpl. rewrite orb_true_r, orb_true_r. exact IH.
Qed.

Lemma components_not_nil s : components s <> [].
Proof.
  destruct s as [|c s]; simpl; [discriminate|].
  destruct (is_sep c); [discriminate|].
  destruct (components s); discriminate.
Qed.

Lemma components_nosep s : has_sep s = false -> components s = [s].
Proof.
  induction s as [|c s IH]; simpl; auto.
  intros H. apply orb_false_iff in H as [Hc Hs].
  rewrite Hc, (IH Hs). reflexivity.
Qed.

Lemma components_sep_app a b :
  components (a ++ String sep b) = components a ++ components b.
Proof.
  induction a as [|c a IH].
  - reflexivity.
  - change ((String c a ++ String sep b)%string)
      with (String c (a ++ String sep b)).
    cbn [components]. rewrite IH.
    destruct (is_sep c); auto.
    destruct (components a) eqn:E.
    + now apply components_not_nil in E.
    + reflexivity.
Qed.

Lemma endswith_sep_inv p :
  endswith_sep p = true -> exists q, p = (q ++ String sep "")%string.
Proof.
  induction p as [|c p IH]; simpl; [discriminate|].
  destruct p as [|c' p].
  - intros H. exists "". simpl. f_equal.
    unfold is_sep in H. now apply Ascii.eqb_eq in H.
  - intros H. destruct (IH H) as [q Hq]. exists (String c q).
    simpl. now rewrite Hq.
Qed.

Lemma app_string_assoc (a b c : string) :
  ((a ++ b) ++ c = a ++ (b ++ c))%string.
Proof. induction a; simpl; auto. now rewrite IHa. Qed.

Lemma valid_name_inv name :
  valid_name name = true ->
  name <> "" /\ has_sep name = false /\ name <> "." /\ name <> "..".
Proof.
  unfold valid_name. intros H.
  repeat (apply andb_true_iff in H as [H ?]).
  repeat match goal with
         | X : negb _ = true |- _ => apply negb_true_iff in X
         end.
  repeat split; auto; now apply String.eqb_neq.
Qed.

Lemma nosep_not_startswith name :
  has_sep name = false -> startswith_sep name = false.
Proof.
  destruct name; simpl; auto. intros H.
  now apply orb_false_iff in H as [-> _].
Qed.

(** Joining a name to a path puts it after one separator. *)
Lemma join_shape p name :
  p <> "" -> has_sep name = false ->
  exists q,
    join p name = (q ++ String sep name)%string
    /\ (components p = components q \/ components p = components q ++ [""]).
Proof.
  intros Hp Hn. unfold join.
  rewrite (nosep_not_startswith _ Hn).
  apply String.eqb_neq in Hp. rewrite Hp. simpl.
  destruct (endswith_sep p) eqn:E.
  - apply endswith_sep_inv in E as [q ->]. exists q. split.
    + now rewrite app_string_assoc.
    + right. now rewrite components_sep_app.
  - exists p. auto.
Qed.

Lemma join_not_empty p name : name <> "" -> has_sep name = false -> join p name <> "".
Proof.
  intros Hn Hs. unfold join. rewrite (nosep_not_startswith _ Hs).
  destruct (String.eqb p "" || endswith_sep p)%bool;
    destruct p; simpl; try discriminate; auto.
Qed.

Lemma split_join_tail p name :
  p <> "" -> has_sep name = false -> snd (split (join p name)) = name.
Proof.
  intros Hp Hn. destruct (join_shape p name Hp Hn) as (q & -> & _).
  unfold split.
  match goal with |- snd (if ?b then _ else _) = _ => destruct b end;
    simpl; now apply tail_raw_sep_app.
Qed.

End PathFacts.

Module ResolveFacts.
Import FS FSFacts PathFacts.

Lemma step_valid cur name :
  Path.valid_name name = true -> step cur name = cur ++ [name].
Proof.
  intros H. apply valid_name_inv in H as (H1 & _ & H2 & H3).
  unfold step. apply String.eqb_neq in H1, H2, H3.
  now rewrite H1, H2, H3.
Qed.

Lemma namei_from_app fs cur xs ys :
  namei_from fs cur (xs ++ ys) =
  match namei_from fs cur xs with
  | inr c => namei_from fs c ys
  | inl e => inl e
  end.
Proof.
  revert cur. induction xs as [|x xs IH]; intros cur; simpl; auto.
  destruct (lookup cur fs) as [[d|es]|]; auto.
Qed.

(** Resolution looks at the tree only to ask whether a place is a
    directory. *)
Lemma namei_from_ext fs fs' cur cs r :
  (forall q, is_dir_node (lookup q fs) = true ->
             is_dir_node (lookup q fs') = true) ->
  namei_from fs cur cs = inr r -> namei_from fs' cur cs = inr r.
Proof.
  intros Hd. revert cur. induction cs as [|c cs IH]; intros cur H; simpl in *.
  - exact H.
  - specialize (Hd cur).
    destruct (lookup cur fs) as [[d|es]|]; try discriminate.
    specialize (Hd eq_refl).
    destruct (lookup cur fs') as [[d'|es']|]; try discriminate.
    now apply IH.
Qed.

Lemma namei_ext fs fs' p cp :
  (forall q, is_dir_node (lookup q fs) = true ->
             is_dir_node (lookup q fs') = true) ->
  namei p fs = inr cp -> namei p fs' = inr cp.
Proof.
  unfold namei. intros Hd. destruct (String.eqb p ""); [discriminate|].
  now apply namei_from_ext.
Qed.

Lemma namei_root_dir p fs cp :
  namei p fs = inr cp -> is_dir_node (Some fs) = true.
Proof.
  unfold namei. destruct (String.eqb p ""); [discriminate|].
  destruct (Path.components p) eqn:E.
  - now apply components_not_nil in E.
  - simpl. destruct fs; auto. discriminate.
Qed.

Lemma anchored_step fs cur c :
  anchored fs cur -> is_dir_node (lookup cur fs) = true ->
  anchored fs (step cur c).
Proof.
  intros Ha Hd. unfold step.
  destruct (String.eqb c "" || String.eqb c ".")%bool; auto.
  destruct (String.eqb c "..").
  - destruct Ha as [->|(d & k & -> & Hdd)]; [now left|].
    rewrite removelast_last.
    destruct d as [|a d] using rev_ind; [now left|].
    right. exists d, a. split; auto.
    apply lookup_above_dir with (k := a) (r := []).
    destruct (lookup (d ++ [a]) fs) as [[?|?]|]; simpl in Hdd; congruence.
  - right. now exists cur, c.
Qed.

Lemma namei_from_anchored fs cur cs r :
  anchored fs cur -> namei_from fs cur cs = inr r -> anchored fs r.
Proof.
  revert cur. induction cs as [|c cs IH]; intros cur Ha H; simpl in H.
  - now injection H as <-.
  - destruct (lookup cur fs) as [[d|es]|] eqn:E; try discriminate.
    apply (IH _ (anchored_step fs cur c Ha ltac:(now rewrite E)) H).
Qed.

Lemma namei_anchored p fs cp : namei p fs = inr cp -> anchored fs cp.
Proof.
  unfold namei. destruct (String.eqb p ""); [discriminate|].
  apply namei_from_anchored. now left.
Qed.

(** Resolution agrees with the lexical reading of the path. *)
Lemma namei_from_norm fs cur cs r :
  namei_from fs cur cs = inr r -> r = fold_left step cs cur.
Proof.
  revert cur. induction cs as [|c cs IH]; intros cur H; simpl in *.
  - now injection H.
  - destruct (lookup cur fs) as [[d|es]|]; try discriminate. now apply IH.
Qed.

Lemma namei_norm p fs cp : namei p fs = inr cp -> cp = norm p.
Proof.
  unfold namei, norm. destruct (String.eqb p ""); [discriminate|].
  apply namei_from_norm.
Qed.

(** Resolving [join p name] is resolving [p] and taking one more
    step. *)
Lemma namei_join p name fs cp :
  namei p fs = inr cp -> is_dir_node (lookup cp fs) = true ->
  name <> "" -> Path.has_sep name = false ->
  namei (Path.join p name) fs = inr (step cp name).
Proof.
  intros Hp Hd Hn Hs.
  assert (Hpne : p <> "").
  { intros ->. discriminate. }
  destruct (join_shape p name Hpne Hs) as (q & Hq & Hc).
  pose proof (join_not_empty p name Hn Hs) as Hj.
  unfold namei in *. apply String.eqb_neq in Hj, Hpne. rewrite Hj.
  rewrite Hpne in Hp. rewrite Hq, components_sep_app, namei_from_app.
  rewrite (components_nosep name Hs).
  assert (Hq' : namei_from fs [] (Path.components q) = inr cp).
  { destruct Hc as [Hc|Hc]; rewrite Hc in Hp; auto.
    rewrite namei_from_app in Hp.
    destruct (namei_from fs [] (Path.components q)) as [e|c]; [discriminate|].
    simpl in Hp. destruct (lookup c fs) as [[?|?]|]; try discriminate.
    unfold step in Hp. simpl in Hp. exact Hp. }
  rewrite Hq'. simpl.
  destruct (lookup cp fs) as [[?|?]|]; try discriminate. reflexivity.
Qed.

End ResolveFacts.

Module KindFacts.
Import FS FSFacts.

Lemma kind_of_dir o : is_dir_node o = true -> kind_of o = Some KDir.
Proof. destruct o as [[?|?]|]; simpl; congruence. Qed.

Lemma kind_of_is_dir o : is_dir_node o = true <-> kind_of o = Some KDir.
Proof. destruct o as [[?|?]|]; simpl; split; congruence. Qed.

Lemma path_eqb_below p k r : path_eqb p (p ++ k :: r) = false.
Proof.
  destruct (path_eqb p (p ++ k :: r)) eqn:E; auto.
  apply path_eqb_eq in E. apply (f_equal (@List.length _)) in E.
  rewrite length_app in E. simpl in E. lia.
Qed.

(** Rebinding a name that held no directory to a file, or unlinking
    it, changes what that one path denotes and nothing else. *)
Lemma kind_set_at_leaf p v n n' :
  set_at p v n = Some n' ->
  is_dir_node v = false -> is_dir_node (lookup p n) = false ->
  forall q, kind_at q n' = if path_eqb p q then kind_of v else kind_at q n.
Proof.
  intros H Hv Hold q. unfold kind_at.
  destruct (is_prefix p q) eqn:Hpq.
  - apply is_prefix_spec in Hpq as [r ->]. destruct r as [|k r].
    + rewrite app_nil_r, path_eqb_refl.
      now rewrite (lookup_set_at_same p v n n' H).
    + rewrite path_eqb_below.
      rewrite (lookup_set_at_below p v n n' (k :: r) H).
      rewrite lookup_app.
      destruct v as [[d|es]|]; try discriminate;
        destruct (lookup p n) as [[d'|es']|]; try discriminate; reflexivity.
  - assert (Hne : path_eqb p q = false).
    { unfold path_eqb. now rewrite Hpq. }
    rewrite Hne.
    destruct (is_prefix q p) eqn:Hqp.
    + assert (q <> p).
      { intros ->. rewrite is_prefix_refl in Hpq. discriminate. }
      destruct (lookup_set_at_above p v n n' q H Hqp) as [H1 H2]; auto.
      now rewrite (kind_of_dir _ H1), (kind_of_dir _ H2).
    + now rewrite (lookup_set_at_other p v n n' q H Hpq Hqp).
Qed.

Lemma dirs_set_at_leaf p v n n' :
  set_at p v n = Some n' ->
  is_dir_node v = false -> is_dir_node (lookup p n) = false ->
  forall q, is_dir_node (lookup q n') = is_dir_node (lookup q n).
Proof.
  intros H Hv Hold q.
  pose proof (kind_set_at_leaf p v n n' H Hv Hold q) as K.
  unfold kind_at in K.
  destruct (path_eqb p q) eqn:E.
  - apply path_eqb_eq in E. subst q.
    rewrite Hold. destruct (lookup p n') as [[?|?]|]; auto.
    destruct v as [[?|?]|]; discriminate.
  - destruct (lookup q n') as [[?|?]|], (lookup q n) as [[?|?]|];
      simpl in *; congruence.
Qed.

End KindFacts.

(** ** The system calls *)

Module OSFacts.
Import FS FSFacts ResolveFacts KindFacts OS.

Lemma isfile_inv p fs :
  isfile p fs = true ->
  exists cp d, namei p fs = inr cp /\ lookup cp fs = Some (File d).
Proof.
  unfold isfile, stat. destruct (namei p fs) as [e|cp]; [discriminate|].
  destruct (lookup cp fs) as [[d|es]|] eqn:E; try discriminate.
  intros _. now exists cp, d.
Qed.

Lemma isdir_inv p fs :
  isdir p fs = true ->
  exists cp es, namei p fs = inr cp /\ lookup cp fs = Some (Dir es).
Proof.
  unfold isdir, stat. destruct (namei p fs) as [e|cp]; [discriminate|].
  destruct (lookup cp fs) as [[d|es]|] eqn:E; try discriminate.
  intros _. now exists cp, es.
Qed.

Lemma isfile_intro p fs cp d :
  namei p fs = inr cp -> lookup cp fs = Some (File d) -> isfile p fs = true.
Proof. unfold isfile, stat. now intros -> ->. Qed.

Lemma isdir_intro p fs cp es :
  namei p fs = inr cp -> lookup cp fs = Some (Dir es) -> isdir p fs = true.
Proof. unfold isdir, stat. now intros -> ->. Qed.

Lemma isdir_not_isfile p fs : isdir p fs = true -> isfile p fs = false.
Proof.
  unfold isdir, isfile. destruct (stat p fs) as [e|[d|es]]; congruence.
Qed.

Lemma namei_leaf_not_root p fs cp :
  namei p fs = inr cp -> is_dir_node (lookup cp fs) = false -> cp <> [].
Proof.
  intros H Hd ->. apply namei_root_dir in H. simpl in *. congruence.
Qed.

Lemma store_ok cp v fs :
  anchored fs cp -> cp <> [] ->
  exists fs', store cp v fs = (Ok tt, fs') /\ set_at cp v fs = Some fs'.
Proof.
  intros [->|(d & k & -> & Hd)] Hne; [now contradiction Hne|].
  destruct (set_at_some d k v fs Hd) as [fs' H].
  exists fs'. unfold store. now rewrite H.
Qed.

(** Where a path resolved before a leaf was rebound, it resolves
    after. *)
Lemma namei_set_at_leaf cp v fs fs' p r :
  set_at cp v fs = Some fs' ->
  is_dir_node v = false -> is_dir_node (lookup cp fs) = false ->
  namei p fs = inr r -> namei p fs' = inr r.
Proof.
  intros H Hv Hold. apply namei_ext. intros q Hq.
  now rewrite (dirs_set_at_leaf cp v fs fs' H Hv Hold q).
Qed.

End OSFacts.

(** ** The guarded operations *)

Import FS OS Files.
Import FSFacts ResolveFacts KindFacts OSFacts.

(** C2.  When the target of [move_file] is a regular file, the call
    raises the guard's error and the tree is what it was: the source is
    where it was, with its content. *)
Theorem move_file_existing_target (a b : string) (fs : node) :
  isfile b fs = true ->
  move_file a b fs = (Raise already_exists, fs).
Proof.
  intros H. unfold move_file, bind, query. now rewrite H.
Qed.

Lemma move_file_existing_target_witness :
  isfile "/dest/a.txt" (snd (move_file "/root/a.txt" "/dest" tree_same_basename)) = true
  /\ move_file "/root/sub/a.txt" "/dest/a.txt"
       (snd (move_file "/root/a.txt" "/dest" tree_same_basename))
     = (Raise already_exists,
        snd (move_file "/root/a.txt" "/dest" tree_same_basename)).
Proof.
  split; [reflexivity|].
  apply (move_file_existing_target "/root/sub/a.txt" "/dest/a.txt").
  reflexivity.
Defined.

(** C9.  [delete_file] on a path that is no regular file returns and
    changes nothing; on any path it returns, and a second call right
    after it returns too and changes nothing. *)
Theorem delete_file_idempotent (p : string) (fs : node) :
  (isfile p fs = false -> delete_file p fs = (Ok tt, fs))
  /\ exists fs1,
       delete_file p fs = (Ok tt, fs1)
       /\ delete_file p fs1 = (Ok tt, fs1).
Proof.
  assert (Hno : forall fs0, isfile p fs0 = false ->
                            delete_file p fs0 = (Ok tt, fs0)).
  { intros fs0 H. unfold delete_file, bind, query. now rewrite H. }
  split; [apply Hno|].
  destruct (isfile p fs) eqn:E.
  - destruct (isfile_inv p fs E) as (cp & d & Hn & Hl).
    assert (Hleaf : is_dir_node (lookup cp fs) = false) by now rewrite Hl.
    destruct (store_ok cp None fs (namei_anchored p fs cp Hn)
                (namei_leaf_not_root p fs cp Hn Hleaf)) as (fs1 & Hs & Hset).
    exists fs1. split.
    + unfold delete_file, bind, query. rewrite E.
      unfold remove. now rewrite Hn, Hl.
    + apply Hno. unfold isfile, stat.
      rewrite (namei_set_at_leaf cp None fs fs1 p cp Hset eq_refl Hleaf Hn).
      now rewrite (lookup_set_at_same cp None fs fs1 Hset).
  - exists fs. split; now apply Hno.
Qed.

Lemma delete_file_idempotent_witness :
  isfile "/root/sub" tree_two_levels = false
  /\ delete_file "/root/sub" tree_two_levels = (Ok tt, tree_two_levels).
Proof.
  split; [reflexivity|].
  apply (proj1 (delete_file_idempotent "/root/sub" tree_two_levels)).
  reflexivity.
Defined.

(** Writing a whole file: [open(p, 'w+')] and one [write]. *)
Lemma write_whole_file (enc : codec) (p : string) (data : text)
  (fs : node) (cp : path) (bs : list byte) :
  namei p fs = inr cp -> is_dir_node (lookup cp fs) = false ->
  encode enc data = Some bs ->
  exists fs',
    bind (open_w p) (fun file => write_text enc file data) fs = (Ok tt, fs')
    /\ namei p fs' = inr cp
    /\ forall q, kind_at q fs' =
                 if path_eqb cp q then Some (KFile bs) else kind_at q fs.
Proof.
  intros Hn Hleaf He.
  pose proof (namei_anchored p fs cp Hn) as Ha.
  pose proof (namei_leaf_not_root p fs cp Hn Hleaf) as Hne.
  destruct (store_ok cp (Some (File [])) fs Ha Hne) as (fs1 & Hs1 & Hset1).
  assert (Ha1 : anchored fs1 cp).
  { destruct Ha as [->|(d & k & -> & Hd)]; [now left|].
    right. exists d, k. split; auto.
    now rewrite (dirs_set_at_leaf _ _ fs fs1 Hset1 eq_refl Hleaf d). }
  pose proof (lookup_set_at_same cp _ fs fs1 Hset1) as Hl1.
  assert (Hleaf1 : is_dir_node (lookup cp fs1) = false) by now rewrite Hl1.
  destruct (store_ok cp (Some (File ([] ++ bs))) fs1 Ha1 Hne)
    as (fs2 & Hs2 & Hset2).
  exists fs2. split; [|split].
  - unfold bind, open_w. rewrite Hn.
    assert (Hopen : (store cp (Some (File [])) ;;; ret cp)%os fs = (Ok cp, fs1)).
    { unfold bind, ret. now rewrite Hs1. }
    destruct (lookup cp fs) as [[d|es]|]; try discriminate;
      rewrite Hopen; unfold write_text; rewrite He;
      unfold write_bytes; now rewrite Hl1.
  - eapply namei_set_at_leaf; [exact Hset2| reflexivity | exact Hleaf1 |].
    eapply namei_set_at_leaf; [exact Hset1| reflexivity | exact Hleaf |].
    exact Hn.
  - intros q.
    rewrite (kind_set_at_leaf _ _ fs1 fs2 Hset2 eq_refl Hleaf1 q).
    rewrite (kind_set_at_leaf _ _ fs fs1 Hset1 eq_refl Hleaf q).
    now destruct (path_eqb cp q).
Qed.

Lemma stat_of_kind_file (p : string) (fs : node) (cp : path) (bs : list byte) :
  namei p fs = inr cp -> kind_at cp fs = Some (KFile bs) ->
  stat p fs = inr (File bs).
Proof.
  unfold stat, kind_at. intros -> H.
  destruct (lookup cp fs) as [[d|es]|]; simpl in H; congruence.
Qed.

(** C3.  For a path that is a regular file: with [overwrite=False]
    the call raises the guard's error before anything is opened, so the
    tree and the content stay as they were; with [overwrite=True] the
    call returns and the file holds the encoded data and nothing of
    what it held. *)
Theorem write_to_file_guard_then_overwrite (locale : codec) (p : string)
  (data : text) (fs : node) :
  isfile p fs = true ->
  write_to_file locale p data false fs = (Raise already_exists, fs)
  /\ forall bs, encode locale data = Some bs ->
       exists fs', write_to_file locale p data true fs = (Ok tt, fs')
                   /\ stat p fs' = inr (File bs).
Proof.
  intros H. split.
  - unfold write_to_file, bind, query. simpl. now rewrite H.
  - intros bs He. destruct (isfile_inv p fs H) as (cp & d & Hn & Hl).
    destruct (write_whole_file locale p data fs cp bs Hn) as (fs' & Hw & Hn' & Hk);
      auto.
    { now rewrite Hl. }
    exists fs'. split.
    + unfold write_to_file. simpl negb. cbv iota.
      unfold bind at 1. unfold ret at 1. exact Hw.
    + apply (stat_of_kind_file p fs' cp bs Hn').
      now rewrite Hk, path_eqb_refl.
Qed.

Lemma write_to_file_guard_then_overwrite_witness :
  isfile "/root/a.txt" tree_two_levels = true
  /\ write_to_file Codec.utf8 "/root/a.txt" [233%Z] false tree_two_levels
     = (Raise already_exists, tree_two_levels)
  /\ exists fs', write_to_file Codec.utf8 "/root/a.txt" [233%Z] true tree_two_levels
                 = (Ok tt, fs')
                 /\ stat "/root/a.txt" fs' = inr (File [xc3; xa9]).
Proof.
  split; [reflexivity|].
  destruct (write_to_file_guard_then_overwrite Codec.utf8 "/root/a.txt"
              [233%Z] tree_two_levels eq_refl) as [Hg Ho].
  split; [exact Hg|]. apply Ho. reflexivity.
Defined.

(** ** File type detection *)

(** C6.  When [import magic] raises an [Exception], [get_file_type]
    logs one error and returns [None].  This is the only way to
    [None]: with the inspector at hand the function returns a record or
    raises what the inspector raised, and an import ended by something
    that is no [Exception] raises that; the log is untouched in all
    these cases. *)
Theorem get_file_type_soft_fail (import_magic : result magic_module)
  (file_path : string) (fs : node) (log : list log_line) :
  (forall e, import_magic = Raise e -> is_Exception e = true ->
     get_file_type import_magic file_path fs log
     = (Ok None, log ++ [("ERROR", import_error_message e)]))
  /\ (fst (get_file_type import_magic file_path fs log) = Ok None ->
      exists e, import_magic = Raise e /\ is_Exception e = true)
  /\ (forall e, import_magic = Raise e -> is_Exception e = false ->
        get_file_type import_magic file_path fs log = (Raise e, log))
  /\ (forall magic e, import_magic = Ok magic ->
        from_file magic file_path false fs = Raise e
        \/ (raises (from_file magic file_path false fs) = false
            /\ from_file magic file_path true fs = Raise e) ->
        get_file_type import_magic file_path fs log = (Raise e, log)).
Proof.
  unfold get_file_type. repeat split.
  - intros e -> He. now rewrite He.
  - destruct import_magic as [magic|e].
    + destruct (from_file magic file_path false fs); [|discriminate].
      destruct (from_file magic file_path true fs); discriminate.
    + destruct (is_Exception e) eqn:He; [|discriminate].
      intros _. now exists e.
  - intros e -> He. now rewrite He.
  - intros magic e -> [H|[H1 H2]].
    + now rewrite H.
    + destruct (from_file magic file_path false fs); [|discriminate].
      now rewrite H2.
Qed.

Lemma get_file_type_soft_fail_witness :
  get_file_type magic_missing "/root/a.txt" tree_two_levels []
  = (Ok None,
     [("ERROR", import_error_message (ImportError "No module named 'magic'"))])
  /\ get_file_type (Ok magic_unreadable) "/nowhere" tree_two_levels []
     = (Raise FileNotFoundError, []).
Proof.
  split.
  - apply (proj1 (get_file_type_soft_fail magic_missing "/root/a.txt"
                    tree_two_levels [])); reflexivity.
  - apply (proj2 (proj2 (proj2 (get_file_type_soft_fail (Ok magic_unreadable)
                    "/nowhere" tree_two_levels []))) magic_unreadable).
    + reflexivity.
    + left. reflexivity.
Defined.

(** ** Which calls can end in [FileExistsError] *)

Module QuietFacts.
Import FS OS FSFacts PathFacts ResolveFacts KindFacts OSFacts.

Lemma namei_from_errno fs cur cs e :
  namei_from fs cur cs = inl e -> e = ENOENT \/ e = ENOTDIR.
Proof.
  revert cur. induction cs as [|c cs IH]; intros cur H; simpl in H.
  - discriminate.
  - destruct (lookup cur fs) as [[d|es]|]; eauto; injection H as <-; auto.
Qed.

Lemma namei_errno p fs e :
  namei p fs = inl e -> e = ENOENT \/ e = ENOTDIR.
Proof.
  unfold namei. destruct (String.eqb p "").
  - intros H. injection H as <-. auto.
  - apply namei_from_errno.
Qed.

Ltac namei_cases :=
  repeat match goal with
         | H : namei _ _ = inl ?e |- _ =>
             apply namei_errno in H; destruct H; subst e
         end.

Ltac crush_quiet :=
  repeat (match goal with
          | |- context [match ?x with _ => _ end] => destruct x eqn:?
          | |- context [if ?b then _ else _] => destruct b eqn:?
          end; namei_cases; try reflexivity).

Lemma store_quiet cp v fs : quiet (store cp v fs).
Proof. unfold quiet, store. now destruct (set_at cp v fs). Qed.

Lemma remove_quiet p fs : quiet (remove p fs).
Proof.
  unfold quiet, remove, store, fail, raise. crush_quiet.
Qed.

Lemma rename_quiet src dst fs : quiet (rename src dst fs).
Proof.
  unfold quiet, rename, fail, raise. crush_quiet.
Qed.

Lemma open_r_quiet p fs : quiet (open_r p fs).
Proof. unfold quiet, open_r, fail, raise. crush_quiet. Qed.

Lemma bind_quiet {A B} (m : M A) (k : A -> M B) fs :
  quiet (m fs) -> (forall a fs', quiet (k a fs')) -> quiet (bind m k fs).
Proof.
  unfold quiet, bind, raises_already_exists. intros Hm Hk.
  destruct (m fs) as [[a|e] fs']; simpl in *; auto.
Qed.

Lemma open_w_quiet p fs : quiet (open_w p fs).
Proof.
  unfold open_w.
  destruct (namei p fs) as [e|cp] eqn:E.
  - unfold quiet, fail, raise. namei_cases; reflexivity.
  - destruct (lookup cp fs) as [[d|es]|];
      try (apply bind_quiet; [apply store_quiet | reflexivity]).
    reflexivity.
Qed.

Lemma read_bytes_quiet h fs : quiet (read_bytes h fs).
Proof. unfold quiet, read_bytes, fail, raise. crush_quiet. Qed.

Lemma write_bytes_quiet h bs fs : quiet (write_bytes h bs fs).
Proof. unfold quiet, write_bytes, store, fail, raise. crush_quiet. Qed.

Lemma copy2_quiet src dst fs : quiet (copy2 src dst fs).
Proof.
  unfold copy2. apply bind_quiet; [reflexivity|]. intros into fs1.
  apply bind_quiet; [reflexivity|]. intros same fs2.
  destruct same; [reflexivity|].
  apply bind_quiet; [apply open_r_quiet|]. intros hin fs3.
  apply bind_quiet; [apply read_bytes_quiet|]. intros bs fs4.
  apply bind_quiet; [apply open_w_quiet|]. intros hout fs5.
  apply write_bytes_quiet.
Qed.

Lemma has_sep_tail_raw s : Path.has_sep (Path.tail_raw s) = false.
Proof.
  induction s as [|c s IH]; simpl; auto.
  destruct (Path.is_sep c || Path.has_sep s)%bool eqn:E; auto.
Qed.

Lemma put_mk_errno p v n e :
  put_mk p v n = inl e ->
  e = ENOTDIR \/ (e = EEXIST /\ lookup p n <> None).
Proof.
  revert n. induction p as [|c p IH]; intros n H; simpl in H.
  - injection H as <-. right. split; auto. discriminate.
  - destruct n as [d|es]; [injection H as <-; now left|].
    simpl. destruct (assoc c es) as [child|]; [|discriminate].
    destruct (put_mk p v child) as [e'|child'] eqn:E; [|discriminate].
    injection H as <-. exact (IH _ E).
Qed.

Lemma rename_fail_same src dst fs e fs1 :
  rename src dst fs = (Raise e, fs1) -> fs1 = fs.
Proof.
  unfold rename, fail, raise.
  repeat (match goal with
          | |- context [match ?x with _ => _ end] => destruct x eqn:?
          | |- context [if ?b then _ else _] => destruct b eqn:?
          end); intros H; try discriminate; now injection H.
Qed.

Lemma isdir_exists p fs : isdir p fs = true -> exists_ p fs = true.
Proof.
  unfold isdir, exists_. destruct (stat p fs) as [e|[d|es]]; congruence.
Qed.

Lemma app_string_nil (s : string) : (s ++ "")%string = s.
Proof. induction s; simpl; congruence. Qed.

(** A directory path with nothing joined to it is that directory. *)
Lemma exists_join_empty t fs :
  isdir t fs = true -> exists_ (Path.join t "") fs = true.
Proof.
  intros H. unfold Path.join. simpl Path.startswith_sep. cbv iota.
  destruct (String.eqb t "" || Path.endswith_sep t)%bool.
  - rewrite app_string_nil. now apply isdir_exists.
  - destruct (isdir_inv t fs H) as (ct & es & Hn & Hl).
    unfold exists_, stat, namei in *.
    destruct (String.eqb t "") eqn:Et; [discriminate|].
    assert (Hne : String.eqb (t ++ String Path.sep "") "" = false).
    { destruct t; [discriminate | reflexivity]. }
    rewrite Hne, components_sep_app, namei_from_app, Hn. simpl.
    rewrite Hl. unfold step. simpl. now rewrite Hl.
Qed.

Lemma copytree_rmtree_quiet src dst fs :
  lookup (norm dst) fs = None -> quiet (copytree_rmtree src dst fs).
Proof.
  intros Hd. unfold copytree_rmtree.
  destruct (namei src fs) as [e|s] eqn:E.
  - unfold quiet, fail, raise. namei_cases; reflexivity.
  - destruct (lookup s fs) as [[d|es]|]; try reflexivity.
    destruct (put_mk (norm dst) (Dir es) fs) as [e|fs'] eqn:Ep.
    + apply put_mk_errno in Ep as [->|[-> Hc]]; [reflexivity|].
      now contradiction Hc.
    + apply store_quiet.
Qed.

(** [shutil.move] into or onto an existing directory never ends in
    [FileExistsError]. *)
Lemma shutil_move_dir_quiet a t fs :
  isdir t fs = true -> quiet (shutil_move a t fs).
Proof.
  intros Ht. unfold shutil_move.
  unfold bind at 1. unfold query at 1. rewrite Ht.
  unfold bind at 1. unfold query at 1.
  destruct (samefile a t fs); [apply rename_quiet|].
  unfold bind at 1. unfold query at 1.
  destruct (exists_ (Path.join t (shutil_basename a)) fs) eqn:Ex;
    [reflexivity|].
  unfold try_except_OSError.
  destruct (rename a (Path.join t (shutil_basename a)) fs) as [[u|e] fs1] eqn:R;
    [reflexivity|].
  destruct (is_OSError e).
  - apply rename_fail_same in R as Hfs. subst fs1.
    unfold bind at 1. unfold query at 1.
    destruct (isdir a fs) eqn:Ha.
    + destruct (destinsrc a t); [reflexivity|].
      apply copytree_rmtree_quiet.
      destruct (String.eqb (shutil_basename a) "") eqn:Eb.
      * apply String.eqb_eq in Eb. rewrite Eb in Ex.
        rewrite (exists_join_empty t fs Ht) in Ex. discriminate.
      * apply String.eqb_neq in Eb.
        destruct (isdir_inv t fs Ht) as (ct & es & Hn & Hl).
        assert (Hj := namei_join t (shutil_basename a) fs ct Hn
                        ltac:(now rewrite Hl) Eb (has_sep_tail_raw _)).
        rewrite <- (namei_norm _ _ _ Hj).
        unfold exists_, stat in Ex. rewrite Hj in Ex.
        destruct (lookup (step ct (shutil_basename a)) fs); congruence.
    + apply bind_quiet; [apply copy2_quiet|]. intros _ fs2.
      apply remove_quiet.
  - pose proof (rename_quiet a (Path.join t (shutil_basename a)) fs) as Q.
    now rewrite R in Q.
Qed.

End QuietFacts.

(** ** The overwrite guard and directories *)

Import QuietFacts.

(** C10 as stated does not hold for [create_file]: on a path that is a
    directory the guard lets the call through and [os.mknod] raises
    [FileExistsError], the class the specification calls
    AlreadyExistsError. *)
Lemma create_file_on_directory_raises :
  isdir "/root" tree_two_levels = true
  /\ create_file "/root" tree_two_levels
     = (Raise (FileExistsError "[Errno 17] File exists"), tree_two_levels)
  /\ raises_already_exists (create_file "/root" tree_two_levels) = true.
Proof. repeat split. Qed.

(** C10, amended.  On a target that is a directory no guard fires:
    each operation is its system call.  [write_to_file] then raises
    [IsADirectoryError]; [move_file] and [rename_file] end in no
    [FileExistsError] at all; [create_file] ends in the
    [FileExistsError] of [os.mknod], which is not the guard's. *)
Theorem guard_tests_regular_files_only (locale : codec) (t : string)
  (fs : node) :
  isdir t fs = true ->
  create_file t fs = mknod t fs
  /\ create_file t fs = (Raise (exn_of_errno EEXIST), fs)
  /\ exn_of_errno EEXIST <> already_exists
  /\ (forall data,
        write_to_file locale t data false fs = (Raise IsADirectoryError, fs))
  /\ (forall a,
        move_file a t fs = shutil_move a t fs
        /\ quiet (move_file a t fs))
  /\ (forall file_path new_name,
        Path.join (fst (Path.split file_path)) new_name = t ->
        rename_file file_path new_name fs = rename file_path t fs
        /\ quiet (rename_file file_path new_name fs)).
Proof.
  intros Ht. pose proof (isdir_not_isfile t fs Ht) as Hf.
  destruct (isdir_inv t fs Ht) as (ct & es & Hn & Hl).
  assert (Hc : create_file t fs = mknod t fs).
  { unfold create_file, bind, query. now rewrite Hf. }
  split; [exact Hc|]. split; [|split; [|split; [|split]]].
  - rewrite Hc. unfold mknod. now rewrite Hn, Hl.
  - discriminate.
  - intros data. unfold write_to_file. simpl negb. cbv iota.
    unfold bind, query, ret. rewrite Hf.
    unfold open_w. now rewrite Hn, Hl.
  - intros a.
    assert (Hm : move_file a t fs = shutil_move a t fs).
    { unfold move_file, bind, query. now rewrite Hf. }
    split; [exact Hm|]. rewrite Hm. now apply shutil_move_dir_quiet.
  - intros file_path new_name Ej. unfold rename_file.
    destruct (Path.split file_path) as [head tail]. simpl in Ej. subst t.
    unfold bind, query. rewrite Hf. split; [reflexivity|].
    apply rename_quiet.
Qed.

Lemma guard_tests_regular_files_only_witness :
  isdir "/root/sub" tree_two_levels = true
  /\ create_file "/root/sub" tree_two_levels
     = (Raise (exn_of_errno EEXIST), tree_two_levels)
  /\ write_to_file Codec.utf8 "/root/sub" [97%Z] false tree_two_levels
     = (Raise IsADirectoryError, tree_two_levels)
  /\ quiet (move_file "/root/a.txt" "/root/sub" tree_two_levels)
  /\ quiet (rename_file "/root/a.txt" "sub" tree_two_levels).
Proof.
  split; [reflexivity|].
  destruct (guard_tests_regular_files_only Codec.utf8 "/root/sub"
              tree_two_levels eq_refl) as (_ & Hc & _ & Hw & Hm & Hr).
  split; [exact Hc|]. split; [apply Hw|]. split; [apply Hm|].
  apply (Hr "/root/a.txt" "sub"). reflexivity.
Defined.

(** ** Well-formed trees and listings *)

Module ListingFacts.
Import FS OS Files FSFacts PathFacts ResolveFacts KindFacts OSFacts.

Lemma nodupb_inv x l :
  nodupb (x :: l) = true -> ~ In x l /\ nodupb l = true.
Proof.
  simpl. intros H. apply andb_true_iff in H as [H1 H2]. split; auto.
  intros Hin. apply negb_true_iff in H1.
  assert (existsb (String.eqb x) l = true).
  { apply existsb_exists. exists x. split; auto. apply String.eqb_refl. }
  congruence.
Qed.

Lemma nodupb_NoDup l : nodupb l = true -> NoDup l.
Proof.
  induction l as [|x l IH]; intros H; constructor;
    apply nodupb_inv in H as [H1 H2]; auto.
Qed.

Lemma wf_children es :
  (fix all (l : list (string * node)) : bool :=
     match l with
     | [] => true
     | (_, child) :: l' => wf child && all l'
     end) es = true ->
  Forall (fun e => wf (snd e) = true) es.
Proof.
  induction es as [|[k v] es IH]; intros H; constructor.
  - simpl. now apply andb_true_iff in H as [H _].
  - apply IH. now apply andb_true_iff in H as [_ H].
Qed.

Lemma wf_dir_inv es :
  wf (Dir es) = true ->
  Forall (fun k => Path.valid_name k = true) (names es)
  /\ nodupb (names es) = true
  /\ Forall (fun e => wf (snd e) = true) es.
Proof.
  simpl. intros H. apply andb_true_iff in H as [H H3].
  apply andb_true_iff in H as [H1 H2]. repeat split; auto.
  - apply Forall_forall. now rewrite forallb_forall in H1.
  - now apply wf_children.
Qed.

Lemma assoc_in k es v : assoc k es = Some v -> In (k, v) es.
Proof.
  induction es as [|[k' v'] es IH]; simpl; [discriminate|].
  destruct (String.eqb k k') eqn:E.
  - apply String.eqb_eq in E. subst. intros H. injection H as ->. now left.
  - intros H. right. auto.
Qed.

Lemma in_assoc k es v :
  nodupb (names es) = true -> In (k, v) es -> assoc k es = Some v.
Proof.
  induction es as [|[k' v'] es IH]; simpl names; intros Hnd Hin.
  - destruct Hin.
  - apply nodupb_inv in Hnd as [Hni Hnd]. simpl.
    destruct Hin as [Heq|Hin].
    + injection Heq as -> ->. now rewrite String.eqb_refl.
    + destruct (String.eqb k k') eqn:E.
      * apply String.eqb_eq in E. subst k'.
        contradiction Hni. apply in_map_iff. now exists (k, v).
      * auto.
Qed.

Lemma wf_lookup p n m : wf n = true -> lookup p n = Some m -> wf m = true.
Proof.
  revert n. induction p as [|c p IH]; intros n Hwf H; simpl in H.
  - now injection H as <-.
  - destruct n as [d|es]; [discriminate|].
    destruct (assoc c es) as [child|] eqn:E; [|discriminate].
    apply (IH child); auto.
    apply wf_dir_inv in Hwf as (_ & _ & Hall).
    apply assoc_in in E.
    now apply (proj1 (Forall_forall _ _) Hall (c, child)).
Qed.

Lemma wf_fs_wf fs : wf_fs fs = true -> wf fs = true.
Proof. destruct fs; simpl; auto. Qed.

(** The entry [name] of the directory [p] is what [join p name]
    resolves to. *)
Lemma child_resolves p fs cp es name child :
  wf_fs fs = true ->
  namei p fs = inr cp -> lookup cp fs = Some (Dir es) ->
  In (name, child) es ->
  namei (Path.join p name) fs = inr (cp ++ [name])
  /\ lookup (cp ++ [name]) fs = Some child.
Proof.
  intros Hwf Hn Hl Hin.
  assert (Hd : wf (Dir es) = true).
  { apply (wf_lookup cp fs); auto. now apply wf_fs_wf. }
  apply wf_dir_inv in Hd as (Hv & Hnd & _).
  assert (Hvn : Path.valid_name name = true).
  { apply (proj1 (Forall_forall _ _) Hv). apply in_map_iff.
    now exists (name, child). }
  destruct (valid_name_inv name Hvn) as (Hne & Hs & _).
  split.
  - rewrite <- (step_valid cp name Hvn).
    apply namei_join; auto. now rewrite Hl.
  - rewrite lookup_app, Hl. simpl. now rewrite (in_assoc name es child).
Qed.

Lemma stat_dir_inv p fs es :
  stat p fs = inr (Dir es) ->
  exists cp, namei p fs = inr cp /\ lookup cp fs = Some (Dir es).
Proof.
  unfold stat. destruct (namei p fs) as [e|cp]; [discriminate|].
  destruct (lookup cp fs) as [n|] eqn:E; [|discriminate].
  intros H. injection H as ->. now exists cp.
Qed.

Lemma bind_ok {A B} (m : M A) (k : A -> M B) fs a fs' :
  m fs = (Ok a, fs') -> bind m k fs = k a fs'.
Proof. unfold bind. now intros ->. Qed.

Lemma bind_raise {A B} (m : M A) (k : A -> M B) fs e fs' :
  m fs = (Raise e, fs') -> bind m k fs = (Raise e, fs').
Proof. unfold bind. now intros ->. Qed.

(** A loop whose body only looks at the tree. *)
Lemma for_append_query {A B} (l : list A) (f : A -> node -> bool)
  (g : A -> B) (fs : node) :
  for_append l (fun x =>
    bind (query (f x)) (fun b : bool => if b then ret [g x] else ret [])) fs
  = (Ok (flat_map (fun x => if f x fs then [g x] else []) l), fs).
Proof.
  induction l as [|x l IH]; cbn [for_append flat_map]; [reflexivity|].
  rewrite (bind_ok _ _ fs (if f x fs then [g x] else []) fs).
  - now rewrite (bind_ok _ _ fs _ fs IH).
  - unfold bind, query. now destruct (f x fs).
Qed.

Lemma flat_map_children {B} (p : string) (fs : node) (cp : path)
  (es : list (string * node)) (sel : node -> bool) (test : string -> bool)
  (g : string -> B) :
  (forall name child, In (name, child) es ->
                      test name = sel child) ->
  flat_map (fun name => if test name then [g name] else []) (names es)
  = map g (flat_map (fun e => if sel (snd e) then [fst e] else []) es).
Proof.
  induction es as [|[k v] es IH]; intros H; simpl; [reflexivity|].
  rewrite (H k v (or_introl eq_refl)), map_app, IH.
  - now destruct (sel v).
  - intros name child Hin. apply H. now right.
Qed.

Lemma dirnames_sel es :
  dirnames es
  = flat_map (fun e => if is_dir_node (Some (snd e)) then [fst e] else []) es.
Proof.
  unfold dirnames. apply flat_map_ext. intros [k [d|l]]; reflexivity.
Qed.

Lemma filenames_sel es :
  filenames es
  = flat_map (fun e => if is_file_node (Some (snd e)) then [fst e] else []) es.
Proof.
  unfold filenames. apply flat_map_ext. intros [k [d|l]]; reflexivity.
Qed.

Lemma isdir_child p fs cp es name child :
  wf_fs fs = true ->
  namei p fs = inr cp -> lookup cp fs = Some (Dir es) ->
  In (name, child) es ->
  isdir (Path.join p name) fs = is_dir_node (Some child)
  /\ isfile (Path.join p name) fs = is_file_node (Some child).
Proof.
  intros Hwf Hn Hl Hin.
  destruct (child_resolves p fs cp es name child Hwf Hn Hl Hin) as [H1 H2].
  unfold isdir, isfile, stat. rewrite H1, H2. now destruct child.
Qed.

End ListingFacts.

(** ** Directory listings *)

Import PathFacts ListingFacts.

Lemma endswith_sep_app (a b : string) :
  b <> "" -> Path.endswith_sep (a ++ b) = Path.endswith_sep b.
Proof.
  intros Hb. induction a as [|c a IH]; [reflexivity|].
  change ((String c a ++ b)%string) with (String c (a ++ b)).
  cbn [Path.endswith_sep]. destruct (a ++ b)%string eqn:E; auto.
  destruct a; simpl in E; [now contradiction Hb | discriminate].
Qed.

Lemma endswith_sep_nosep (s : string) :
  Path.has_sep s = false -> Path.endswith_sep s = false.
Proof.
  induction s as [|c s IH]; simpl; auto. intros H.
  apply orb_false_iff in H as [Hc Hs]. destruct s; auto.
Qed.

Lemma join_valid_no_trailing_sep (p name : string) :
  p <> "" -> Path.valid_name name = true ->
  Path.endswith_sep (Path.join p name) = false.
Proof.
  intros Hp Hv. destruct (valid_name_inv name Hv) as (Hne & Hs & _).
  destruct (join_shape p name Hp Hs) as (q & -> & _).
  rewrite endswith_sep_app by discriminate.
  cbn [Path.endswith_sep]. destruct name; [now contradiction Hne|].
  now apply endswith_sep_nosep.
Qed.

Lemma in_dirnames es name :
  In name (dirnames es) <-> exists l, In (name, Dir l) es.
Proof.
  unfold dirnames. rewrite in_flat_map. split.
  - intros [[k [d|l]] [Hin H]]; simpl in H;
      [destruct H | destruct H as [<-|[]]].
    now exists l.
  - intros [l Hin]. exists (name, Dir l). split; auto. now left.
Qed.

Lemma in_filenames es name :
  In name (filenames es) <-> exists d, In (name, File d) es.
Proof.
  unfold filenames. rewrite in_flat_map. split.
  - intros [[k [d|l]] [Hin H]]; simpl in H;
      [destruct H as [<-|[]] | destruct H].
    now exists d.
  - intros [d Hin]. exists (name, File d). split; auto. now left.
Qed.

(** C8.  For a path that is a directory, [list_dir_folders] returns
    the names [os.listdir] reports whose entry is a directory, and no
    other; with [full_path=True] each is joined to the path and ends
    with the separator, where [list_dir_files] returns the joined
    paths of the regular files, none of which ends with it. *)
Theorem list_dir_folders_immediate_directories (folder_path : string)
  (fs : node) (es : list (string * node)) :
  wf_fs fs = true -> stat folder_path fs = inr (Dir es) ->
  list_dir_folders folder_path false fs = (Ok (dirnames es), fs)
  /\ (forall name,
        In name (dirnames es) <->
        In name (names es) /\ isdir (Path.join folder_path name) fs = true)
  /\ list_dir_folders folder_path true fs
     = (Ok (map (fun name => (Path.join folder_path name ++ "/")%string)
              (dirnames es)), fs)
  /\ Forall (fun p => Path.endswith_sep p = true)
       (map (fun name => (Path.join folder_path name ++ "/")%string)
          (dirnames es))
  /\ list_dir_files folder_path true fs
     = (Ok (map (Path.join folder_path) (filenames es)), fs)
  /\ Forall (fun p => Path.endswith_sep p = false)
       (map (Path.join folder_path) (filenames es)).
Proof.
  intros Hwf Hst.
  destruct (stat_dir_inv folder_path fs es Hst) as (cp & Hn & Hl).
  assert (Hls : listdir folder_path fs = (Ok (names es), fs)).
  { unfold listdir. now rewrite Hst. }
  assert (Hch : forall name child, In (name, child) es ->
            isdir (Path.join folder_path name) fs = is_dir_node (Some child)
            /\ isfile (Path.join folder_path name) fs
               = is_file_node (Some child)).
  { intros name child. now apply (isdir_child folder_path fs cp es). }
  assert (Hfold : forall (full : bool),
            list_dir_folders folder_path full fs
            = (Ok (map (fun name =>
                     if full then (Path.join folder_path name ++ "/")%string
                     else name) (dirnames es)), fs)).
  { intros full. unfold list_dir_folders.
    rewrite (bind_ok _ _ fs _ fs Hls).
    rewrite (for_append_query (names es)
               (fun name => isdir (Path.join folder_path name))
               (fun name => if full
                            then (Path.join folder_path name ++ "/")%string
                            else name) fs).
    rewrite dirnames_sel. f_equal. f_equal.
    apply (flat_map_children folder_path fs cp es
             (fun n => is_dir_node (Some n))).
    intros name child Hin. apply (Hch name child Hin). }
  assert (Hp : folder_path <> "").
  { intros ->. discriminate. }
  assert (Hd : wf (Dir es) = true).
  { apply (wf_lookup cp fs); auto. now apply wf_fs_wf. }
  apply wf_dir_inv in Hd as (Hv & Hnd & _).
  split; [|split; [|split; [|split; [|split]]]].
  - rewrite (Hfold false). now rewrite map_id.
  - intros name. rewrite in_dirnames. split.
    + intros [l Hin]. split.
      * apply in_map_iff. now exists (name, Dir l).
      * now rewrite (proj1 (Hch name (Dir l) Hin)).
    + intros [Hin Hdir]. apply in_map_iff in Hin as [[k child] [Hk Hin]].
      simpl in Hk. subst k.
      rewrite (proj1 (Hch name child Hin)) in Hdir.
      destruct child as [d|l]; [discriminate|]. now exists l.
  - apply (Hfold true).
  - apply Forall_forall. intros p Hin.
    apply in_map_iff in Hin as [name [<- _]].
    now rewrite endswith_sep_app by discriminate.
  - unfold list_dir_files.
    rewrite (bind_ok _ _ fs _ fs Hls).
    rewrite (for_append_query (names es)
               (fun name => isfile (Path.join folder_path name))
               (fun name => Path.join folder_path name) fs).
    rewrite filenames_sel. f_equal. f_equal.
    apply (flat_map_children folder_path fs cp es
             (fun n => is_file_node (Some n))).
    intros name child Hin. apply (Hch name child Hin).
  - apply Forall_forall. intros p Hin.
    apply in_map_iff in Hin as [name [<- Hin]].
    apply join_valid_no_trailing_sep; auto.
    apply (proj1 (Forall_forall _ _) Hv).
    apply in_filenames in Hin as [d Hin].
    apply in_map_iff. now exists (name, File d).
Qed.

Lemma list_dir_folders_immediate_directories_witness :
  list_dir_folders "/root" true tree_two_levels
  = (Ok ["/root/sub/"], tree_two_levels)
  /\ list_dir_files "/root" true tree_two_levels
     = (Ok ["/root/a.txt"], tree_two_levels).
Proof.
  destruct (list_dir_folders_immediate_directories "/root" tree_two_levels
              [("a.txt", File [x61]); ("sub", Dir [("b.txt", File [x62])])]
              eq_refl eq_refl) as (_ & _ & H1 & _ & H2 & _).
  split; [exact H1 | exact H2].
Defined.

(** ** The recursive listing *)

Module WalkFacts.
Import FS OS Files FSFacts PathFacts ResolveFacts KindFacts OSFacts ListingFacts.

Lemma walk_node_dir top es :
  walk_node top (Dir es) =
  (top, dirnames es, filenames es)
  :: flat_map (fun e => match snd e with
                        | Dir _ => walk_node (Path.join top (fst e)) (snd e)
                        | File _ => []
                        end) es.
Proof.
  cbn [walk_node]. f_equal.
  induction es as [|[k v] es IH]; [reflexivity|].
  cbn [flat_map fst snd]. now rewrite <- IH.
Qed.

Lemma files_below_dir es :
  files_below (Dir es) =
  map (fun name_data => ([fst name_data], snd name_data))
    (flat_map (fun e => match snd e with
                        | File d => [(fst e, d)]
                        | Dir _ => []
                        end) es)
  ++ flat_map (fun e => map (fun f => (fst e :: fst f, snd f))
                          (files_below (snd e))) es.
Proof.
  cbn [files_below]. f_equal.
  - induction es as [|[k [d|l]] es IH]; cbn [flat_map fst snd map app];
      [reflexivity| |]; now rewrite IH.
  - induction es as [|[k v] es IH]; [reflexivity|].
    cbn [flat_map fst snd]. now rewrite <- IH.
Qed.

Lemma count_files_dir es :
  count_files (Dir es) = list_sum (map (fun e => count_files (snd e)) es).
Proof.
  cbn [count_files].
  induction es as [|[k v] es IH]; [reflexivity|].
  cbn [map snd]. change (list_sum (?a :: ?l)) with (a + list_sum l).
  now rewrite <- IH.
Qed.

Lemma length_files_below n :
  List.length (files_below n) =
  match n with
  | File _ => 0
  | Dir _ => count_files n
  end.
Proof.
  induction n as [d|es IH] using node_ind; [reflexivity|].
  rewrite files_below_dir, count_files_dir, length_app, length_map.
  induction es as [|[k v] es IHes]; [reflexivity|].
  inversion IH as [|? ? Hv Hes]; subst. specialize (IHes Hes).
  cbn [flat_map map fst snd] in *.
  change (list_sum (?a :: ?l)) with (a + list_sum l).
  rewrite !length_app, !length_map. unfold path in *.
  destruct v as [d|l]; cbn [List.length count_files] in *; lia.
Qed.

(** A regular file anywhere below a directory is among
    [files_below]. *)
Lemma files_below_complete rel :
  forall n c d, lookup (c :: rel) n = Some (File d) ->
                In (c :: rel, d) (files_below n).
Proof.
  induction rel as [|c' rel IH]; intros n c d H.
  - destruct n as [dt|es]; [discriminate|]. cbn [lookup] in H.
    destruct (assoc c es) as [child|] eqn:E; [|discriminate].
    injection H as ->. apply assoc_in in E.
    rewrite files_below_dir. apply in_or_app. left.
    apply in_map_iff. exists (c, d). split; auto.
    apply in_flat_map. exists (c, File d). split; auto. now left.
  - destruct n as [dt|es]; [discriminate|].
    change (lookup (c :: c' :: rel) (Dir es))
      with (match assoc c es with
            | Some child => lookup (c' :: rel) child
            | None => None
            end) in H.
    destruct (assoc c es) as [child|] eqn:E; [|discriminate].
    apply assoc_in in E. rewrite files_below_dir. apply in_or_app. right.
    apply in_flat_map. exists (c, child). split; auto.
    apply in_map_iff. exists (c' :: rel, d). split; auto.
Qed.

Section Walk.
Variable fs : node.
Hypothesis fs_wf : wf_fs fs = true.

(** Every file of [files_below] is where its joined path string
    resolves to. *)
Lemma files_below_resolve n :
  forall top cp,
    namei top fs = inr cp -> lookup cp fs = Some n ->
    forall rel d, In (rel, d) (files_below n) ->
      namei (joined top rel) fs = inr (cp ++ rel)
      /\ lookup (cp ++ rel) fs = Some (File d).
Proof.
  induction n as [dt|es IH] using node_ind; intros top cp Hn Hl rel d Hin.
  - destruct Hin.
  - rewrite files_below_dir in Hin. apply in_app_or in Hin as [Hin|Hin].
    + apply in_map_iff in Hin as [[name d'] [Heq Hin]].
      injection Heq as <- <-.
      apply in_flat_map in Hin as [[k v] [Hin Hv]].
      destruct v as [d''|l]; simpl in Hv; [|destruct Hv].
      destruct Hv as [Heq|[]]. injection Heq as <- <-.
      apply (child_resolves top fs cp es k (File d'') fs_wf Hn Hl Hin).
    + apply in_flat_map in Hin as [[k v] [Hin Hv]].
      apply in_map_iff in Hv as [[rel' d'] [Heq Hv]].
      simpl in Heq. injection Heq as <- <-.
      destruct (child_resolves top fs cp es k v fs_wf Hn Hl Hin) as [Hn' Hl'].
      pose proof (proj1 (Forall_forall _ _) IH (k, v) Hin) as IHv.
      destruct (IHv (Path.join top k) (cp ++ [k]) Hn' Hl' rel' d' Hv)
        as [H1 H2].
      rewrite <- app_assoc in H1, H2. simpl in H1, H2. now split.
Qed.

Lemma listed_walk n :
  forall top cp,
    namei top fs = inr cp -> lookup cp fs = Some n ->
    flat_map (listed fs) (walk_node top n) = tree_paths top n.
Proof.
  induction n as [dt|es IH] using node_ind; intros top cp Hn Hl.
  - reflexivity.
  - unfold tree_paths. rewrite walk_node_dir, files_below_dir, map_app.
    cbn [flat_map]. f_equal.
    + cbn [listed]. rewrite filenames_sel, map_map.
      assert (Hsub : forall l, incl l es ->
                flat_map (fun file =>
                   if negb (isdir (Path.join top file) fs)
                   then [Path.join top file] else [])
                  (flat_map (fun e =>
                     if is_file_node (Some (snd e)) then [fst e] else []) l)
                = map (fun x => joined top (fst ([fst x], snd x)))
                    (flat_map (fun e => match snd e with
                                        | File d => [(fst e, d)]
                                        | Dir _ => []
                                        end) l)).
      { induction l as [|[k v] l IHl]; intros Hincl; [reflexivity|].
        cbn [flat_map fst snd]. rewrite flat_map_app, map_app.
        rewrite IHl by (intros x Hx; apply Hincl; now right).
        f_equal. destruct v as [d|l']; [|reflexivity].
        cbn [is_file_node flat_map app map fst snd].
        destruct (isdir_child top fs cp es k (File d) fs_wf Hn Hl
                    (Hincl _ (or_introl eq_refl))) as [Hd _].
        rewrite Hd. reflexivity. }
      apply Hsub, incl_refl.
    + assert (Hsub : forall l, incl l es ->
                flat_map (listed fs)
                  (flat_map (fun e => match snd e with
                     | Dir _ => walk_node (Path.join top (fst e)) (snd e)
                     | File _ => []
                     end) l)
                = map (fun f => joined top (fst f))
                    (flat_map (fun e => map (fun f => (fst e :: fst f, snd f))
                                          (files_below (snd e))) l)).
      { induction l as [|[k v] l IHl]; intros Hincl; [reflexivity|].
        cbn [flat_map fst snd]. rewrite flat_map_app, map_app.
        rewrite IHl by (intros x Hx; apply Hincl; now right).
        f_equal. rewrite map_map. cbn [fst snd].
        assert (Hin : In (k, v) es) by (apply Hincl; now left).
        destruct (child_resolves top fs cp es k v fs_wf Hn Hl Hin)
          as [Hn' Hl'].
        destruct v as [d|l']; [reflexivity|].
        pose proof (proj1 (Forall_forall _ _) IH (k, Dir l') Hin) as IHv.
        apply (IHv (Path.join top k) (cp ++ [k]) Hn' Hl'). }
      apply Hsub, incl_refl.
Qed.

End Walk.

Lemma for_append_pure {A B} (l : list A) (body : A -> M (list B))
  (out : A -> list B) (fs : node) :
  (forall x, In x l -> body x fs = (Ok (out x), fs)) ->
  for_append l body fs = (Ok (flat_map out l), fs).
Proof.
  induction l as [|x l IH]; intros H; cbn [for_append flat_map];
    [reflexivity|].
  rewrite (bind_ok _ _ fs (out x) fs) by (apply H; now left).
  rewrite (bind_ok _ _ fs (flat_map out l) fs); [reflexivity|].
  apply IH. intros y Hy. apply H. now right.
Qed.

Lemma list_dir_tree_listed root fs :
  list_dir_tree root fs = (Ok (flat_map (listed fs) (walk root fs)), fs).
Proof.
  unfold list_dir_tree.
  rewrite (bind_ok _ _ fs (walk root fs) fs) by reflexivity.
  apply for_append_pure. intros [[top dirs] files] _.
  apply (for_append_query files
           (fun file fs0 => negb (isdir (Path.join top file) fs0))
           (fun file => Path.join top file) fs).
Qed.

End WalkFacts.

Import WalkFacts.

(** C7.  For a path that is a directory, [list_dir_tree] returns one
    path for each regular file below it, at every depth, in the order
    of the walk: as many paths as the tree has regular files; each
    path denotes a regular file and no directory; and every regular
    file below the root has its path in the result. *)
Theorem list_dir_tree_all_regular_files (root_folder : string) (fs : node)
  (es : list (string * node)) :
  wf_fs fs = true -> stat root_folder fs = inr (Dir es) ->
  list_dir_tree root_folder fs = (Ok (tree_paths root_folder (Dir es)), fs)
  /\ List.length (tree_paths root_folder (Dir es)) = count_files (Dir es)
  /\ Forall (fun p => isfile p fs = true /\ isdir p fs = false)
       (tree_paths root_folder (Dir es))
  /\ (forall c rel d,
        lookup (c :: rel) (Dir es) = Some (File d) ->
        In (joined root_folder (c :: rel)) (tree_paths root_folder (Dir es))).
Proof.
  intros Hwf Hst.
  destruct (stat_dir_inv root_folder fs es Hst) as (cp & Hn & Hl).
  split; [|split; [|split]].
  - rewrite list_dir_tree_listed. unfold walk. rewrite Hst.
    now rewrite (listed_walk fs Hwf (Dir es) root_folder cp Hn Hl).
  - unfold tree_paths. rewrite length_map.
    apply (length_files_below (Dir es)).
  - apply Forall_forall. intros p Hin.
    apply in_map_iff in Hin as [[rel d] [<- Hin]].
    destruct (files_below_resolve fs Hwf (Dir es) root_folder cp Hn Hl rel d Hin)
      as [H1 H2].
    unfold isfile, isdir, stat. cbn [fst]. now rewrite H1, H2.
  - intros c rel d Hlk. apply in_map_iff. exists (c :: rel, d).
    split; [reflexivity|]. now apply files_below_complete.
Qed.

Lemma list_dir_tree_all_regular_files_witness :
  list_dir_tree "/root" tree_two_levels
  = (Ok ["/root/a.txt"; "/root/sub/b.txt"], tree_two_levels)
  /\ count_files (Dir [("a.txt", File [x61]);
                       ("sub", Dir [("b.txt", File [x62])])]) = 2.
Proof.
  destruct (list_dir_tree_all_regular_files "/root" tree_two_levels
              [("a.txt", File [x61]); ("sub", Dir [("b.txt", File [x62])])]
              eq_refl eq_refl) as (H1 & H2 & _).
  split; [exact H1 | exact (eq_sym H2)].
Defined.

(** ** Text *)

Module TextFacts.
Local Open Scope Z_scope.

Lemma universal_newlines_id (t : text) :
  ~ In 13 t -> universal_newlines t = t.
Proof.
  induction t as [|c t IH]; intros H; [reflexivity|].
  cbn [universal_newlines].
  destruct (c =? 13) eqn:E.
  - apply Z.eqb_eq in E. subst c. contradiction H. now left.
  - f_equal. apply IH. intros Hin. apply H. now right.
Qed.

Lemma has_prefix_app (old b : text) : has_prefix old (old ++ b) = true.
Proof.
  induction old as [|c old IH]; [reflexivity|].
  cbn [has_prefix app]. now rewrite Z.eqb_refl, IH.
Qed.

Lemma has_prefix_inv (old t : text) :
  has_prefix old t = true -> exists b, t = old ++ b.
Proof.
  revert t. induction old as [|c old IH]; intros t H.
  - now exists t.
  - destruct t as [|d t]; [discriminate|]. cbn [has_prefix] in H.
    apply andb_true_iff in H as [Hc H]. apply Z.eqb_eq in Hc. subst d.
    destruct (IH t H) as [b ->]. now exists b.
Qed.

(** Passing the rest of an occurrence. *)
Lemma replace_scan_skip (old new x b : text) :
  replace_scan old new (List.length x) (x ++ b) = replace_scan old new O b.
Proof.
  induction x as [|c x IH]; [|exact IH].
  destruct b; reflexivity.
Qed.

Lemma replace_scan_keep (old new a rest : text) :
  starts_none old a rest ->
  replace_scan old new O (a ++ rest) = a ++ replace_scan old new O rest.
Proof.
  induction a as [|c a IH]; intros H; [reflexivity|].
  cbn [app replace_scan].
  rewrite (H [] c a eq_refl). f_equal. apply IH.
  intros a1 c' a2 ->. apply (H (c :: a1) c' a2). reflexivity.
Qed.

(** [str.replace(old, '')]: the leftmost occurrence goes, and the scan
    goes on after it. *)
Lemma str_replace_leftmost (old a b : text) :
  old <> [] -> starts_none old a (old ++ b) ->
  str_replace (a ++ old ++ b) old [] = a ++ str_replace b old [].
Proof.
  intros Hne H. unfold str_replace.
  destruct old as [|c old]; [now contradiction Hne|].
  rewrite (replace_scan_keep (c :: old) [] a _ H). f_equal.
  pose proof (has_prefix_app (c :: old) b) as Hp.
  cbn [app] in Hp. cbn [app replace_scan]. rewrite Hp.
  replace (List.length (c :: old) - 1)%nat with (List.length old)
    by (cbn [List.length]; lia).
  apply replace_scan_skip.
Qed.

(** A text without occurrence of [old] is left as it is. *)
Lemma str_replace_absent (old t : text) :
  old <> [] -> ~ occurs old t -> str_replace t old [] = t.
Proof.
  intros Hne H. unfold str_replace.
  destruct old as [|c old]; [now contradiction Hne|].
  rewrite <- (app_nil_r t) at 1.
  rewrite replace_scan_keep; [now rewrite app_nil_r|].
  intros a1 c' a2 ->. rewrite app_nil_r.
  destruct (has_prefix (c :: old) (c' :: a2)) eqn:E; auto.
  apply has_prefix_inv in E as [b E]. contradiction H.
  exists a1, b. now rewrite <- E.
Qed.

(** Removing never adds a character. *)
Lemma replace_scan_subset (old : text) (k : nat) (t : text) (x : Z) :
  In x (replace_scan old [] k t) -> In x t.
Proof.
  revert k. induction t as [|c t IH]; intros k H; [exact H|].
  cbn [replace_scan] in H. destruct k as [|k].
  - destruct (has_prefix old (c :: t)).
    + right. exact (IH _ H).
    + destruct H as [->|H]; [now left | right; exact (IH _ H)].
  - right. exact (IH _ H).
Qed.

Lemma str_replace_subset (old t : text) (x : Z) :
  In x (str_replace t old []) -> In x t.
Proof.
  unfold str_replace. destruct old as [|c old].
  - cbn [app]. rewrite in_flat_map. intros [y [Hy [->|[]]]]. exact Hy.
  - apply replace_scan_subset.
Qed.

(** Removing a single character removes it everywhere. *)
Lemma str_replace_char (c : Z) (t : text) :
  str_replace t [c] [] = filter (fun x => negb (c =? x)) t.
Proof.
  unfold str_replace. induction t as [|d t IH]; [reflexivity|].
  cbn [replace_scan has_prefix filter List.length Nat.sub app].
  rewrite andb_true_r.
  destruct (c =? d); cbn [negb]; now rewrite IH.
Qed.

Lemma strip_subset (chars : list text) (t : text) (x : Z) :
  In x (strip (Some chars) t) -> In x t.
Proof.
  unfold strip. revert t. induction chars as [|r chars IH]; intros t H.
  - exact H.
  - cbn [fold_left] in H. apply IH in H. now apply str_replace_subset in H.
Qed.

(** Every character listed on its own is gone from the result. *)
Lemma strip_char (chars : list text) (t : text) (c : Z) :
  In [c] chars -> ~ In c (strip (Some chars) t).
Proof.
  unfold strip. revert t. induction chars as [|r chars IH]; intros t Hin.
  - destruct Hin.
  - cbn [fold_left]. destruct Hin as [->|Hin]; [|now apply IH].
    intros H. apply (strip_subset chars) in H.
    rewrite str_replace_char in H. apply filter_In in H as [_ H].
    now rewrite Z.eqb_refl in H.
Qed.

End TextFacts.

(** ** Encodings *)

Module CodecFacts.
Import Codec.
Local Open Scope Z_scope.

Ltac split_ifs :=
  repeat match goal with
         | H : context [if ?b then _ else _] |- _ => destruct b eqn:?
         | |- context [if ?b then _ else _] => destruct b eqn:?
         end.

Lemma scan_one b c rest :
  utf8_scan [b] = ([c], true) ->
  utf8_scan (b :: rest) = keep c (utf8_scan rest).
Proof.
  cbn [utf8_scan]. unfold keep, drop. cbn [fst snd].
  intros H. split_ifs; try discriminate; congruence.
Qed.

Lemma scan_two b1 b2 c rest :
  utf8_scan [b1; b2] = ([c], true) ->
  utf8_scan (b1 :: b2 :: rest) = keep c (utf8_scan rest).
Proof.
  cbn [utf8_scan]. unfold keep, drop. cbn [fst snd].
  intros H. split_ifs; try discriminate; congruence.
Qed.

Lemma scan_three b1 b2 b3 c rest :
  utf8_scan [b1; b2; b3] = ([c], true) ->
  utf8_scan (b1 :: b2 :: b3 :: rest) = keep c (utf8_scan rest).
Proof.
  cbn [utf8_scan]. unfold keep, drop. cbn [fst snd].
  intros H. split_ifs; try discriminate; congruence.
Qed.

Lemma scan_four b1 b2 b3 b4 c rest :
  utf8_scan [b1; b2; b3; b4] = ([c], true) ->
  utf8_scan (b1 :: b2 :: b3 :: b4 :: rest) = keep c (utf8_scan rest).
Proof.
  cbn [utf8_scan]. unfold keep, drop. cbn [fst snd].
  intros H. split_ifs; try discriminate; congruence.
Qed.

Lemma utf8_range_ok_spec fuel :
  forall c0, utf8_range_ok fuel c0 = true ->
  forall c, c0 <= c < c0 + Z.of_nat fuel -> utf8_cp_ok c = true.
Proof.
  induction fuel as [|fuel IH]; intros c0 H c Hc.
  - simpl in Hc. lia.
  - cbn [utf8_range_ok] in H.
    destruct (utf8_cp_ok c0) eqn:E; [|discriminate].
    destruct (Z.eq_dec c c0) as [->|Hne]; [exact E|].
    apply (IH (c0 + 1) H). lia.
Qed.

Lemma utf8_all_code_points : utf8_range_ok (Z.to_nat 0x110000) 0 = true.
Proof. vm_cast_no_check (eq_refl true). Qed.

Lemma utf8_cp_ok_all c : utf8_cp_ok c = true.
Proof.
  destruct (Z_lt_ge_dec c 0) as [Hneg|Hpos].
  - unfold utf8_cp_ok, utf8_encode_cp.
    now replace (c <? 0) with true by (symmetry; apply Z.ltb_lt; lia).
  - destruct (Z_lt_ge_dec c 0x110000) as [Hin|Hout].
    + apply (utf8_range_ok_spec _ 0 utf8_all_code_points). lia.
    + unfold utf8_cp_ok, utf8_encode_cp.
      replace (c <? 0) with false by (symmetry; apply Z.ltb_ge; lia).
      replace (c <? 0x80) with false by (symmetry; apply Z.ltb_ge; lia).
      replace (c <? 0x800) with false by (symmetry; apply Z.ltb_ge; lia).
      replace (c <? 0x10000) with false by (symmetry; apply Z.ltb_ge; lia).
      now replace (c <? 0x110000) with false
        by (symmetry; apply Z.ltb_ge; lia).
Qed.

Lemma utf8_encode_cp_scan c bs rest :
  utf8_encode_cp c = Some bs ->
  utf8_scan (bs ++ rest) = keep c (utf8_scan rest).
Proof.
  intros H. pose proof (utf8_cp_ok_all c) as Hok.
  unfold utf8_cp_ok in Hok. rewrite H in Hok.
  destruct (utf8_scan bs) as [[|c' [|? ?]] [|]] eqn:E; try discriminate.
  apply Z.eqb_eq in Hok. subst c'.
  unfold utf8_encode_cp in H.
  repeat match type of H with
         | (if ?b then _ else _) = _ => destruct b
         end; try discriminate; injection H as <-; cbn [app].
  - now apply scan_one.
  - now apply scan_two.
  - now apply scan_three.
  - now apply scan_four.
Qed.

Lemma utf8_scan_encode t :
  forall bs, encode_all utf8_encode_cp t = Some bs -> utf8_scan bs = (t, true).
Proof.
  induction t as [|c t IH]; intros bs H; cbn [encode_all] in H.
  - now injection H as <-.
  - destruct (utf8_encode_cp c) as [bc|] eqn:Ec; [|discriminate].
    destruct (encode_all utf8_encode_cp t) as [bt|]; [|discriminate].
    injection H as <-.
    rewrite (utf8_encode_cp_scan c bc bt Ec), (IH bt eq_refl).
    reflexivity.
Qed.

(** UTF-8 gives back every text it takes. *)
Theorem utf8_round_trip t bs :
  encode utf8 t = Some bs -> decode utf8 bs = Some t.
Proof.
  cbn [encode decode utf8]. intros H. unfold strict.
  now rewrite (utf8_scan_encode t bs H).
Qed.

Lemma val_byte_of c : 0 <= c < 256 -> val (byte_of c) = c.
Proof.
  intros H. unfold val, byte_of.
  destruct (Byte.of_N (Z.to_N c)) as [b|] eqn:E.
  - apply Byte.to_of_N in E. rewrite E. lia.
  - apply Byte.of_N_None_iff in E. lia.
Qed.

Lemma byte_scan_encode limit t :
  limit <= 256 ->
  forall bs, encode_all (byte_encode_cp limit) t = Some bs ->
             byte_scan limit bs = (t, true).
Proof.
  intros Hl. induction t as [|c t IH]; intros bs H; cbn [encode_all] in H.
  - now injection H as <-.
  - unfold byte_encode_cp in H at 1.
    destruct ((0 <=? c) && (c <? limit)) eqn:Ec; [|discriminate].
    apply andb_true_iff in Ec as [E1 E2].
    apply Z.leb_le in E1. apply Z.ltb_lt in E2.
    destruct (encode_all (byte_encode_cp limit) t) as [bt|]; [|discriminate].
    injection H as <-. cbn [app byte_scan].
    rewrite (val_byte_of c) by lia.
    replace (c <? limit) with true by (symmetry; apply Z.ltb_lt; lia).
    now rewrite (IH bt eq_refl).
Qed.

(** So do ASCII and Latin-1. *)
Theorem single_byte_round_trip limit t bs :
  limit <= 256 ->
  encode (single_byte limit) t = Some bs ->
  decode (single_byte limit) bs = Some t.
Proof.
  cbn [encode decode single_byte]. intros Hl H. unfold strict.
  now rewrite (byte_scan_encode limit t Hl bs H).
Qed.

End CodecFacts.

(** ** Writing and reading text *)

Import TextFacts.

Lemma writable_inv (p : string) (fs : node) :
  writable p fs = true ->
  exists cp, namei p fs = inr cp /\ is_dir_node (lookup cp fs) = false.
Proof.
  unfold writable. destruct (namei p fs) as [e|cp]; [discriminate|].
  intros H. apply negb_true_iff in H. now exists cp.
Qed.

Lemma read_whole_file (enc : codec) (ignore_errors : bool) (p : string)
  (fs : node) (cp : path) (bs : list byte) :
  namei p fs = inr cp -> lookup cp fs = Some (File bs) ->
  bind (open_r p) (fun file => read_text enc ignore_errors file) fs
  = (if ignore_errors
     then Ok (universal_newlines (decode_ignore enc bs))
     else match decode enc bs with
          | Some t => Ok (universal_newlines t)
          | None => Raise UnicodeDecodeError
          end, fs).
Proof.
  intros Hn Hl. unfold bind, open_r. rewrite Hn, Hl.
  unfold read_text, bind, read_bytes. rewrite Hl.
  destruct ignore_errors; [reflexivity|].
  destruct (decode enc bs); reflexivity.
Qed.

Lemma lookup_of_kind_file (q : path) (fs : node) (bs : list byte) :
  kind_at q fs = Some (KFile bs) -> lookup q fs = Some (File bs).
Proof.
  unfold kind_at. destruct (lookup q fs) as [[d|es]|]; simpl; congruence.
Qed.

(** C4 as stated does not hold: a carriage return is text every
    encoding here takes, and it is read back as a line feed. *)
Lemma round_trip_loses_carriage_return :
  writable "/root/a.txt" tree_two_levels = true
  /\ encode Codec.utf8 [97; 13; 98]%Z = Some [x61; x0d; x62]
  /\ decode Codec.utf8 [x61; x0d; x62] = Some [97; 13; 98]%Z
  /\ exists fs',
       write_to_file Codec.utf8 "/root/a.txt" [97; 13; 98]%Z true
         tree_two_levels = (Ok tt, fs')
       /\ read_file Codec.utf8 "/root/a.txt" fs' = (Ok [97; 10; 98]%Z, fs')
       /\ [97; 10; 98]%Z <> [97; 13; 98]%Z.
Proof.
  repeat split.
  eexists. repeat split. discriminate.
Qed.

(** C4, amended.  For a path that can be written, and a text the
    encoding of the locale takes and gives back, with no carriage
    return in it, [write_to_file] returns and [read_file] after it
    returns the text. *)
Theorem write_then_read_round_trip (locale : codec) (p : string)
  (data : text) (fs : node) (bs : list byte) :
  writable p fs = true ->
  encode locale data = Some bs -> decode locale bs = Some data ->
  ~ In 13%Z data ->
  exists fs',
    write_to_file locale p data true fs = (Ok tt, fs')
    /\ read_file locale p fs' = (Ok data, fs').
Proof.
  intros Hw He Hd Hcr.
  destruct (writable_inv p fs Hw) as (cp & Hn & Hleaf).
  destruct (write_whole_file locale p data fs cp bs Hn Hleaf He)
    as (fs' & Hwr & Hn' & Hk).
  exists fs'. split.
  - unfold write_to_file. simpl negb. cbv iota.
    unfold bind at 1. unfold ret at 1. exact Hwr.
  - unfold read_file.
    rewrite (read_whole_file locale false p fs' cp bs Hn').
    + now rewrite Hd, (universal_newlines_id data Hcr).
    + apply lookup_of_kind_file. now rewrite Hk, path_eqb_refl.
Qed.

Lemma write_then_read_round_trip_witness :
  exists fs',
    write_to_file Codec.utf8 "/dest/new.txt" [99; 97; 102; 233; 10]%Z true
      tree_two_levels = (Ok tt, fs')
    /\ read_file Codec.utf8 "/dest/new.txt" fs'
       = (Ok [99; 97; 102; 233; 10]%Z, fs').
Proof.
  apply (write_then_read_round_trip Codec.utf8 "/dest/new.txt"
           [99; 97; 102; 233; 10]%Z tree_two_levels
           [x63; x61; x66; xc3; xa9; x0a]).
  - reflexivity.
  - reflexivity.
  - reflexivity.
  - simpl. intros [H|[H|[H|[H|[H|[]]]]]]; discriminate.
Defined.

(** ** Encoding repair *)

Lemma fix_encoding_strip (t : text) (remove_chars : option (list text)) :
  match remove_chars with
  | Some ((_ :: _) as chars) =>
      fold_left (fun text remove_char => str_replace text remove_char [])
        chars t
  | _ => t
  end = strip remove_chars t.
Proof. destruct remove_chars as [[|r l]|]; reflexivity. Qed.

(** C5.  [fix_encoding] on a regular file never fails on the bytes it
    reads: what [read_as] cannot decode is dropped.  The text, with
    every listed string taken out by [str.replace] in the order of the
    list, is written back to the same path in [write_as] when
    [write_as] can express it; no other path changes, and a character
    listed on its own occurs nowhere in the result. *)
Theorem fix_encoding_in_place (file_path : string) (read_as write_as : codec)
  (remove_chars : option (list text)) (fs : node) (bs bs' : list byte) :
  stat file_path fs = inr (File bs) ->
  encode write_as
    (strip remove_chars (universal_newlines (decode_ignore read_as bs)))
  = Some bs' ->
  exists fs' cp,
    fix_encoding file_path read_as write_as remove_chars fs = (Ok tt, fs')
    /\ stat file_path fs' = inr (File bs')
    /\ namei file_path fs = inr cp
    /\ (forall q, q <> cp -> kind_at q fs' = kind_at q fs)
    /\ (forall chars c,
          remove_chars = Some chars -> In [c] chars ->
          ~ In c (strip remove_chars
                    (universal_newlines (decode_ignore read_as bs)))).
Proof.
  intros Hst He.
  assert (Hf : isfile file_path fs = true).
  { unfold isfile. now rewrite Hst. }
  destruct (isfile_inv file_path fs Hf) as (cp & d & Hn & Hl).
  assert (d = bs).
  { unfold stat in Hst. rewrite Hn, Hl in Hst. congruence. }
  subst d.
  assert (Hleaf : is_dir_node (lookup cp fs) = false) by now rewrite Hl.
  destruct (write_whole_file write_as file_path _ fs cp bs' Hn Hleaf He)
    as (fs' & Hwr & Hn' & Hk).
  exists fs', cp. split; [|split; [|split; [|split]]].
  - unfold fix_encoding.
    pose proof (read_whole_file read_as true file_path fs cp bs Hn Hl) as Hr.
    unfold bind in Hr. unfold bind at 1.
    destruct (open_r file_path fs) as [[h|e] fs1].
    + unfold bind at 1. rewrite Hr. rewrite fix_encoding_strip. exact Hwr.
    + discriminate.
  - apply (stat_of_kind_file file_path fs' cp bs' Hn').
    now rewrite Hk, path_eqb_refl.
  - exact Hn.
  - intros q Hq. rewrite Hk.
    destruct (path_eqb cp q) eqn:E; auto.
    apply path_eqb_eq in E. congruence.
  - intros chars c -> Hin. now apply strip_char.
Qed.

Lemma fix_encoding_in_place_witness :
  exists fs' cp,
    fix_encoding "/notes.txt" Codec.utf8 Codec.utf8 (Some [[0%Z]]) tree_cafe
    = (Ok tt, fs')
    /\ stat "/notes.txt" fs'
       = inr (File [x63; x61; x66; xc3; xa9; x62; x72; x6f; x6b; x65; x6e])
    /\ namei "/notes.txt" tree_cafe = inr cp
    /\ (forall q, q <> cp -> kind_at q fs' = kind_at q tree_cafe)
    /\ (forall chars c,
          Some [[0%Z]] = Some chars -> In [c] chars ->
          ~ In c (strip (Some [[0%Z]])
                    (universal_newlines
                       (decode_ignore Codec.utf8
                          [x63; x61; x66; xc3; xa9; x00;
                           x62; x72; x6f; x6b; x65; x6e])))).
Proof.
  apply (fix_encoding_in_place "/notes.txt" Codec.utf8 Codec.utf8
           (Some [[0%Z]]) tree_cafe).
  - reflexivity.
  - reflexivity.
Defined.

(** The scenario of the specification, and a file with a byte that is
    no UTF-8, run. *)
Example fix_encoding_cafe :
  fix_encoding "/notes.txt" Codec.utf8 Codec.utf8 (Some [[0%Z]]) tree_cafe
  = (Ok tt,
     Dir [("notes.txt",
           File [x63; x61; x66; xc3; xa9; x62; x72; x6f; x6b; x65; x6e])]).
Proof. reflexivity. Qed.

Example fix_encoding_bad_byte :
  fix_encoding "/notes.txt" Codec.utf8 Codec.utf8 None tree_bad_byte
  = (Ok tt, Dir [("notes.txt", File [x63; x61])])
  /\ fst (read_file Codec.utf8 "/notes.txt" tree_bad_byte)
     = Raise UnicodeDecodeError.
Proof. split; reflexivity. Qed.

(** ** Flattening *)

Module FlattenFacts.
Import FS OS Files FSFacts PathFacts ResolveFacts KindFacts OSFacts.
Import ListingFacts WalkFacts.

Lemma NoDup_map_inj {A B} (f : A -> B) (l : list A) :
  (forall x y, f x = f y -> x = y) -> NoDup l -> NoDup (map f l).
Proof.
  intros Hinj H. induction H as [|x l Hx Hl IH]; simpl; constructor; auto.
  intros Hin. apply in_map_iff in Hin as [y [Hy Hin]].
  apply Hinj in Hy. now subst y.
Qed.

(** The paths of [files_below] are not empty and made of valid
    names. *)
Lemma files_below_valid n :
  wf n = true ->
  forall rel d, In (rel, d) (files_below n) ->
    rel <> [] /\ Forall (fun k => Path.valid_name k = true) rel.
Proof.
  induction n as [dt|es IH] using node_ind; intros Hwf rel d Hin.
  - destruct Hin.
  - apply wf_dir_inv in Hwf as (Hv & _ & Hall).
    rewrite files_below_dir in Hin. apply in_app_or in Hin as [Hin|Hin].
    + apply in_map_iff in Hin as [[name d'] [Heq Hin]].
      injection Heq as <- <-.
      apply in_flat_map in Hin as [[k v] [Hin Hv']].
      destruct v as [d''|l]; simpl in Hv'; [|destruct Hv'].
      destruct Hv' as [Heq|[]]. injection Heq as <- <-.
      split; [discriminate|]. constructor; [|constructor].
      apply (proj1 (Forall_forall _ _) Hv). apply in_map_iff.
      now exists (k, File d'').
    + apply in_flat_map in Hin as [[k v] [Hin Hv']].
      apply in_map_iff in Hv' as [[rel' d'] [Heq Hv']].
      simpl in Heq. injection Heq as <- <-.
      split; [discriminate|]. constructor.
      * apply (proj1 (Forall_forall _ _) Hv). apply in_map_iff.
        now exists (k, v).
      * apply (proj1 (Forall_forall _ _) IH (k, v) Hin
                 (proj1 (Forall_forall _ _) Hall (k, v) Hin) rel' d' Hv').
Qed.

Lemma NoDup_filenames es : NoDup (names es) -> NoDup (filenames es).
Proof.
  induction es as [|[k v] es IH]; intros H; [constructor|].
  inversion H as [|? ? Hk Hes]; subst.
  unfold filenames. cbn [flat_map fst snd].
  destruct v as [d|l]; cbn [app].
  - constructor; [|now apply IH].
    intros Hin. apply Hk. apply in_filenames in Hin as [d' Hin].
    apply in_map_iff. now exists (k, File d').
  - now apply IH.
Qed.

Lemma files_part_paths es :
  map fst
    (map (fun name_data : string * list byte =>
            ([fst name_data], snd name_data))
       (flat_map (fun e => match snd e with
                           | File d => [(fst e, d)]
                           | Dir _ => []
                           end) es))
  = map (fun k => [k]) (filenames es).
Proof.
  unfold filenames. induction es as [|[k [d|l]] es IHes];
    cbn [flat_map fst snd map app]; [reflexivity| |]; now rewrite IHes.
Qed.

(** No two files of [files_below] have the same path. *)
Lemma files_below_nodup n :
  wf n = true -> NoDup (map fst (files_below n)).
Proof.
  induction n as [dt|es IH] using node_ind; intros Hwf; [constructor|].
  pose proof Hwf as Hwf'.
  apply wf_dir_inv in Hwf as (Hv & Hnd & Hall).
  apply nodupb_NoDup in Hnd.
  rewrite files_below_dir, map_app. apply NoDup_app.
  - rewrite files_part_paths.
    apply NoDup_map_inj; [|now apply NoDup_filenames].
    intros x y H. now injection H.
  - clear Hwf' Hv. induction es as [|[k v] es IHes]; [constructor|].
    inversion Hnd as [|? ? Hk Hes]; subst.
    inversion IH as [|? ? IHv IHrest]; subst.
    inversion Hall as [|? ? Hwv Hwrest]; subst.
    cbn [flat_map fst snd]. rewrite map_app. apply NoDup_app.
    + rewrite map_map. cbn [fst].
      rewrite <- (map_map fst (fun r => k :: r)).
      apply NoDup_map_inj; [|now apply IHv].
      intros x y H. now injection H.
    + now apply IHes.
    + intros a Ha Hb.
      apply in_map_iff in Ha as [[r d] [<- Ha]].
      apply in_map_iff in Ha as [[r' d'] [Heq Ha]].
      injection Heq as <- <-.
      apply in_map_iff in Hb as [[r2 d2] [Heq Hb]]. cbn [fst] in Heq.
      apply in_flat_map in Hb as [[k2 v2] [Hin2 Hb]].
      apply in_map_iff in Hb as [[r3 d3] [Heq3 Hb]].
      injection Heq3 as <- <-. cbn [fst] in Heq. injection Heq as -> _.
      apply Hk. apply in_map_iff. now exists (k, v2).
  - intros a Ha Hb.
    apply in_map_iff in Ha as [[r d] [<- Ha]].
    apply in_map_iff in Ha as [[name d'] [Heq Ha]].
    injection Heq as <- <-.
    apply in_map_iff in Hb as [[r2 d2] [Heq Hb]]. cbn [fst] in Heq.
    apply in_flat_map in Hb as [[k2 v2] [Hin2 Hb]].
    apply in_map_iff in Hb as [[r3 d3] [Heq3 Hb]].
    injection Heq3 as <- <-. cbn [fst] in Heq. injection Heq as _ ->.
    assert (Hw2 : wf v2 = true)
      by exact (proj1 (Forall_forall _ _) Hall (k2, v2) Hin2).
    destruct (files_below_valid v2 Hw2 [] d3 Hb) as [Hne _].
    now apply Hne.
Qed.

Lemma path_eqb_neq p q : p <> q -> path_eqb p q = false.
Proof.
  intros H. destruct (path_eqb p q) eqn:E; auto.
  apply path_eqb_eq in E. contradiction.
Qed.

Section Replay.
(** [files] are the files below the root in the order of the walk;
    [movable] are those among them that find their name free at the
    destination. *)
Variables (cp ct : path) (fs0 : node) (files movable : list below).
Hypothesis movable_listed : incl movable files.
Hypothesis sources_are_files :
  forall f, In f files -> kind_at (source cp f) fs0 = Some (KFile (snd f)).
Hypothesis targets_are_free :
  forall f, In f movable -> kind_at (target ct f) fs0 = None.
Hypothesis paths_differ : NoDup (map fst files).
Hypothesis paths_not_empty : forall f, In f files -> fst f <> [].

Lemma flattened_snoc pre g :
  flattened cp ct fs0 (pre ++ [g]) = relocate cp ct g (flattened cp ct fs0 pre).
Proof. unfold flattened. now rewrite fold_left_app. Qed.

Lemma source_not_target f g :
  In f files -> In g movable -> source cp f <> target ct g.
Proof.
  intros Hf Hg E. pose proof (sources_are_files f Hf) as H1.
  rewrite E, (targets_are_free g Hg) in H1. discriminate.
Qed.

Lemma target_inj f g : target ct f = target ct g -> basename_of f = basename_of g.
Proof.
  unfold target. intros H. apply app_inv_head in H. now injection H.
Qed.

Lemma source_inj f g : source cp f = source cp g -> fst f = fst g.
Proof. unfold source. apply app_inv_head. Qed.

(** A file that lies where [m] is to go has the name of [m]. *)
Lemma source_at_target f m :
  In f files -> source cp f = target ct m -> basename_of f = basename_of m.
Proof.
  intros Hf E. unfold source, target, basename_of in *.
  destruct (exists_last (paths_not_empty f Hf)) as (r & k & Hr).
  rewrite Hr in *. rewrite last_last.
  apply (f_equal (fun l => last l "")) in E.
  now rewrite app_assoc, !last_last in E.
Qed.

(** A path no move touches denotes what it did. *)
Lemma flattened_frame pre q :
  (forall f, In f pre -> q <> source cp f /\ q <> target ct f) ->
  flattened cp ct fs0 pre q = kind_at q fs0.
Proof.
  induction pre as [|g pre IH] using rev_ind; intros H; [reflexivity|].
  rewrite flattened_snoc. unfold relocate.
  destruct (H g) as [H1 H2]; [apply in_or_app; right; now left|].
  rewrite (path_eqb_neq (target ct g) q) by congruence.
  rewrite (path_eqb_neq (source cp g) q) by congruence.
  apply IH. intros f Hf. apply H. apply in_or_app. now left.
Qed.

Lemma flattened_dir pre q :
  incl pre movable -> kind_at q fs0 = Some KDir ->
  flattened cp ct fs0 pre q = Some KDir.
Proof.
  intros Hincl Hq. rewrite flattened_frame; auto.
  intros f Hf. split; intros ->.
  - rewrite (sources_are_files f (movable_listed f (Hincl f Hf))) in Hq.
    discriminate.
  - rewrite (targets_are_free f (Hincl f Hf)) in Hq. discriminate.
Qed.

(** A moved file is at its target. *)
Lemma flattened_target pre f :
  incl pre movable -> NoDup (map basename_of pre) -> In f pre ->
  flattened cp ct fs0 pre (target ct f) = Some (KFile (snd f)).
Proof.
  induction pre as [|g pre IH] using rev_ind; intros Hincl Hnd Hin;
    [destruct Hin|].
  rewrite flattened_snoc. unfold relocate.
  rewrite map_app in Hnd. cbn [map] in Hnd.
  assert (Hg : ~ In (basename_of g) (map basename_of pre)).
  { apply NoDup_remove_2 in Hnd. now rewrite app_nil_r in Hnd. }
  assert (Hnd' : NoDup (map basename_of pre)).
  { apply NoDup_remove_1 in Hnd. now rewrite app_nil_r in Hnd. }
  assert (Hincl' : incl pre movable).
  { intros x Hx. apply Hincl. apply in_or_app. now left. }
  assert (Hgm : In g movable).
  { apply Hincl, in_or_app. right. now left. }
  apply in_app_or in Hin as [Hin|[<-|[]]].
  - assert (Hne : target ct g <> target ct f).
    { intros E. apply target_inj in E. apply Hg. rewrite E.
      now apply in_map. }
    rewrite (path_eqb_neq _ _ Hne).
    rewrite (path_eqb_neq (source cp g) (target ct f)).
    + now apply IH.
    + apply source_not_target; auto.
  - now rewrite path_eqb_refl.
Qed.

(** A moved file is no longer at its source. *)
Lemma flattened_source pre f :
  incl pre movable -> In f pre ->
  flattened cp ct fs0 pre (source cp f) = None.
Proof.
  induction pre as [|g pre IH] using rev_ind; intros Hincl Hin;
    [destruct Hin|].
  rewrite flattened_snoc. unfold relocate.
  assert (Hf : In f files) by (apply movable_listed, Hincl; exact Hin).
  assert (Hgm : In g movable) by (apply Hincl, in_or_app; right; now left).
  rewrite (path_eqb_neq (target ct g) (source cp f)).
  2:{ intros E. now apply (source_not_target f g Hf Hgm). }
  destruct (path_eqb (source cp g) (source cp f)) eqn:E; [reflexivity|].
  apply in_app_or in Hin as [Hin|[<-|[]]].
  - apply IH; auto. intros x Hx. apply Hincl, in_or_app. now left.
  - now rewrite path_eqb_refl in E.
Qed.

(** A name taken by a moved file is a file at the destination. *)
Lemma flattened_taken pre m :
  incl pre movable -> In (basename_of m) (map basename_of pre) ->
  exists d, flattened cp ct fs0 pre (target ct m) = Some (KFile d).
Proof.
  induction pre as [|g pre IH] using rev_ind; intros Hincl Hin;
    [destruct Hin|].
  rewrite flattened_snoc. unfold relocate.
  destruct (path_eqb (target ct g) (target ct m)) eqn:E; [now eexists|].
  assert (Hgf : In g files).
  { apply movable_listed, Hincl, in_or_app. right. now left. }
  rewrite map_app in Hin. apply in_app_or in Hin as [Hin|[Hg|[]]].
  - destruct (path_eqb (source cp g) (target ct m)) eqn:E'.
    + apply path_eqb_eq in E'.
      apply in_map_iff in Hin as [f [Hb Hf]].
      assert (Hfm : In f movable) by (apply Hincl, in_or_app; now left).
      exfalso. apply (source_not_target g f Hgf Hfm).
      rewrite E'. unfold target. now rewrite Hb.
    + apply IH; auto. intros x Hx. apply Hincl, in_or_app. now left.
  - unfold target in E. rewrite Hg, path_eqb_refl in E. discriminate.
Qed.

(** A name taken by a regular file that was at the destination
    before is still taken by it. *)
Lemma flattened_occupied pre m d :
  incl pre movable -> kind_at (target ct m) fs0 = Some (KFile d) ->
  flattened cp ct fs0 pre (target ct m) = Some (KFile d).
Proof.
  intros Hincl Hm. rewrite flattened_frame; [exact Hm|].
  intros f Hf. pose proof (targets_are_free f (Hincl f Hf)) as Hfree.
  split; intros E.
  - symmetry in E.
    apply source_at_target in E; [|apply movable_listed, Hincl, Hf].
    unfold target in Hfree, Hm. rewrite E, Hm in Hfree. discriminate.
  - rewrite E, Hfree in Hm. discriminate.
Qed.

(** A name no moved file has is free at the destination. *)
Lemma flattened_free pre m :
  incl pre movable -> In m movable ->
  ~ In (basename_of m) (map basename_of pre) ->
  flattened cp ct fs0 pre (target ct m) = None.
Proof.
  intros Hincl Hm Hb. rewrite flattened_frame.
  - now apply targets_are_free.
  - intros f Hf. split.
    + intros E. symmetry in E. revert E.
      apply source_not_target; auto.
    + intros E. apply target_inj in E. apply Hb. rewrite E.
      now apply in_map.
Qed.

(** A file not yet moved is still at its source. *)
Lemma flattened_pending pre rest m :
  files = pre ++ rest -> incl pre movable -> In m rest ->
  flattened cp ct fs0 pre (source cp m) = Some (KFile (snd m)).
Proof.
  intros Hsplit Hincl Hm.
  assert (Hmf : In m files) by (rewrite Hsplit; apply in_or_app; now right).
  rewrite flattened_frame; [now apply sources_are_files|].
  intros f Hf. split.
  - intros E. apply source_inj in E.
    rewrite Hsplit, map_app in paths_differ.
    apply in_split in Hm as (r1 & r2 & ->).
    rewrite map_app in paths_differ. cbn [map] in paths_differ.
    rewrite app_assoc in paths_differ.
    apply NoDup_remove_2 in paths_differ. apply paths_differ.
    apply in_or_app. left. apply in_or_app. left.
    rewrite E. now apply in_map.
  - apply source_not_target; auto.
Qed.

End Replay.

End FlattenFacts.

Module MoveFacts.
Import FS OS Files FSFacts PathFacts ResolveFacts KindFacts OSFacts.
Import ListingFacts WalkFacts FlattenFacts.

Lemma move_all_files_from_root_loop root_folder to_folder :
  move_all_files_from_root root_folder to_folder
  = bind (list_dir_tree root_folder)
      (fun file_paths => for_each file_paths (flatten_step to_folder)).
Proof. reflexivity. Qed.

Lemma kind_none_lookup q fs : kind_at q fs = None -> lookup q fs = None.
Proof.
  unfold kind_at. destruct (lookup q fs) as [[?|?]|]; simpl; congruence.
Qed.

Lemma kind_dir_lookup q fs :
  kind_at q fs = Some KDir -> is_dir_node (lookup q fs) = true.
Proof.
  unfold kind_at. destruct (lookup q fs) as [[?|?]|]; simpl; congruence.
Qed.

(** [os.rename] of a regular file to a free name in an existing
    directory. *)
Lemma rename_file_to_free src dst fs s t b d :
  namei src fs = inr s -> lookup s fs = Some (File d) ->
  namei dst fs = inr (t ++ [b]) -> lookup (t ++ [b]) fs = None ->
  is_dir_node (lookup t fs) = true ->
  exists fs',
    rename src dst fs = (Ok tt, fs')
    /\ forall q, kind_at q fs' =
                 if path_eqb (t ++ [b]) q then Some (KFile d)
                 else if path_eqb s q then None
                 else kind_at q fs.
Proof.
  intros Hs Hls Hd Hld Ht.
  assert (Hleaf : is_dir_node (lookup s fs) = false) by now rewrite Hls.
  destruct (store_ok s None fs (namei_anchored src fs s Hs)
              (namei_leaf_not_root src fs s Hs Hleaf)) as (fsa & _ & Hseta).
  assert (Hta : is_dir_node (lookup t fsa) = true).
  { now rewrite (dirs_set_at_leaf s None fs fsa Hseta eq_refl Hleaf t). }
  destruct (set_at_some t b (Some (File d)) fsa Hta) as [fs' Hset'].
  assert (Hne : path_eqb s (t ++ [b]) = false).
  { apply path_eqb_neq. intros E. rewrite E, Hld in Hls. discriminate. }
  assert (Hka : forall q, kind_at q fsa =
                          if path_eqb s q then None else kind_at q fs).
  { intros q. apply (kind_set_at_leaf s None fs fsa Hseta eq_refl Hleaf). }
  assert (Hlda : is_dir_node (lookup (t ++ [b]) fsa) = false).
  { pose proof (Hka (t ++ [b])) as K. rewrite Hne in K.
    unfold kind_at in K. rewrite Hld in K.
    destruct (lookup (t ++ [b]) fsa) as [[?|?]|]; simpl in *; congruence. }
  exists fs'. split.
  - unfold rename. rewrite Hs, Hd, Hls, Hne, Hld. cbn [is_dir_node andb].
    unfold relink. now rewrite Hseta, Hset'.
  - intros q.
    rewrite (kind_set_at_leaf (t ++ [b]) (Some (File d)) fsa fs' Hset'
               eq_refl Hlda q).
    now rewrite Hka.
Qed.

(** One turn of the loop on a file whose name is free at the
    destination. *)
Lemma flatten_step_moves to_folder fp fs s t b d :
  namei fp fs = inr s -> lookup s fs = Some (File d) ->
  snd (Path.split fp) = b ->
  namei (Path.join to_folder b) fs = inr (t ++ [b]) ->
  lookup (t ++ [b]) fs = None ->
  is_dir_node (lookup t fs) = true ->
  exists fs',
    flatten_step to_folder fp fs = (Ok tt, fs')
    /\ forall q, kind_at q fs' =
                 if path_eqb (t ++ [b]) q then Some (KFile d)
                 else if path_eqb s q then None
                 else kind_at q fs.
Proof.
  intros Hs Hls Hb Hd Hld Ht.
  destruct (rename_file_to_free fp (Path.join to_folder b) fs s t b d
              Hs Hls Hd Hld Ht) as (fs' & Hr & Hk).
  exists fs'. split; [|exact Hk].
  unfold flatten_step, bind at 1, query at 1.
  rewrite (isfile_intro fp fs s d Hs Hls).
  destruct (Path.split fp) as [head tail]. cbn [snd] in Hb. subst tail.
  unfold move_file, bind at 1, query at 1.
  assert (Hnf : isfile (Path.join to_folder b) fs = false).
  { unfold isfile, stat. now rewrite Hd, Hld. }
  assert (Hnd : isdir (Path.join to_folder b) fs = false).
  { unfold isdir, stat. now rewrite Hd, Hld. }
  rewrite Hnf. unfold shutil_move, bind at 1, query at 1. rewrite Hnd.
  unfold try_except_OSError. now rewrite Hr.
Qed.

(** One turn of the loop on a file whose name is taken by a regular
    file at the destination. *)
Lemma flatten_step_collides to_folder fp fs s t b d d' :
  namei fp fs = inr s -> lookup s fs = Some (File d) ->
  snd (Path.split fp) = b ->
  namei (Path.join to_folder b) fs = inr (t ++ [b]) ->
  lookup (t ++ [b]) fs = Some (File d') ->
  flatten_step to_folder fp fs = (Raise already_exists, fs).
Proof.
  intros Hs Hls Hb Hd Hld.
  unfold flatten_step, bind at 1, query at 1.
  rewrite (isfile_intro fp fs s d Hs Hls).
  destruct (Path.split fp) as [head tail]. cbn [snd] in Hb. subst tail.
  unfold move_file, bind, query.
  now rewrite (isfile_intro _ fs (t ++ [b]) d' Hd Hld).
Qed.

Lemma joined_snoc root rel k :
  joined root (rel ++ [k]) = Path.join (joined root rel) k.
Proof. unfold joined. now rewrite fold_left_app. Qed.

Lemma joined_not_empty root rel :
  root <> "" -> Forall (fun k => Path.valid_name k = true) rel ->
  joined root rel <> "".
Proof.
  intros Hr. induction rel as [|k rel IH] using rev_ind; intros Hv;
    [exact Hr|].
  rewrite joined_snoc. apply Forall_app in Hv as [_ Hk].
  inversion Hk as [|? ? Hkv _]; subst.
  destruct (valid_name_inv k Hkv) as (Hne & Hs & _).
  now apply join_not_empty.
Qed.

(** The name [os.path.split] finds at the end of a listed path is the
    last name of the file's path. *)
Lemma listed_path_tail root f :
  root <> "" -> fst f <> [] ->
  Forall (fun k => Path.valid_name k = true) (fst f) ->
  snd (Path.split (listed_path root f)) = basename_of f
  /\ Path.valid_name (basename_of f) = true.
Proof.
  unfold listed_path, basename_of. destruct f as [rel d]. cbn [fst].
  intros Hr Hne Hv.
  destruct (exists_last Hne) as (rel' & k & ->).
  rewrite last_last, joined_snoc.
  apply Forall_app in Hv as [Hv' Hk].
  inversion Hk as [|? ? Hkv _]; subst.
  destruct (valid_name_inv k Hkv) as (_ & Hs & _).
  split; [|exact Hkv].
  apply split_join_tail; auto. now apply joined_not_empty.
Qed.

Lemma nodupb_iff l : nodupb l = true <-> NoDup l.
Proof.
  split; [apply nodupb_NoDup|].
  induction 1 as [|x l Hx Hl IH]; [reflexivity|].
  cbn [nodupb]. rewrite IH, andb_true_r. apply negb_true_iff.
  destruct (existsb (String.eqb x) l) eqn:E; auto.
  apply existsb_exists in E as [y [Hy E]]. apply String.eqb_eq in E.
  now subst y.
Qed.

Section Loop.
Variables (root_folder to_folder : string) (cp ct : path) (fs0 : node).
Variables files movable : list below.
Hypothesis movable_listed : incl movable files.
Hypothesis to_resolves : namei to_folder fs0 = inr ct.
Hypothesis to_is_dir : kind_at ct fs0 = Some KDir.
Hypothesis sources_are_files :
  forall f, In f files -> kind_at (source cp f) fs0 = Some (KFile (snd f)).
Hypothesis targets_are_free :
  forall f, In f movable -> kind_at (target ct f) fs0 = None.
Hypothesis paths_differ : NoDup (map fst files).
Hypothesis paths_not_empty : forall f, In f files -> fst f <> [].
Hypothesis listed_resolve :
  forall f, In f files ->
    namei (listed_path root_folder f) fs0 = inr (source cp f).
Hypothesis listed_tail :
  forall f, In f files ->
    snd (Path.split (listed_path root_folder f)) = basename_of f
    /\ Path.valid_name (basename_of f) = true.

Lemma moved_dirs pre fs1 :
  incl pre movable -> moved cp ct fs0 pre fs1 ->
  forall q, is_dir_node (lookup q fs0) = true ->
            is_dir_node (lookup q fs1) = true.
Proof.
  intros Hincl Hm q Hq. apply kind_dir_lookup. rewrite Hm.
  eapply flattened_dir with (files := files) (movable := movable); eauto.
  now apply kind_of_dir.
Qed.

Lemma target_resolves pre fs1 f :
  incl pre movable -> moved cp ct fs0 pre fs1 -> In f files ->
  namei (Path.join to_folder (basename_of f)) fs1 = inr (target ct f).
Proof.
  intros Hincl Hm Hf.
  apply (namei_ext fs0 fs1); [now apply (moved_dirs pre)|].
  destruct (listed_tail f Hf) as [_ Hv].
  unfold target. rewrite <- (step_valid ct _ Hv).
  destruct (valid_name_inv _ Hv) as (Hne & Hs & _).
  apply namei_join; auto. now apply kind_dir_lookup.
Qed.

(** The loop over the files of [pre], whose names differ and are free
    at the destination, moves them all. *)
Lemma flatten_prefix pre :
  forall rest, files = pre ++ rest -> incl pre movable ->
  NoDup (map basename_of pre) ->
  exists fs1,
    (forall l, for_each (map (listed_path root_folder) pre ++ l)
                 (flatten_step to_folder) fs0
               = for_each l (flatten_step to_folder) fs1)
    /\ moved cp ct fs0 pre fs1.
Proof.
  induction pre as [|g pre IH] using rev_ind; intros rest Hsplit Hmov Hnd.
  - exists fs0. split; [reflexivity | intros q; reflexivity].
  - rewrite <- app_assoc in Hsplit. cbn [app] in Hsplit.
    rewrite map_app in Hnd. cbn [map] in Hnd.
    assert (Hg : ~ In (basename_of g) (map basename_of pre)).
    { apply NoDup_remove_2 in Hnd. now rewrite app_nil_r in Hnd. }
    assert (Hnd' : NoDup (map basename_of pre)).
    { apply NoDup_remove_1 in Hnd. now rewrite app_nil_r in Hnd. }
    assert (Hincl : incl pre movable).
    { intros x Hx. apply Hmov, in_or_app. now left. }
    assert (Hgm : In g movable).
    { apply Hmov, in_or_app. right. now left. }
    assert (Hgf : In g files) by now apply movable_listed.
    destruct (IH (g :: rest) Hsplit Hincl Hnd') as (fs1 & Hrun & Hm).
    destruct (flatten_step_moves to_folder (listed_path root_folder g) fs1
                (source cp g) ct (basename_of g) (snd g)) as (fs2 & Hstep & Hk).
    + apply (namei_ext fs0 fs1); [now apply (moved_dirs pre)|].
      now apply listed_resolve.
    + apply lookup_of_kind_file. rewrite Hm.
      eapply flattened_pending
        with (files := files) (movable := movable) (rest := g :: rest);
        eauto using in_eq.
    + apply (listed_tail g Hgf).
    + now apply (target_resolves pre).
    + apply kind_none_lookup. rewrite Hm.
      eapply flattened_free with (files := files) (movable := movable); eauto.
    + apply kind_dir_lookup. rewrite Hm.
      eapply flattened_dir with (files := files) (movable := movable); eauto.
    + exists fs2. split.
      * intros l. rewrite map_app, <- app_assoc. cbn [map app].
        rewrite Hrun. cbn [for_each].
        now rewrite (bind_ok _ _ fs1 tt fs2 Hstep).
      * intros q. rewrite Hk, flattened_snoc. unfold relocate.
        now rewrite <- Hm.
Qed.

(** The move after them stops the loop when its name is taken, by one
    of them or by a regular file that was at the destination. *)
Lemma flatten_collision pre m rest fs1 l :
  files = pre ++ m :: rest -> incl pre movable ->
  moved cp ct fs0 pre fs1 ->
  In (basename_of m) (map basename_of pre)
  \/ (exists d, kind_at (target ct m) fs0 = Some (KFile d)) ->
  for_each (listed_path root_folder m :: l) (flatten_step to_folder) fs1
  = (Raise already_exists, fs1).
Proof.
  intros Hsplit Hincl Hm Hin.
  assert (Hmf : In m files).
  { rewrite Hsplit. apply in_or_app. right. now left. }
  assert (Htaken : exists d', flattened cp ct fs0 pre (target ct m)
                              = Some (KFile d')).
  { destruct Hin as [Hin|[d Hd]].
    - eapply flattened_taken with (files := files) (movable := movable); eauto.
    - exists d.
      eapply flattened_occupied with (files := files) (movable := movable);
        eauto. }
  destruct Htaken as [d' Hd'].
  cbn [for_each]. apply bind_raise.
  apply (flatten_step_collides to_folder _ fs1 (source cp m) ct
           (basename_of m) (snd m) d').
  - apply (namei_ext fs0 fs1); [now apply (moved_dirs pre)|].
    now apply listed_resolve.
  - apply lookup_of_kind_file. rewrite Hm.
    eapply flattened_pending
      with (files := files) (movable := movable) (rest := m :: rest);
      eauto using in_eq.
  - apply (listed_tail m Hmf).
  - now apply (target_resolves pre).
  - apply lookup_of_kind_file. now rewrite Hm.
Qed.

End Loop.

End MoveFacts.

(** ** Moving a tree into one folder *)

Import FlattenFacts MoveFacts.

Lemma stops_after_inv et pre rest :
  stops_after et pre rest = true ->
  NoDup (map basename_of pre)
  /\ (forall f, In f pre -> assoc (basename_of f) et = None)
  /\ match rest with
     | [] => True
     | m :: _ =>
         In (basename_of m) (map basename_of pre)
         \/ exists d, assoc (basename_of m) et = Some (File d)
     end.
Proof.
  unfold stops_after. intros H. apply andb_true_iff in H as [H H3].
  apply andb_true_iff in H as [H1 H2].
  split; [now apply nodupb_NoDup|]. split.
  - intros f Hf. rewrite forallb_forall in H2. specialize (H2 f Hf).
    unfold name_free in H2.
    destruct (assoc (basename_of f) et); [discriminate | reflexivity].
  - destruct rest as [|m rest]; auto.
    apply orb_true_iff in H3 as [H3|H3].
    + left. apply existsb_exists in H3 as [x [Hx E]].
      apply String.eqb_eq in E. now subst x.
    + right. destruct (assoc (basename_of m) et) as [[d|l]|];
        try discriminate. now exists d.
Qed.

(** With [to_folder] a directory: the loop moves the files below
    [root_folder], at every depth, in the order of the walk, each to
    [to_folder] under its own last name, as long as the names differ
    and are the names of no entry of [to_folder].  When that holds for
    all of them the call returns: every file is at the destination and
    gone from where it was.  When a file has the name of one moved
    before it, or of a regular file of [to_folder], the guard of
    [move_file] raises: the files before it stay moved, it and the
    files after it stay where they were.  In both cases every directory
    is still a directory and no other path changes. *)
Lemma flatten_until_stop (root_folder to_folder : string)
  (fs : node) (es et : list (string * node)) (pre rest : list below) :
  wf_fs fs = true ->
  stat root_folder fs = inr (Dir es) ->
  stat to_folder fs = inr (Dir et) ->
  files_below (Dir es) = pre ++ rest ->
  stops_after et pre rest = true ->
  exists fs' cp ct,
    namei root_folder fs = inr cp /\ namei to_folder fs = inr ct
    /\ move_all_files_from_root root_folder to_folder fs
       = (match rest with
          | [] => Ok tt
          | _ :: _ => Raise already_exists
          end, fs')
    /\ (forall f, In f pre ->
          kind_at (target ct f) fs' = Some (KFile (snd f))
          /\ kind_at (source cp f) fs' = None)
    /\ (forall f, In f rest ->
          kind_at (source cp f) fs' = Some (KFile (snd f)))
    /\ (forall q, kind_at q fs = Some KDir -> kind_at q fs' = Some KDir)
    /\ (forall q,
          (forall f, In f pre -> q <> source cp f /\ q <> target ct f) ->
          kind_at q fs' = kind_at q fs).
Proof.
  intros Hwf Hroot Hto Hsplit Hstop.
  destruct (stat_dir_inv root_folder fs es Hroot) as (cp & Hncp & Hlcp).
  destruct (stat_dir_inv to_folder fs et Hto) as (ct & Hnct & Hlct).
  destruct (stops_after_inv et pre rest Hstop) as (Hnd & Hfree & Hrest).
  set (files := files_below (Dir es)) in *.
  assert (Hwfd : wf (Dir es) = true).
  { apply (wf_lookup cp fs); auto. now apply wf_fs_wf. }
  assert (Hrne : root_folder <> "").
  { intros ->. discriminate. }
  assert (Hincl : incl pre files).
  { intros x Hx. rewrite Hsplit. apply in_or_app. now left. }
  assert (Hsrc : forall f, In f files ->
            kind_at (source cp f) fs = Some (KFile (snd f))).
  { intros [rel d] Hf. unfold source, kind_at. cbn [fst snd].
    destruct (files_below_resolve fs Hwf (Dir es) root_folder cp Hncp Hlcp
                rel d Hf) as [_ H].
    now rewrite H. }
  assert (Hat : forall f, kind_at (target ct f) fs
                          = kind_of (assoc (basename_of f) et)).
  { intros f. unfold target, kind_at. rewrite lookup_app, Hlct.
    cbn [lookup]. now destruct (assoc (basename_of f) et). }
  assert (Htgt : forall f, In f pre -> kind_at (target ct f) fs = None).
  { intros f Hf. now rewrite Hat, (Hfree f Hf). }
  assert (Hpaths : NoDup (map fst files)) by now apply files_below_nodup.
  assert (Hnonempty : forall f, In f files -> fst f <> []).
  { intros [rel d] Hf.
    apply (files_below_valid (Dir es) Hwfd rel d Hf). }
  assert (Hres : forall f, In f files ->
            namei (listed_path root_folder f) fs = inr (source cp f)).
  { intros [rel d] Hf.
    apply (files_below_resolve fs Hwf (Dir es) root_folder cp Hncp Hlcp
             rel d Hf). }
  assert (Htail : forall f, In f files ->
            snd (Path.split (listed_path root_folder f)) = basename_of f
            /\ Path.valid_name (basename_of f) = true).
  { intros [rel d] Hf.
    destruct (files_below_valid (Dir es) Hwfd rel d Hf) as [Hne Hv].
    now apply listed_path_tail. }
  assert (Hctd : kind_at ct fs = Some KDir).
  { unfold kind_at. now rewrite Hlct. }
  assert (Hpre : exists fs1,
            (forall l, for_each (map (listed_path root_folder) pre ++ l)
                         (flatten_step to_folder) fs
                       = for_each l (flatten_step to_folder) fs1)
            /\ moved cp ct fs pre fs1).
  { eapply flatten_prefix with (files := files) (movable := pre)
      (rest := rest); eauto using incl_refl. }
  destruct Hpre as (fs1 & Hrun & Hm).
  exists fs1, cp, ct.
  split; [exact Hncp|]. split; [exact Hnct|].
  split; [|split; [|split; [|split]]].
  - rewrite move_all_files_from_root_loop.
    rewrite (bind_ok _ _ fs (tree_paths root_folder (Dir es)) fs).
    2:{ rewrite list_dir_tree_listed. unfold walk. rewrite Hroot.
        now rewrite (listed_walk fs Hwf (Dir es) root_folder cp Hncp Hlcp). }
    change (tree_paths root_folder (Dir es))
      with (map (listed_path root_folder) files).
    rewrite Hsplit, map_app, Hrun.
    destruct rest as [|m rest']; [reflexivity|].
    cbn [map].
    eapply flatten_collision with (files := files) (movable := pre)
      (pre := pre) (rest := rest'); eauto using incl_refl.
    destruct Hrest as [Hin|[d Hd]]; [now left|].
    right. exists d. now rewrite Hat, Hd.
  - intros f Hf. rewrite !Hm. split.
    + eapply flattened_target with (files := files) (movable := pre);
        eauto using incl_refl.
    + eapply flattened_source with (files := files) (movable := pre);
        eauto using incl_refl.
  - intros f Hf. rewrite Hm.
    eapply flattened_pending with (files := files) (movable := pre)
      (rest := rest); eauto using incl_refl.
  - intros q Hq. rewrite Hm.
    eapply flattened_dir with (files := files) (movable := pre);
      eauto using incl_refl.
  - intros q Hq. rewrite Hm. now apply flattened_frame.
Qed.

Lemma nodupb_snoc l x :
  nodupb l = true -> existsb (String.eqb x) l = false ->
  nodupb (l ++ [x]) = true.
Proof.
  intros Hl Hx. apply nodupb_iff. apply nodupb_iff in Hl.
  apply NoDup_app; auto.
  - repeat constructor. intros [].
  - intros y Hy [->|[]].
    assert (H : existsb (String.eqb y) l = true).
    { apply existsb_exists. exists y. split; auto. apply String.eqb_refl. }
    congruence.
Qed.

(** The loop stops somewhere: with no folder of the destination in the
    way, the files split into those that move and, from the first
    clash on, those that stay. *)
Lemma stops_from et acc files :
  nodupb (map basename_of acc) = true ->
  forallb (name_free et) acc = true ->
  no_folder_named et files = true ->
  exists pre rest,
    acc ++ files = pre ++ rest /\ stops_after et pre rest = true.
Proof.
  revert acc. induction files as [|f files IH]; intros acc Hnd Hfree Hno.
  - exists acc, []. split; [reflexivity|].
    unfold stops_after. now rewrite Hnd, Hfree.
  - cbn [no_folder_named forallb] in Hno.
    apply andb_true_iff in Hno as [Hf Hno].
    destruct (existsb (String.eqb (basename_of f)) (map basename_of acc)
              || is_file_node (assoc (basename_of f) et)) eqn:E.
    + exists acc, (f :: files). split; [reflexivity|].
      unfold stops_after. now rewrite Hnd, Hfree, E.
    + apply orb_false_iff in E as [E1 E2].
      destruct (IH (acc ++ [f])) as (pre & rest & Hsplit & Hstop).
      * rewrite map_app. cbn [map]. now apply nodupb_snoc.
      * rewrite forallb_app, Hfree. cbn [forallb]. unfold name_free.
        destruct (assoc (basename_of f) et) as [[d|l]|];
          cbn in *; congruence.
      * exact Hno.
      * exists pre, rest. split; [|exact Hstop].
        now rewrite <- Hsplit, <- app_assoc.
Qed.

(** C1 as stated does not hold for every tree.  Where [to_folder] has
    a folder with the name of a file, the guard of [move_file] sees no
    regular file and [shutil.move] puts the file into that folder: the
    call returns, and the file is not in [to_folder] itself.  Where
    [to_folder] is no directory, the first move raises
    FileNotFoundError and no file has moved. *)
Lemma flatten_into_folder_of_that_name :
  isdir "/dest" tree_dir_clash = true
  /\ move_all_files_from_root "/root" "/dest" tree_dir_clash
     = (Ok tt,
        Dir [("root", Dir []);
             ("dest", Dir [("a.txt", Dir [("a.txt", File [x61])])])])
  /\ isdir "/nowhere" tree_two_levels = false
  /\ move_all_files_from_root "/root" "/nowhere" tree_two_levels
     = (Raise FileNotFoundError, tree_two_levels).
Proof. repeat split. Qed.

(** C1, amended.  With [root_folder] and [to_folder] directories of a
    well-formed tree, and no file below [root_folder] named like a
    folder of [to_folder]: the files below [root_folder], at every
    depth and in the order of the walk, split into [pre] and [rest].
    The files of [pre] have names that differ and are free in
    [to_folder]; each is moved to [to_folder] under its own last name
    and is gone from where it was.  When [rest] is empty the call
    returns.  Otherwise the first file of [rest] has the name of a
    file moved before it, or of a regular file of [to_folder]: the
    guard of [move_file] raises, the files of [pre] stay moved, the
    files of [rest] stay where they were.  In both cases every
    directory is still a directory and no other path changes. *)
Theorem move_all_files_from_root_flattens (root_folder to_folder : string)
  (fs : node) (es et : list (string * node)) :
  wf_fs fs = true ->
  stat root_folder fs = inr (Dir es) ->
  stat to_folder fs = inr (Dir et) ->
  no_folder_named et (files_below (Dir es)) = true ->
  exists pre rest fs' cp ct,
    files_below (Dir es) = pre ++ rest
    /\ stops_after et pre rest = true
    /\ namei root_folder fs = inr cp /\ namei to_folder fs = inr ct
    /\ move_all_files_from_root root_folder to_folder fs
       = (match rest with
          | [] => Ok tt
          | _ :: _ => Raise already_exists
          end, fs')
    /\ (forall f, In f pre ->
          kind_at (target ct f) fs' = Some (KFile (snd f))
          /\ kind_at (source cp f) fs' = None)
    /\ (forall f, In f rest ->
          kind_at (source cp f) fs' = Some (KFile (snd f)))
    /\ (forall q, kind_at q fs = Some KDir -> kind_at q fs' = Some KDir)
    /\ (forall q,
          (forall f, In f pre -> q <> source cp f /\ q <> target ct f) ->
          kind_at q fs' = kind_at q fs).
Proof.
  intros Hwf Hroot Hto Hno.
  destruct (stops_from et [] (files_below (Dir es)) eq_refl eq_refl Hno)
    as (pre & rest & Hsplit & Hstop).
  cbn [app] in Hsplit.
  destruct (flatten_until_stop root_folder to_folder fs es et
              pre rest Hwf Hroot Hto Hsplit Hstop)
    as (fs' & cp & ct & H).
  exists pre, rest, fs', cp, ct. auto.
Qed.

Lemma move_all_files_from_root_flattens_witness :
  (exists pre rest fs' cp ct,
     files_below (Dir [("a.txt", File [x61]);
                       ("sub", Dir [("b.txt", File [x62])])]) = pre ++ rest
     /\ stops_after [] pre rest = true
     /\ namei "/root" tree_two_levels = inr cp
     /\ namei "/dest" tree_two_levels = inr ct
     /\ move_all_files_from_root "/root" "/dest" tree_two_levels
        = (match rest with
           | [] => Ok tt
           | _ :: _ => Raise already_exists
           end, fs')
     /\ (forall f, In f pre ->
           kind_at (target ct f) fs' = Some (KFile (snd f))
           /\ kind_at (source cp f) fs' = None)
     /\ (forall f, In f rest ->
           kind_at (source cp f) fs' = Some (KFile (snd f)))
     /\ (forall q, kind_at q tree_two_levels = Some KDir ->
                   kind_at q fs' = Some KDir)
     /\ (forall q,
           (forall f, In f pre -> q <> source cp f /\ q <> target ct f) ->
           kind_at q fs' = kind_at q tree_two_levels))
  /\ (exists pre rest fs' cp ct,
     files_below (Dir [("a.txt", File [x61]);
                       ("sub", Dir [("a.txt", File [x62])])]) = pre ++ rest
     /\ stops_after [] pre rest = true
     /\ namei "/root" tree_same_basename = inr cp
     /\ namei "/dest" tree_same_basename = inr ct
     /\ move_all_files_from_root "/root" "/dest" tree_same_basename
        = (match rest with
           | [] => Ok tt
           | _ :: _ => Raise already_exists
           end, fs')
     /\ (forall f, In f pre ->
           kind_at (target ct f) fs' = Some (KFile (snd f))
           /\ kind_at (source cp f) fs' = None)
     /\ (forall f, In f rest ->
           kind_at (source cp f) fs' = Some (KFile (snd f)))
     /\ (forall q, kind_at q tree_same_basename = Some KDir ->
                   kind_at q fs' = Some KDir)
     /\ (forall q,
           (forall f, In f pre -> q <> source cp f /\ q <> target ct f) ->
           kind_at q fs' = kind_at q tree_same_basename)).
Proof.
  split.
  - apply (move_all_files_from_root_flattens "/root" "/dest" tree_two_levels
             [("a.txt", File [x61]); ("sub", Dir [("b.txt", File [x62])])]
             []); reflexivity.
  - apply (move_all_files_from_root_flattens "/root" "/dest"
             tree_same_basename
             [("a.txt", File [x61]); ("sub", Dir [("a.txt", File [x62])])]
             []); reflexivity.
Defined.

(** The two scenarios, run. *)
Example flatten_two_levels :
  move_all_files_from_root "/root" "/dest" tree_two_levels
  = (Ok tt,
     Dir [("root", Dir [("sub", Dir [])]);
          ("dest", Dir [("a.txt", File [x61]); ("b.txt", File [x62])])]).
Proof. reflexivity. Qed.

Example flatten_same_basename :
  move_all_files_from_root "/root" "/dest" tree_same_basename
  = (Raise already_exists,
     Dir [("root", Dir [("sub", Dir [("a.txt", File [x62])])]);
          ("dest", Dir [("a.txt", File [x61])])]).
Proof. reflexivity. Qed.

Example flatten_name_taken :
  move_all_files_from_root "/root" "/dest" tree_name_taken
  = (Raise already_exists, tree_name_taken).
Proof. reflexivity. Qed.

(** * Further properties of the module *)

Import FS OS Files.
Import FSFacts PathFacts ResolveFacts KindFacts OSFacts.
Import ListingFacts WalkFacts FlattenFacts MoveFacts.

(** ** Looking does not touch *)

(** X1.  The listings and [read_file] only look: whatever the path,
    and whether they return or raise, [list_dir], [list_dir_files],
    [list_dir_folders], [list_dir_tree] and [read_file] leave the tree
    as it was. *)
Theorem queries_leave_the_tree (locale : codec) (p : string) (full : bool)
  (fs : node) :
  snd (list_dir p full fs) = fs
  /\ snd (list_dir_files p full fs) = fs
  /\ snd (list_dir_folders p full fs) = fs
  /\ snd (list_dir_tree p fs) = fs
  /\ snd (read_file locale p fs) = fs.
Proof.
  assert (Hls : forall k : list string -> M (list string),
            (forall l fs0, snd (k l fs0) = fs0) ->
            snd (bind (listdir p) k fs) = fs).
  { intros k Hk. unfold bind, listdir.
    destruct (stat p fs) as [e|[d|es]]; try reflexivity. apply Hk. }
  split; [|split; [|split; [|split]]].
  - unfold list_dir. apply Hls. intros l fs0. now destruct full.
  - unfold list_dir_files. apply Hls. intros l fs0.
    now rewrite (for_append_query l
                   (fun name => isfile (Path.join p name))
                   (fun name => if full then Path.join p name else name) fs0).
  - unfold list_dir_folders. apply Hls. intros l fs0.
    now rewrite (for_append_query l
                   (fun name => isdir (Path.join p name))
                   (fun name => if full
                                then (Path.join p name ++ "/")%string
                                else name) fs0).
  - now rewrite list_dir_tree_listed.
  - unfold read_file, bind, open_r.
    destruct (namei p fs) as [e|cp]; [reflexivity|].
    destruct (lookup cp fs) as [[d|es]|] eqn:E; try reflexivity.
    unfold read_text, bind, read_bytes. rewrite E.
    cbn [negb]. destruct (decode locale d); reflexivity.
Qed.

(** ** The three listings of one directory *)

Lemma list_dir_files_names (folder_path : string) (fs : node)
  (es : list (string * node)) :
  wf_fs fs = true -> stat folder_path fs = inr (Dir es) ->
  list_dir_files folder_path false fs = (Ok (filenames es), fs)
  /\ list_dir_folders folder_path false fs = (Ok (dirnames es), fs).
Proof.
  intros Hwf Hst.
  destruct (stat_dir_inv folder_path fs es Hst) as (cp & Hn & Hl).
  assert (Hls : listdir folder_path fs = (Ok (names es), fs)).
  { unfold listdir. now rewrite Hst. }
  split.
  - unfold list_dir_files. rewrite (bind_ok _ _ fs _ fs Hls).
    rewrite (for_append_query (names es)
               (fun name => isfile (Path.join folder_path name))
               (fun name => name) fs).
    rewrite filenames_sel. f_equal. f_equal.
    rewrite <- (map_id (flat_map _ es)).
    apply (flat_map_children folder_path fs cp es
             (fun n => is_file_node (Some n))).
    intros name child Hin.
    apply (isdir_child folder_path fs cp es name child Hwf Hn Hl Hin).
  - unfold list_dir_folders. rewrite (bind_ok _ _ fs _ fs Hls).
    rewrite (for_append_query (names es)
               (fun name => isdir (Path.join folder_path name))
               (fun name => name) fs).
    rewrite dirnames_sel. f_equal. f_equal.
    rewrite <- (map_id (flat_map _ es)).
    apply (flat_map_children folder_path fs cp es
             (fun n => is_dir_node (Some n))).
    intros name child Hin.
    apply (isdir_child folder_path fs cp es name child Hwf Hn Hl Hin).
Qed.

Lemma names_split es :
  List.length (names es)
  = (List.length (filenames es) + List.length (dirnames es))%nat
  /\ forall name, In name (names es) <->
                  In name (filenames es) \/ In name (dirnames es).
Proof.
  split.
  - unfold names, filenames, dirnames.
    induction es as [|[k [d|l]] es IH]; cbn [map flat_map fst snd app];
      [reflexivity| |]; cbn [List.length]; lia.
  - intros name. rewrite in_filenames, in_dirnames. unfold names.
    rewrite in_map_iff. split.
    + intros [[k [d|l]] [<- Hin]]; [left; now exists d | right; now exists l].
    + intros [[d Hin]|[l Hin]]; eexists; (split; [|exact Hin]); reflexivity.
Qed.

(** X2.  In a directory of a well-formed tree the names [list_dir]
    returns are the names [list_dir_files] and [list_dir_folders]
    return: each name is in exactly one of the two, and none comes
    twice.  With [full_path] the names come joined to the folder path,
    and every joined path exists. *)
Theorem list_dir_is_files_and_folders (folder_path : string) (fs : node)
  (es : list (string * node)) :
  wf_fs fs = true -> stat folder_path fs = inr (Dir es) ->
  exists entries files folders,
    list_dir folder_path false fs = (Ok entries, fs)
    /\ list_dir_files folder_path false fs = (Ok files, fs)
    /\ list_dir_folders folder_path false fs = (Ok folders, fs)
    /\ List.length entries = (List.length files + List.length folders)%nat
    /\ (forall name, In name entries <-> In name files \/ In name folders)
    /\ (forall name, ~ (In name files /\ In name folders))
    /\ NoDup entries
    /\ list_dir folder_path true fs
       = (Ok (map (Path.join folder_path) entries), fs)
    /\ Forall (fun p => exists_ p fs = true)
         (map (Path.join folder_path) entries).
Proof.
  intros Hwf Hst.
  destruct (stat_dir_inv folder_path fs es Hst) as (cp & Hn & Hl).
  destruct (list_dir_files_names folder_path fs es Hwf Hst) as [Hfi Hfo].
  assert (Hd : wf (Dir es) = true).
  { apply (wf_lookup cp fs); auto. now apply wf_fs_wf. }
  apply wf_dir_inv in Hd as (_ & Hnd & _).
  assert (Hls : listdir folder_path fs = (Ok (names es), fs)).
  { unfold listdir. now rewrite Hst. }
  exists (names es), (filenames es), (dirnames es).
  destruct (names_split es) as [Hlen Hin].
  split; [|split; [|split; [|split; [|split; [|split; [|split; [|split]]]]]]];
    auto.
  - unfold list_dir. now rewrite (bind_ok _ _ fs _ fs Hls).
  - intros name [Hf Hdn].
    apply in_filenames in Hf as [d Hf]. apply in_dirnames in Hdn as [l Hdn].
    pose proof (in_assoc name es (File d) Hnd Hf) as H1.
    pose proof (in_assoc name es (Dir l) Hnd Hdn) as H2. congruence.
  - now apply nodupb_NoDup.
  - unfold list_dir. now rewrite (bind_ok _ _ fs _ fs Hls).
  - apply Forall_forall. intros p Hp.
    apply in_map_iff in Hp as [name [<- Hname]].
    apply in_map_iff in Hname as [[k child] [Hk Hc]]. cbn [fst] in Hk.
    subst k.
    destruct (child_resolves folder_path fs cp es name child Hwf Hn Hl Hc)
      as [H1 H2].
    unfold exists_, stat. now rewrite H1, H2.
Qed.

Lemma list_dir_is_files_and_folders_witness :
  exists entries files folders,
    list_dir "/root" false tree_two_levels = (Ok entries, tree_two_levels)
    /\ list_dir_files "/root" false tree_two_levels
       = (Ok files, tree_two_levels)
    /\ list_dir_folders "/root" false tree_two_levels
       = (Ok folders, tree_two_levels)
    /\ List.length entries = (List.length files + List.length folders)%nat
    /\ (forall name, In name entries <-> In name files \/ In name folders)
    /\ (forall name, ~ (In name files /\ In name folders))
    /\ NoDup entries
    /\ list_dir "/root" true tree_two_levels
       = (Ok (map (Path.join "/root") entries), tree_two_levels)
    /\ Forall (fun p => exists_ p tree_two_levels = true)
         (map (Path.join "/root") entries).
Proof.
  apply (list_dir_is_files_and_folders "/root" tree_two_levels
           [("a.txt", File [x61]); ("sub", Dir [("b.txt", File [x62])])]);
    reflexivity.
Defined.

(** ** Listing what is no directory *)

(** X3.  On a path that is no directory [list_dir], [list_dir_files]
    and [list_dir_folders] raise the same error of [os.listdir],
    NotADirectoryError or FileNotFoundError (the first on a regular
    file), while [list_dir_tree] returns the empty list; the tree is
    unchanged. *)
Theorem listing_what_is_no_directory (p : string) (full : bool) (fs : node) :
  isdir p fs = false ->
  (exists e, list_dir p full fs = (Raise e, fs)
             /\ list_dir_files p full fs = (Raise e, fs)
             /\ list_dir_folders p full fs = (Raise e, fs)
             /\ (e = NotADirectoryError \/ e = FileNotFoundError)
             /\ (isfile p fs = true -> e = NotADirectoryError))
  /\ list_dir_tree p fs = (Ok [], fs).
Proof.
  intros Hd. split.
  - assert (Hls : exists e, listdir p fs = (Raise e, fs)
                    /\ (e = NotADirectoryError \/ e = FileNotFoundError)
                    /\ (isfile p fs = true -> e = NotADirectoryError)).
    { unfold listdir, isdir, isfile in *.
      destruct (stat p fs) as [e|[d|es]] eqn:E; [| |discriminate].
      - exists (exn_of_errno e). split; [reflexivity|].
        split; [|discriminate].
        unfold stat in E. destruct (namei p fs) as [e'|cp] eqn:En.
        + injection E as <-.
          apply QuietFacts.namei_errno in En as [->| ->]; auto.
        + destruct (lookup cp fs); [discriminate|]. injection E as <-.
          now right.
      - exists NotADirectoryError. auto. }
    destruct Hls as (e & Hls & H1 & H2). exists e.
    unfold list_dir, list_dir_files, list_dir_folders.
    now rewrite !(bind_raise _ _ fs e fs Hls).
  - rewrite list_dir_tree_listed. unfold walk, isdir in *.
    destruct (stat p fs) as [e|[d|es]]; [reflexivity|reflexivity|discriminate].
Qed.

Lemma listing_what_is_no_directory_witness :
  (exists e, list_dir "/root/a.txt" true tree_two_levels
             = (Raise e, tree_two_levels)
             /\ list_dir_files "/root/a.txt" true tree_two_levels
                = (Raise e, tree_two_levels)
             /\ list_dir_folders "/root/a.txt" true tree_two_levels
                = (Raise e, tree_two_levels)
             /\ (e = NotADirectoryError \/ e = FileNotFoundError)
             /\ (isfile "/root/a.txt" tree_two_levels = true ->
                 e = NotADirectoryError))
  /\ list_dir_tree "/root/a.txt" tree_two_levels = (Ok [], tree_two_levels).
Proof.
  apply (listing_what_is_no_directory "/root/a.txt" true tree_two_levels).
  reflexivity.
Defined.

(** ** Creating a file *)

Lemma free_name_inv (p : string) (fs : node) :
  writable p fs = true -> exists_ p fs = false ->
  exists t b, namei p fs = inr (t ++ [b]) /\ lookup (t ++ [b]) fs = None
              /\ is_dir_node (lookup t fs) = true.
Proof.
  intros Hw He. destruct (writable_inv p fs Hw) as (cp & Hn & _).
  unfold exists_, stat in He. rewrite Hn in He.
  destruct (lookup cp fs) as [n|] eqn:El; [discriminate|].
  destruct (namei_anchored p fs cp Hn) as [->|(t & b & -> & Ht)].
  - apply namei_root_dir in Hn. simpl in El. discriminate.
  - now exists t, b.
Qed.

(** X4.  [create_file] on a free name in an existing directory makes
    an empty regular file there and changes nothing else; a second
    [create_file] raises the guard's error, and [delete_file] takes the
    tree back to what every path denoted before. *)
Theorem create_file_then (p : string) (fs : node) :
  writable p fs = true -> exists_ p fs = false ->
  exists fs' cp,
    namei p fs = inr cp
    /\ create_file p fs = (Ok tt, fs')
    /\ (forall q, kind_at q fs' =
                  if path_eqb cp q then Some (KFile []) else kind_at q fs)
    /\ create_file p fs' = (Raise already_exists, fs')
    /\ exists fs'', delete_file p fs' = (Ok tt, fs'')
                    /\ forall q, kind_at q fs'' = kind_at q fs.
Proof.
  intros Hw He.
  destruct (free_name_inv p fs Hw He) as (t & b & Hn & Hl & Ht).
  assert (Hleaf : is_dir_node (lookup (t ++ [b]) fs) = false) by now rewrite Hl.
  destruct (set_at_some t b (Some (File [])) fs Ht) as [fs' Hset].
  assert (Hn' : namei p fs' = inr (t ++ [b])).
  { apply (namei_set_at_leaf _ _ fs fs' p _ Hset eq_refl Hleaf Hn). }
  pose proof (lookup_set_at_same _ _ fs fs' Hset) as Hl'.
  assert (Hk : forall q, kind_at q fs' =
                 if path_eqb (t ++ [b]) q then Some (KFile [])
                 else kind_at q fs).
  { intros q. apply (kind_set_at_leaf _ _ fs fs' Hset eq_refl Hleaf). }
  assert (Hf' : isfile p fs' = true) by exact (isfile_intro p fs' _ [] Hn' Hl').
  assert (Hleaf' : is_dir_node (lookup (t ++ [b]) fs') = false)
    by now rewrite Hl'.
  assert (Ht' : is_dir_node (lookup t fs') = true).
  { now rewrite (dirs_set_at_leaf _ _ fs fs' Hset eq_refl Hleaf t). }
  destruct (set_at_some t b None fs' Ht') as [fs'' Hset'].
  exists fs', (t ++ [b]). split; [exact Hn|].
  split; [|split; [exact Hk|split]].
  - unfold create_file, bind, query.
    replace (isfile p fs) with false.
    + unfold mknod. rewrite Hn, Hl. unfold store. now rewrite Hset.
    + unfold isfile, stat. now rewrite Hn, Hl.
  - unfold create_file, bind, query. now rewrite Hf'.
  - exists fs''. split.
    + unfold delete_file, bind, query. rewrite Hf'.
      unfold remove. rewrite Hn', Hl'. unfold store. now rewrite Hset'.
    + intros q.
      rewrite (kind_set_at_leaf _ _ fs' fs'' Hset' eq_refl Hleaf' q), Hk.
      destruct (path_eqb (t ++ [b]) q) eqn:E; auto.
      apply path_eqb_eq in E. subst q. unfold kind_at. now rewrite Hl.
Qed.

Lemma create_file_then_witness :
  exists fs' cp,
    namei "/dest/new.txt" tree_two_levels = inr cp
    /\ create_file "/dest/new.txt" tree_two_levels = (Ok tt, fs')
    /\ (forall q, kind_at q fs' =
                  if path_eqb cp q then Some (KFile [])
                  else kind_at q tree_two_levels)
    /\ create_file "/dest/new.txt" fs' = (Raise already_exists, fs')
    /\ exists fs'', delete_file "/dest/new.txt" fs' = (Ok tt, fs'')
                    /\ forall q, kind_at q fs'' = kind_at q tree_two_levels.
Proof.
  apply (create_file_then "/dest/new.txt" tree_two_levels); reflexivity.
Defined.

(** ** Writing: what is lost and what is never touched *)

(** A text the encoding refuses: the file is opened, and so emptied,
    before the write fails. *)
Lemma write_refused (enc : codec) (p : string) (data : text) (fs : node)
  (cp : path) :
  namei p fs = inr cp -> is_dir_node (lookup cp fs) = false ->
  encode enc data = None ->
  exists fs',
    bind (open_w p) (fun file => write_text enc file data) fs
    = (Raise UnicodeEncodeError, fs')
    /\ stat p fs' = inr (File [])
    /\ forall q, q <> cp -> kind_at q fs' = kind_at q fs.
Proof.
  intros Hn Hleaf He.
  destruct (store_ok cp (Some (File [])) fs (namei_anchored p fs cp Hn)
              (namei_leaf_not_root p fs cp Hn Hleaf)) as (fs' & Hs & Hset).
  exists fs'. split; [|split].
  - unfold bind, open_w. rewrite Hn.
    assert (Hopen : (store cp (Some (File [])) ;;; ret cp)%os fs = (Ok cp, fs')).
    { unfold bind, ret. now rewrite Hs. }
    destruct (lookup cp fs) as [[d|es]|]; try discriminate;
      rewrite Hopen; unfold write_text; now rewrite He.
  - unfold stat.
    rewrite (namei_set_at_leaf _ _ fs fs' p cp Hset eq_refl Hleaf Hn).
    now rewrite (lookup_set_at_same _ _ fs fs' Hset).
  - intros q Hq.
    rewrite (kind_set_at_leaf _ _ fs fs' Hset eq_refl Hleaf q).
    rewrite path_eqb_neq; auto.
Qed.

(** X5.  When the encoding cannot encode the text, [write_to_file]
    with [overwrite] raises UnicodeEncodeError after the file was
    opened: the file is left empty, its old content lost, and nothing
    else changes. *)
Theorem write_to_file_refused_text_empties (locale : codec) (p : string)
  (data : text) (fs : node) :
  writable p fs = true -> encode locale data = None ->
  exists fs' cp,
    namei p fs = inr cp
    /\ write_to_file locale p data true fs = (Raise UnicodeEncodeError, fs')
    /\ stat p fs' = inr (File [])
    /\ forall q, q <> cp -> kind_at q fs' = kind_at q fs.
Proof.
  intros Hw He. destruct (writable_inv p fs Hw) as (cp & Hn & Hleaf).
  destruct (write_refused locale p data fs cp Hn Hleaf He)
    as (fs' & Hrun & Hst & Hk).
  exists fs', cp. split; [exact Hn|]. split; [|split; auto].
  unfold write_to_file. cbn [negb]. unfold bind at 1. unfold ret at 1.
  exact Hrun.
Qed.

Lemma write_to_file_refused_text_empties_witness :
  exists fs' cp,
    namei "/root/a.txt" tree_two_levels = inr cp
    /\ write_to_file Codec.ascii "/root/a.txt" [233%Z] true tree_two_levels
       = (Raise UnicodeEncodeError, fs')
    /\ stat "/root/a.txt" fs' = inr (File [])
    /\ forall q, q <> cp -> kind_at q fs' = kind_at q tree_two_levels.
Proof.
  apply (write_to_file_refused_text_empties Codec.ascii "/root/a.txt"
           [233%Z] tree_two_levels); reflexivity.
Defined.

Lemma open_w_effect (p : string) (fs : node) r fs1 :
  open_w p fs = (r, fs1) ->
  fs1 = fs
  \/ exists cp, namei p fs = inr cp /\ r = Ok cp
                /\ set_at cp (Some (File [])) fs = Some fs1
                /\ is_dir_node (lookup cp fs) = false.
Proof.
  unfold open_w. destruct (namei p fs) as [e|cp] eqn:En.
  - intros H. injection H as _ <-. now left.
  - assert (H : is_dir_node (lookup cp fs) = false ->
                (store cp (Some (File [])) ;;; ret cp)%os fs = (r, fs1) ->
                fs1 = fs
                \/ exists cp0, @inr errno path cp = inr cp0 /\ r = Ok cp0
                     /\ set_at cp0 (Some (File [])) fs = Some fs1
                     /\ is_dir_node (lookup cp0 fs) = false).
    { intros Hleaf. unfold bind, store, ret.
      destruct (set_at cp (Some (File [])) fs) as [fs2|] eqn:Es;
        intros H; injection H as <- <-; [|now left].
      right. now exists cp. }
    destruct (lookup cp fs) as [[d|es]|] eqn:El; try (now apply H).
    intros H0. injection H0 as _ <-. now left.
Qed.

Lemma write_bytes_effect (h : handle) (bs : list byte) (fs : node) r fs1 :
  write_bytes h bs fs = (r, fs1) ->
  fs1 = fs
  \/ exists d, lookup h fs = Some (File d)
               /\ set_at h (Some (File (d ++ bs))) fs = Some fs1.
Proof.
  unfold write_bytes. destruct (lookup h fs) as [[d|es]|] eqn:El;
    try (intros H; injection H as _ <-; now left).
  unfold store. destruct (set_at h (Some (File (d ++ bs))) fs) eqn:E;
    intros H; injection H as _ <-; [|now left].
  right. now exists d.
Qed.

(** Opening for writing and writing change what one path denotes, the
    path the string resolves to, whatever the outcome. *)
Lemma write_body_frame (enc : codec) (p : string) (data : text) (fs : node)
  (q : path) :
  namei p fs <> inr q ->
  kind_at q (snd (bind (open_w p) (fun file => write_text enc file data) fs))
  = kind_at q fs.
Proof.
  intros Hq. unfold bind.
  destruct (open_w p fs) as [r fs1] eqn:Eo.
  destruct (open_w_effect p fs r fs1 Eo) as [->|(cp & Hn & -> & Hset & Hleaf)].
  - destruct r as [h|e]; [|reflexivity].
    unfold write_text. destruct (encode enc data) as [bs|]; [|reflexivity].
    destruct (write_bytes h bs fs) as [r2 fs2] eqn:Ew. cbn [snd].
    destruct (write_bytes_effect h bs fs r2 fs2 Ew) as [->|(d & Hl & Hset)];
      [reflexivity|].
    assert (Hh : namei p fs = inr h).
    { unfold open_w in Eo. destruct (namei p fs) as [e|cp]; [discriminate|].
      destruct (lookup cp fs) as [[d'|es]|]; try discriminate;
        unfold bind, store, ret in Eo;
        destruct (set_at cp (Some (File [])) fs); inversion Eo;
        reflexivity. }
    rewrite (kind_set_at_leaf _ _ fs fs2 Hset eq_refl
               ltac:(now rewrite Hl) q).
    rewrite path_eqb_neq; auto. intros ->. now apply Hq.
  - assert (Hk1 : kind_at q fs1 = kind_at q fs).
    { rewrite (kind_set_at_leaf _ _ fs fs1 Hset eq_refl Hleaf q).
      rewrite path_eqb_neq; auto. congruence. }
    unfold write_text. destruct (encode enc data) as [bs|]; [|exact Hk1].
    destruct (write_bytes cp bs fs1) as [r2 fs2] eqn:Ew. cbn [snd].
    destruct (write_bytes_effect cp bs fs1 r2 fs2 Ew) as [->|(d & Hl & Hset2)];
      [exact Hk1|].
    rewrite (kind_set_at_leaf _ _ fs1 fs2 Hset2 eq_refl
               ltac:(now rewrite Hl) q).
    rewrite path_eqb_neq; auto. congruence.
Qed.

(** X6.  Whatever [write_to_file] does, return or raise, with or
    without [overwrite], it changes what at most one place denotes: the
    place its path resolves to. *)
Theorem write_to_file_touches_one_path (locale : codec) (p : string)
  (data : text) (overwrite : bool) (fs : node) (q : path) :
  namei p fs <> inr q ->
  kind_at q (snd (write_to_file locale p data overwrite fs)) = kind_at q fs.
Proof.
  intros Hq. unfold write_to_file.
  pose proof (write_body_frame locale p data fs q Hq) as Hbody.
  destruct overwrite; cbn [negb].
  - unfold bind at 1. unfold ret at 1. exact Hbody.
  - unfold bind at 1. unfold bind at 1. unfold query at 1.
    destruct (isfile p fs); [reflexivity|].
    unfold ret at 1. exact Hbody.
Qed.

Lemma write_to_file_touches_one_path_witness :
  kind_at ["root"; "sub"; "b.txt"]
    (snd (write_to_file Codec.utf8 "/root/a.txt" [120%Z] true tree_two_levels))
  = kind_at ["root"; "sub"; "b.txt"] tree_two_levels.
Proof.
  apply (write_to_file_touches_one_path Codec.utf8 "/root/a.txt" [120%Z]
           true tree_two_levels ["root"; "sub"; "b.txt"]).
  discriminate.
Defined.

(** X7.  When [write_as] cannot encode what was read and stripped,
    [fix_encoding] raises UnicodeEncodeError with the file truncated
    already: the file is left empty, and nothing else changes. *)
Theorem fix_encoding_refused_text_empties (file_path : string)
  (read_as write_as : codec) (remove_chars : option (list text))
  (fs : node) (bs : list byte) :
  stat file_path fs = inr (File bs) ->
  encode write_as
    (strip remove_chars (universal_newlines (decode_ignore read_as bs)))
  = None ->
  exists fs' cp,
    namei file_path fs = inr cp
    /\ fix_encoding file_path read_as write_as remove_chars fs
       = (Raise UnicodeEncodeError, fs')
    /\ stat file_path fs' = inr (File [])
    /\ forall q, q <> cp -> kind_at q fs' = kind_at q fs.
Proof.
  intros Hst He.
  assert (Hf : isfile file_path fs = true).
  { unfold isfile. now rewrite Hst. }
  destruct (isfile_inv file_path fs Hf) as (cp & d & Hn & Hl).
  assert (d = bs).
  { unfold stat in Hst. rewrite Hn, Hl in Hst. congruence. }
  subst d.
  assert (Hleaf : is_dir_node (lookup cp fs) = false) by now rewrite Hl.
  destruct (write_refused write_as file_path _ fs cp Hn Hleaf He)
    as (fs' & Hw & Hst' & Hk).
  exists fs', cp. split; [exact Hn|]. split; [|split; auto].
  unfold fix_encoding.
  pose proof (read_whole_file read_as true file_path fs cp bs Hn Hl) as Hr.
  unfold bind in Hr. unfold bind at 1.
  destruct (open_r file_path fs) as [[h|e] fs1]; [|discriminate].
  unfold bind at 1. rewrite Hr. rewrite fix_encoding_strip. exact Hw.
Qed.

Lemma fix_encoding_refused_text_empties_witness :
  exists fs' cp,
    namei "/notes.txt" tree_cafe = inr cp
    /\ fix_encoding "/notes.txt" Codec.utf8 Codec.ascii None tree_cafe
       = (Raise UnicodeEncodeError, fs')
    /\ stat "/notes.txt" fs' = inr (File [])
    /\ forall q, q <> cp -> kind_at q fs' = kind_at q tree_cafe.
Proof.
  apply (fix_encoding_refused_text_empties "/notes.txt" Codec.utf8
           Codec.ascii None tree_cafe
           [x63; x61; x66; xc3; xa9; x00; x62; x72; x6f; x6b; x65; x6e]);
    reflexivity.
Defined.

(** X8.  On a file that holds valid UTF-8, [fix_encoding] with its
    defaults writes the text back with its line ends translated to
    newlines; a text without carriage return is written back byte for
    byte, so that the tree is what it was. *)
Theorem fix_encoding_valid_utf8 (file_path : string) (fs : node)
  (t : text) (bs bs' : list byte) :
  stat file_path fs = inr (File bs) ->
  encode Codec.utf8 t = Some bs ->
  encode Codec.utf8 (universal_newlines t) = Some bs' ->
  exists fs',
    fix_encoding file_path Codec.utf8 Codec.utf8 None fs = (Ok tt, fs')
    /\ stat file_path fs' = inr (File bs')
    /\ (~ In 13%Z t -> forall q, kind_at q fs' = kind_at q fs).
Proof.
  intros Hst He He'.
  assert (Hdec : decode_ignore Codec.utf8 bs = t).
  { cbn [decode_ignore Codec.utf8]. unfold Codec.lenient.
    now rewrite (CodecFacts.utf8_scan_encode t bs He). }
  assert (Hf : isfile file_path fs = true).
  { unfold isfile. now rewrite Hst. }
  destruct (isfile_inv file_path fs Hf) as (cp & d & Hn & Hl).
  assert (d = bs).
  { unfold stat in Hst. rewrite Hn, Hl in Hst. congruence. }
  subst d.
  assert (Hleaf : is_dir_node (lookup cp fs) = false) by now rewrite Hl.
  destruct (write_whole_file Codec.utf8 file_path (universal_newlines t) fs
              cp bs' Hn Hleaf He') as (fs' & Hwr & Hn' & Hk).
  exists fs'. split; [|split].
  - unfold fix_encoding.
    pose proof (read_whole_file Codec.utf8 true file_path fs cp bs Hn Hl) as Hr.
    unfold bind in Hr. unfold bind at 1.
    destruct (open_r file_path fs) as [[h|e] fs1]; [|discriminate].
    unfold bind at 1. rewrite Hr, Hdec. exact Hwr.
  - apply (stat_of_kind_file file_path fs' cp bs' Hn').
    now rewrite Hk, path_eqb_refl.
  - intros Hcr q. rewrite Hk.
    destruct (path_eqb cp q) eqn:E; auto.
    apply path_eqb_eq in E. subst q. unfold kind_at. rewrite Hl. cbn.
    rewrite (TextFacts.universal_newlines_id t Hcr) in He'. congruence.
Qed.

Lemma fix_encoding_valid_utf8_witness :
  exists fs',
    fix_encoding "/root/a.txt" Codec.utf8 Codec.utf8 None tree_two_levels
    = (Ok tt, fs')
    /\ stat "/root/a.txt" fs' = inr (File [x61])
    /\ (~ In 13%Z [97%Z] ->
        forall q, kind_at q fs' = kind_at q tree_two_levels).
Proof.
  apply (fix_encoding_valid_utf8 "/root/a.txt" tree_two_levels [97%Z]
           [x61] [x61]); reflexivity.
Defined.

(** ** Moving a file to a free name *)

(** X9.  [move_file] of a regular file to a free name in an existing
    directory puts the file, with its content, at the new place and
    leaves nothing at the old one; moving it back restores what every
    path denoted. *)
Theorem move_file_there_and_back (a b : string) (fs : node) (d : list byte) :
  stat a fs = inr (File d) ->
  writable b fs = true -> exists_ b fs = false ->
  exists fs' s t,
    namei a fs = inr s /\ namei b fs = inr t
    /\ move_file a b fs = (Ok tt, fs')
    /\ (forall q, kind_at q fs' =
                  if path_eqb t q then Some (KFile d)
                  else if path_eqb s q then None
                  else kind_at q fs)
    /\ exists fs'', move_file b a fs' = (Ok tt, fs'')
                    /\ forall q, kind_at q fs'' = kind_at q fs.
Proof.
  intros Hst Hw He.
  assert (Hf : isfile a fs = true).
  { unfold isfile. now rewrite Hst. }
  destruct (isfile_inv a fs Hf) as (s & d0 & Hs & Hls).
  assert (d0 = d).
  { unfold stat in Hst. rewrite Hs, Hls in Hst. congruence. }
  subst d0.
  destruct (free_name_inv b fs Hw He) as (t & k & Ht & Hlt & Htd).
  assert (Hmove : forall src dst fs0 s0 t0 k0 d1,
            namei src fs0 = inr s0 -> lookup s0 fs0 = Some (File d1) ->
            namei dst fs0 = inr (t0 ++ [k0]) ->
            lookup (t0 ++ [k0]) fs0 = None ->
            is_dir_node (lookup t0 fs0) = true ->
            exists fs1,
              move_file src dst fs0 = (Ok tt, fs1)
              /\ forall q, kind_at q fs1 =
                           if path_eqb (t0 ++ [k0]) q then Some (KFile d1)
                           else if path_eqb s0 q then None
                           else kind_at q fs0).
  { intros src dst fs0 s0 t0 k0 d1 H1 H2 H3 H4 H5.
    destruct (rename_file_to_free src dst fs0 s0 t0 k0 d1 H1 H2 H3 H4 H5)
      as (fs1 & Hr & Hk).
    exists fs1. split; [|exact Hk].
    unfold move_file, bind at 1, query at 1.
    replace (isfile dst fs0) with false
      by (unfold isfile, stat; now rewrite H3, H4).
    unfold shutil_move, bind at 1, query at 1.
    replace (isdir dst fs0) with false
      by (unfold isdir, stat; now rewrite H3, H4).
    unfold try_except_OSError. now rewrite Hr. }
  destruct (Hmove a b fs s t k d Hs Hls Ht Hlt Htd) as (fs' & Hm & Hk).
  exists fs', s, (t ++ [k]).
  split; [exact Hs|]. split; [exact Ht|]. split; [exact Hm|].
  split; [exact Hk|].
  assert (Hne : path_eqb (t ++ [k]) s = false).
  { apply path_eqb_neq. intros E. rewrite E, Hls in Hlt. discriminate. }
  assert (Hdirs : forall q, is_dir_node (lookup q fs) = true ->
                            is_dir_node (lookup q fs') = true).
  { intros q Hq. apply kind_dir_lookup. rewrite Hk.
    rewrite path_eqb_neq, path_eqb_neq.
    - now apply kind_of_dir.
    - intros <-. rewrite Hls in Hq. discriminate.
    - intros <-. rewrite Hlt in Hq. discriminate. }
  destruct (namei_anchored a fs s Hs) as [->|(sp & sk & -> & Hsp)].
  { apply namei_root_dir in Hs. simpl in Hls. now rewrite Hls in Hs. }
  destruct (Hmove b a fs' (t ++ [k]) sp sk d) as (fs'' & Hm' & Hk').
  - now apply (namei_ext fs fs').
  - apply lookup_of_kind_file. now rewrite Hk, path_eqb_refl.
  - now apply (namei_ext fs fs').
  - apply kind_none_lookup. now rewrite Hk, Hne, path_eqb_refl.
  - now apply Hdirs.
  - exists fs''. split; [exact Hm'|].
    intros q. rewrite Hk', Hk.
    destruct (path_eqb (sp ++ [sk]) q) eqn:E1.
    + apply path_eqb_eq in E1. subst q. unfold kind_at. now rewrite Hls.
    + destruct (path_eqb (t ++ [k]) q) eqn:E2; auto.
      apply path_eqb_eq in E2. subst q. unfold kind_at. now rewrite Hlt.
Qed.

Lemma move_file_there_and_back_witness :
  exists fs' s t,
    namei "/root/a.txt" tree_two_levels = inr s
    /\ namei "/dest/z.txt" tree_two_levels = inr t
    /\ move_file "/root/a.txt" "/dest/z.txt" tree_two_levels = (Ok tt, fs')
    /\ (forall q, kind_at q fs' =
                  if path_eqb t q then Some (KFile [x61])
                  else if path_eqb s q then None
                  else kind_at q tree_two_levels)
    /\ exists fs'', move_file "/dest/z.txt" "/root/a.txt" fs' = (Ok tt, fs'')
                    /\ forall q, kind_at q fs'' = kind_at q tree_two_levels.
Proof.
  apply (move_file_there_and_back "/root/a.txt" "/dest/z.txt"
           tree_two_levels [x61]); reflexivity.
Defined.

(** ** Heads and tails of path strings *)

Module SplitFacts.
Import Path.

Lemma is_sep_eq c : is_sep c = true -> c = sep.
Proof. unfold is_sep. apply Ascii.eqb_eq. Qed.

(** A path with a separator is its head, which ends with the last
    separator, and its tail. *)
Lemma split_raw s :
  has_sep s = true ->
  exists h, s = (h ++ String sep (tail_raw s))%string
            /\ head_raw s = (h ++ String sep "")%string.
Proof.
  induction s as [|c s IH]; [discriminate|].
  intros H. cbn [head_raw tail_raw]. rewrite H.
  destruct (has_sep s) eqn:Es.
  - destruct (IH eq_refl) as (h & Hs & Hh). exists (String c h).
    split; cbn [append]; congruence.
  - cbn [has_sep] in H. rewrite Es, orb_false_r in H.
    apply is_sep_eq in H. subst c. exists "".
    rewrite (tail_raw_nosep s Es).
    assert (Hh : head_raw s = "").
    { destruct s; [reflexivity|]. cbn [head_raw]. now rewrite Es. }
    rewrite Hh. split; reflexivity.
Qed.

Lemma head_raw_nosep s : has_sep s = false -> head_raw s = "".
Proof. destruct s; [reflexivity|]. cbn [head_raw]. now intros ->. Qed.

(** [rstrip] takes separators off the end and nothing else. *)
Lemma rstrip_decomp s : exists k, s = (rstrip_sep s ++ seps k)%string.
Proof.
  induction s as [|c s [k IH]]; [now exists O|].
  cbn [rstrip_sep]. destruct (rstrip_sep s) as [|c' r] eqn:Er.
  - cbn [append] in IH. destruct (is_sep c) eqn:Ec.
    + apply is_sep_eq in Ec. subst c. exists (S k). cbn [append seps].
      now rewrite <- IH.
    + exists k. cbn [append]. now rewrite <- IH.
  - exists k. cbn [append] in *. now rewrite <- IH.
Qed.

Lemma all_sep_seps k : all_sep (seps k) = true.
Proof. induction k; [reflexivity|]. cbn [seps all_sep]. now rewrite IHk. Qed.

Lemma rstrip_empty_all_sep s : rstrip_sep s = "" -> all_sep s = true.
Proof.
  intros H. destruct (rstrip_decomp s) as [k Hk]. rewrite H in Hk.
  cbn [append] in Hk. rewrite Hk. apply all_sep_seps.
Qed.

Lemma rstrip_no_trailing s : endswith_sep (rstrip_sep s) = false.
Proof.
  induction s as [|c s IH]; [reflexivity|].
  cbn [rstrip_sep]. destruct (rstrip_sep s) as [|c' r] eqn:Er.
  - destruct (is_sep c) eqn:Ec; [reflexivity|]. cbn. exact Ec.
  - cbn [endswith_sep] in *. exact IH.
Qed.

Lemma components_of_seps k : components (seps k) = repeat "" (S k).
Proof.
  induction k as [|k IH]; [reflexivity|].
  cbn [seps]. change (components (String sep (seps k)))
    with ("" :: components (seps k)).
  now rewrite IH.
Qed.

Lemma components_seps a k :
  components (a ++ String sep (seps k)) = components a ++ repeat "" (S k).
Proof. now rewrite components_sep_app, components_of_seps. Qed.

Lemma endswith_seps k : Path.endswith_sep (seps (S k)) = true.
Proof.
  induction k as [|k IH]; [reflexivity|].
  change (seps (S (S k))) with (String Path.sep (seps (S k))).
  cbn [Path.endswith_sep]. cbn [seps] in *. exact IH.
Qed.

Lemma rstrip_id s : Path.endswith_sep s = false -> Path.rstrip_sep s = s.
Proof.
  intros H. destruct (rstrip_decomp s) as [[|k] Hk].
  - cbn [seps] in Hk. rewrite app_string_nil in Hk. congruence.
  - rewrite Hk in H at 1.
    rewrite endswith_sep_app, endswith_seps in H by discriminate.
    discriminate.
Qed.

End SplitFacts.

(** ** Where the path of a file leads *)

Module TargetFacts.
Import Path SplitFacts.

Lemma namei_from_empties fs cur k r :
  namei_from fs cur (repeat "" k) = inr r -> r = cur.
Proof.
  induction k as [|k IH]; cbn [repeat namei_from]; intros H.
  - now injection H.
  - destruct (lookup cur fs) as [[d|es]|]; try discriminate.
    unfold step in H. cbn in H. now apply IH.
Qed.

Lemma removelast_dir fs c :
  is_dir_node (lookup c fs) = true ->
  is_dir_node (lookup (removelast c) fs) = true.
Proof.
  intros H. destruct c as [|x c] using rev_ind; [exact H|].
  rewrite removelast_last.
  apply (lookup_above_dir c x [] fs).
  destruct (lookup (c ++ [x]) fs); [discriminate | discriminate].
Qed.

(** The step that reaches a regular file takes a proper name. *)
Lemma step_to_file fs c t d :
  is_dir_node (lookup c fs) = true ->
  lookup (step c t) fs = Some (File d) ->
  step c t = c ++ [t] /\ t <> "" /\ t <> "." /\ t <> "..".
Proof.
  intros Hc Hl. unfold step in *.
  destruct (String.eqb t "" || String.eqb t ".")%bool eqn:E1.
  - rewrite Hl in Hc. discriminate.
  - destruct (String.eqb t "..") eqn:E2.
    + pose proof (removelast_dir fs c Hc) as Hr. rewrite Hl in Hr.
      discriminate.
    + apply orb_false_iff in E1 as [E1 E3].
      apply String.eqb_neq in E1, E2, E3. auto.
Qed.

(** The path of a regular file ends in the name of the file; what is
    before the last separator resolves to its directory. *)
Lemma file_path_shape p fs s d :
  namei p fs = inr s -> lookup s fs = Some (File d) ->
  exists sp,
    s = sp ++ [tail_raw p]
    /\ valid_name (tail_raw p) = true
    /\ is_dir_node (lookup sp fs) = true
    /\ ((has_sep p = false /\ sp = [])
        \/ exists h, p = (h ++ String sep (tail_raw p))%string
                     /\ head_raw p = (h ++ String sep "")%string
                     /\ namei_from fs [] (components h) = inr sp).
Proof.
  intros Hn Hl. pose proof (namei_root_dir p fs s Hn) as Hroot.
  unfold namei in Hn. destruct (String.eqb p "") eqn:Ep; [discriminate|].
  pose proof (has_sep_tail_raw p) as Hts.
  assert (Hvalid : forall t, has_sep t = false -> t <> "" -> t <> "." ->
                             t <> ".." -> valid_name t = true).
  { intros t H1 H2 H3 H4. unfold valid_name.
    apply String.eqb_neq in H2, H3, H4. now rewrite H1, H2, H3, H4. }
  destruct (has_sep p) eqn:Es.
  - destruct (split_raw p Es) as (h & Hp & Hh).
    rewrite Hp, components_sep_app, (components_nosep _ Hts),
      namei_from_app in Hn.
    destruct (namei_from fs [] (components h)) as [e|c] eqn:Ec;
      [discriminate|].
    cbn [namei_from] in Hn.
    destruct (lookup c fs) as [[d'|es]|] eqn:Elc; try discriminate.
    injection Hn as <-.
    destruct (step_to_file fs c (tail_raw p) d) as (Hstep & H1 & H2 & H3);
      auto.
    { now rewrite Elc. }
    exists c. split; [exact Hstep|]. split; [now apply Hvalid|].
    split; [now rewrite Elc|]. right. now exists h.
  - rewrite (components_nosep p Es) in Hn. cbn [namei_from lookup] in Hn.
    destruct fs as [d'|es]; [discriminate|]. injection Hn as <-.
    rewrite (tail_raw_nosep p Es).
    destruct (step_to_file (Dir es) [] p d) as (Hstep & H1 & H2 & H3); auto.
    exists []. split; [exact Hstep|]. split; [now apply Hvalid|].
    split; [reflexivity|]. now left.
Qed.

Lemma endswith_sep_snoc h : endswith_sep (h ++ String sep "") = true.
Proof. now rewrite endswith_sep_app by discriminate. Qed.

(** The path of a regular file does not end in a separator. *)
Lemma file_path_clean p fs s d :
  namei p fs = inr s -> lookup s fs = Some (File d) ->
  Path.endswith_sep p = false.
Proof.
  intros Hn Hl.
  destruct (file_path_shape p fs s d Hn Hl) as (sp & Hs & Hvt & Hsp & Hcase).
  destruct (valid_name_inv _ Hvt) as (Htne & Hts & _).
  destruct Hcase as [[Hns _]|(h & Ha & _)].
  - now apply endswith_sep_nosep.
  - rewrite Ha, endswith_sep_app by discriminate.
    cbn [Path.endswith_sep].
    destruct (Path.tail_raw p) as [|c0 s0]; [now contradiction Htne|].
    now apply endswith_sep_nosep.
Qed.

(** What [rename_file] joins the new name to resolves to the
    directory of the file. *)
Lemma sibling_resolves p fs s d new_name :
  namei p fs = inr s -> lookup s fs = Some (File d) ->
  valid_name new_name = true ->
  exists sp,
    s = sp ++ [tail_raw p]
    /\ is_dir_node (lookup sp fs) = true
    /\ namei (join (fst (split p)) new_name) fs = inr (sp ++ [new_name]).
Proof.
  intros Hn Hl Hv.
  destruct (file_path_shape p fs s d Hn Hl) as (sp & Hs & Hvt & Hsp & Hcase).
  exists sp. split; [exact Hs|]. split; [exact Hsp|].
  destruct (valid_name_inv new_name Hv) as (Hne & Hns & _).
  pose proof (namei_root_dir p fs s Hn) as Hroot.
  assert (Hfinish : forall q,
            namei_from fs [] (components q) = inr sp ->
            namei (q ++ String sep new_name) fs = inr (sp ++ [new_name])).
  { intros q Hq. unfold namei.
    replace (String.eqb (q ++ String sep new_name) "") with false
      by (destruct q; reflexivity).
    rewrite components_sep_app, (components_nosep _ Hns), namei_from_app, Hq.
    cbn [namei_from].
    destruct (lookup sp fs) as [[?|?]|]; try discriminate.
    now rewrite (step_valid sp new_name Hv). }
  destruct Hcase as [[Hns' ->]|(h & Hp & Hh & Hc)].
  - unfold split. rewrite (head_raw_nosep p Hns'). cbn [fst String.eqb negb andb].
    unfold join. rewrite (nosep_not_startswith _ Hns). cbn [String.eqb orb].
    cbn [append]. unfold namei.
    replace (String.eqb new_name "") with false
      by (symmetry; now apply String.eqb_neq).
    rewrite (components_nosep _ Hns). cbn [namei_from lookup].
    destruct fs as [?|es]; [discriminate|].
    now rewrite (step_valid [] new_name Hv).
  - unfold split. rewrite Hh.
    replace (String.eqb (h ++ String sep "") "") with false
      by (destruct h; reflexivity).
    cbn [negb andb].
    destruct (all_sep (h ++ String sep "")) eqn:Ea; cbn [negb fst].
    + unfold join. rewrite (nosep_not_startswith _ Hns).
      rewrite endswith_sep_snoc, orb_true_r.
      rewrite app_string_assoc. cbn [append]. now apply Hfinish.
    + set (r := rstrip_sep (h ++ String sep "")).
      destruct (rstrip_decomp (h ++ String sep "")) as [k Hk]. fold r in Hk.
      assert (Hr : r <> "").
      { intros E. apply rstrip_empty_all_sep in E. congruence. }
      pose proof (rstrip_no_trailing (h ++ String sep "")) as Hnt. fold r in Hnt.
      destruct k as [|k].
      { cbn [seps] in Hk. rewrite app_string_nil in Hk.
        rewrite <- Hk, endswith_sep_snoc in Hnt. discriminate. }
      unfold join. rewrite (nosep_not_startswith _ Hns), Hnt, orb_false_r.
      replace (String.eqb r "") with false
        by (symmetry; now apply String.eqb_neq).
      apply Hfinish.
      assert (Hcomp : components h ++ [""] = components r ++ repeat "" (S k)).
      { rewrite <- components_seps. cbn [seps] in Hk. rewrite <- Hk.
        now rewrite components_sep_app. }
      replace (repeat "" (S k)) with (repeat "" k ++ [""]) in Hcomp
        by (now rewrite <- repeat_cons).
      rewrite app_assoc in Hcomp. apply app_inj_tail in Hcomp as [Hcomp _].
      rewrite Hcomp, namei_from_app in Hc.
      destruct (namei_from fs [] (components r)) as [e|c]; [discriminate|].
      now rewrite (namei_from_empties fs c k sp Hc).
Qed.

End TargetFacts.

Import SplitFacts TargetFacts.

(** ** Renaming a file *)

(** X10.  [rename_file] works in the directory of the file.  A free
    new name gets the file with its content, the old name is gone and
    nothing else changes.  A name held by a regular file, the file's
    own name included, raises the guard's error; a name held by a
    directory raises IsADirectoryError; in both cases the tree is
    unchanged. *)
Theorem rename_file_in_directory (file_path new_name : string) (fs : node)
  (d : list byte) :
  stat file_path fs = inr (File d) ->
  Path.valid_name new_name = true ->
  exists sp,
    namei file_path fs = inr (sp ++ [Path.basename file_path])
    /\ (kind_at (sp ++ [new_name]) fs = None ->
        exists fs',
          rename_file file_path new_name fs = (Ok tt, fs')
          /\ forall q, kind_at q fs' =
               if path_eqb (sp ++ [new_name]) q then Some (KFile d)
               else if path_eqb (sp ++ [Path.basename file_path]) q then None
               else kind_at q fs)
    /\ (forall d', kind_at (sp ++ [new_name]) fs = Some (KFile d') ->
          rename_file file_path new_name fs = (Raise already_exists, fs))
    /\ (kind_at (sp ++ [new_name]) fs = Some KDir ->
          rename_file file_path new_name fs = (Raise IsADirectoryError, fs))
    /\ rename_file file_path (Path.basename file_path) fs
       = (Raise already_exists, fs).
Proof.
  intros Hst Hv.
  assert (Hf : isfile file_path fs = true).
  { unfold isfile. now rewrite Hst. }
  destruct (isfile_inv file_path fs Hf) as (s & d0 & Hn & Hl).
  assert (d0 = d).
  { unfold stat in Hst. rewrite Hn, Hl in Hst. congruence. }
  subst d0.
  destruct (sibling_resolves file_path fs s d new_name Hn Hl Hv)
    as (sp & Hs & Hsp & Hto).
  unfold Path.basename. exists sp. subst s. split; [exact Hn|].
  assert (Hunfold : forall name,
            rename_file file_path name fs
            = bind (query (isfile (Path.join (fst (Path.split file_path)) name)))
                (fun is_file : bool =>
                   if is_file then raise already_exists
                   else rename file_path
                          (Path.join (fst (Path.split file_path)) name)) fs).
  { intros name. unfold rename_file.
    now destruct (Path.split file_path) as [head tail]. }
  split; [|split; [|split]].
  - intros Hfree. apply kind_none_lookup in Hfree.
    destruct (rename_file_to_free file_path
                (Path.join (fst (Path.split file_path)) new_name) fs
                (sp ++ [Path.tail_raw file_path]) sp new_name d
                Hn Hl Hto Hfree Hsp) as (fs' & Hr & Hk).
    exists fs'. split; [|exact Hk].
    rewrite Hunfold. unfold bind, query.
    replace (isfile (Path.join (fst (Path.split file_path)) new_name) fs)
      with false by (unfold isfile, stat; now rewrite Hto, Hfree).
    exact Hr.
  - intros d' Hd'. apply lookup_of_kind_file in Hd'.
    rewrite Hunfold. unfold bind, query.
    now rewrite (isfile_intro _ fs _ d' Hto Hd').
  - intros Hdir. rewrite Hunfold. unfold bind, query.
    unfold kind_at in Hdir.
    destruct (lookup (sp ++ [new_name]) fs) as [[?|es]|] eqn:El;
      try discriminate.
    replace (isfile (Path.join (fst (Path.split file_path)) new_name) fs)
      with false by (unfold isfile, stat; now rewrite Hto, El).
    unfold rename. rewrite Hn, Hto, Hl, El.
    rewrite path_eqb_neq; [reflexivity|].
    intros E. rewrite E, El in Hl. discriminate.
  - destruct (file_path_shape file_path fs _ d Hn Hl) as (sp' & Hs' & Hvt & _).
    destruct (sibling_resolves file_path fs _ d (Path.tail_raw file_path)
                Hn Hl Hvt) as (sp2 & Hs2 & _ & Hto2).
    apply app_inj_tail in Hs2 as [<- _].
    rewrite Hunfold. unfold bind, query.
    now rewrite (isfile_intro _ fs _ d Hto2 Hl).
Qed.

Lemma rename_file_in_directory_witness :
  exists sp,
    namei "/root/a.txt" tree_two_levels
    = inr (sp ++ [Path.basename "/root/a.txt"])
    /\ (kind_at (sp ++ ["c.txt"]) tree_two_levels = None ->
        exists fs',
          rename_file "/root/a.txt" "c.txt" tree_two_levels = (Ok tt, fs')
          /\ forall q, kind_at q fs' =
               if path_eqb (sp ++ ["c.txt"]) q then Some (KFile [x61])
               else if path_eqb (sp ++ [Path.basename "/root/a.txt"]) q
                    then None
               else kind_at q tree_two_levels)
    /\ (forall d', kind_at (sp ++ ["c.txt"]) tree_two_levels
                   = Some (KFile d') ->
          rename_file "/root/a.txt" "c.txt" tree_two_levels
          = (Raise already_exists, tree_two_levels))
    /\ (kind_at (sp ++ ["c.txt"]) tree_two_levels = Some KDir ->
          rename_file "/root/a.txt" "c.txt" tree_two_levels
          = (Raise IsADirectoryError, tree_two_levels))
    /\ rename_file "/root/a.txt" (Path.basename "/root/a.txt") tree_two_levels
       = (Raise already_exists, tree_two_levels).
Proof.
  apply (rename_file_in_directory "/root/a.txt" "c.txt" tree_two_levels
           [x61]); reflexivity.
Defined.

(** ** Moving a file into a directory *)

(** X11.  [move_file] of a regular file to an existing directory
    moves it into the directory under its own name when that name is
    free there.  When the name is taken there, by a file or by a
    directory, [shutil.move] raises its own Error, not the guard's, and
    the tree is unchanged. *)
Theorem move_file_into_directory (a dir : string) (fs : node)
  (d : list byte) :
  stat a fs = inr (File d) -> isdir dir fs = true ->
  exists s t,
    namei a fs = inr s /\ namei dir fs = inr t
    /\ (kind_at (t ++ [Path.basename a]) fs = None ->
        exists fs',
          move_file a dir fs = (Ok tt, fs')
          /\ forall q, kind_at q fs' =
               if path_eqb (t ++ [Path.basename a]) q then Some (KFile d)
               else if path_eqb s q then None
               else kind_at q fs)
    /\ (kind_at (t ++ [Path.basename a]) fs <> None ->
        move_file a dir fs
        = (Raise (ShutilError "Destination path already exists"), fs)).
Proof.
  intros Hst Hdir.
  assert (Hf : isfile a fs = true).
  { unfold isfile. now rewrite Hst. }
  destruct (isfile_inv a fs Hf) as (s & d0 & Hn & Hl).
  assert (d0 = d).
  { unfold stat in Hst. rewrite Hn, Hl in Hst. congruence. }
  subst d0.
  destruct (isdir_inv dir fs Hdir) as (t & es & Ht & Hlt).
  destruct (file_path_shape a fs s d Hn Hl) as (sp & Hs & Hvt & Hsp & Hcase).
  destruct (valid_name_inv _ Hvt) as (Htne & Hts & _).
  pose proof (file_path_clean a fs s d Hn Hl) as Hnt.
  assert (Hbase : shutil_basename a = Path.tail_raw a).
  { unfold shutil_basename, Path.basename. now rewrite (rstrip_id a Hnt). }
  assert (Hreal : namei (Path.join dir (shutil_basename a)) fs
                  = inr (t ++ [Path.tail_raw a])).
  { rewrite Hbase, <- (step_valid t _ Hvt).
    apply namei_join; auto. now rewrite Hlt. }
  assert (Hsame : samefile a dir fs = false).
  { unfold samefile. rewrite Hn, Ht.
    rewrite path_eqb_neq; [reflexivity|].
    intros E. rewrite E, Hlt in Hl. discriminate. }
  assert (Hunfold : move_file a dir fs
            = bind (query (exists_ (Path.join dir (shutil_basename a))))
                (fun there : bool =>
                   if there
                   then raise (ShutilError "Destination path already exists")
                   else try_except_OSError
                          (rename a (Path.join dir (shutil_basename a)))
                          (bind (query (isdir a)) (fun src_is_dir : bool =>
                             if src_is_dir then
                               if destinsrc a dir
                               then raise (ShutilError
                                      "Cannot move a directory into itself")
                               else copytree_rmtree a
                                      (Path.join dir (shutil_basename a))
                             else bind (copy2 a
                                      (Path.join dir (shutil_basename a)))
                                    (fun _ => remove a)))) fs).
  { unfold move_file, bind at 1, query at 1.
    rewrite (isdir_not_isfile dir fs Hdir).
    unfold shutil_move, bind at 1, query at 1. rewrite Hdir.
    unfold bind at 1, query at 1. rewrite Hsame. reflexivity. }
  unfold Path.basename. exists s, t.
  split; [exact Hn|]. split; [exact Ht|]. split.
  - intros Hfree. apply kind_none_lookup in Hfree.
    destruct (rename_file_to_free a (Path.join dir (shutil_basename a)) fs
                s t (Path.tail_raw a) d Hn Hl Hreal Hfree
                ltac:(now rewrite Hlt)) as (fs' & Hr & Hk).
    exists fs'. split; [|exact Hk].
    rewrite Hunfold. unfold bind at 1, query at 1.
    replace (exists_ (Path.join dir (shutil_basename a)) fs) with false
      by (unfold exists_, stat; now rewrite Hreal, Hfree).
    unfold try_except_OSError. now rewrite Hr.
  - intros Htaken. rewrite Hunfold. unfold bind at 1, query at 1.
    replace (exists_ (Path.join dir (shutil_basename a)) fs) with true;
      [reflexivity|].
    unfold exists_, stat. rewrite Hreal. unfold kind_at in Htaken.
    destruct (lookup (t ++ [Path.tail_raw a]) fs); [reflexivity|].
    now contradiction Htaken.
Qed.

Lemma move_file_into_directory_witness :
  exists s t,
    namei "/root/a.txt" tree_two_levels = inr s
    /\ namei "/dest/" tree_two_levels = inr t
    /\ (kind_at (t ++ [Path.basename "/root/a.txt"]) tree_two_levels = None ->
        exists fs',
          move_file "/root/a.txt" "/dest/" tree_two_levels = (Ok tt, fs')
          /\ forall q, kind_at q fs' =
               if path_eqb (t ++ [Path.basename "/root/a.txt"]) q
               then Some (KFile [x61])
               else if path_eqb s q then None
               else kind_at q tree_two_levels)
    /\ (kind_at (t ++ [Path.basename "/root/a.txt"]) tree_two_levels <> None ->
        move_file "/root/a.txt" "/dest/" tree_two_levels
        = (Raise (ShutilError "Destination path already exists"),
           tree_two_levels)).
Proof.
  apply (move_file_into_directory "/root/a.txt" "/dest/" tree_two_levels
           [x61]); reflexivity.
Defined.

(** ** Subtrees and paths that only go down *)

Module TreeFacts.
Import Path.

Lemma is_prefix_trans p q r :
  is_prefix p q = true -> is_prefix q r = true -> is_prefix p r = true.
Proof.
  intros H1 H2. apply is_prefix_spec in H1 as [a ->].
  apply is_prefix_spec in H2 as [b ->].
  rewrite <- app_assoc. apply is_prefix_app.
Qed.

Lemma skipn_length_app {A} (p r : list A) : skipn (List.length p) (p ++ r) = r.
Proof. induction p; simpl; auto. Qed.

(** Rebinding a name changes what the paths through it denote and
    nothing else. *)
Lemma kind_set_at p v n n' :
  set_at p v n = Some n' ->
  forall q, kind_at q n' =
    if is_prefix p q then
      match v with
      | Some m => kind_at (skipn (List.length p) q) m
      | None => None
      end
    else kind_at q n.
Proof.
  intros H q. unfold kind_at.
  destruct (is_prefix p q) eqn:Hpq.
  - apply is_prefix_spec in Hpq as [r ->].
    rewrite (lookup_set_at_below p v n n' r H), skipn_length_app.
    now destruct v.
  - destruct (is_prefix q p) eqn:Hqp.
    + assert (q <> p).
      { intros ->. rewrite is_prefix_refl in Hpq. discriminate. }
      destruct (lookup_set_at_above p v n n' q H Hqp) as [H1 H2]; auto.
      now rewrite (kind_of_dir _ H1), (kind_of_dir _ H2).
    + now rewrite (lookup_set_at_other p v n n' q H Hpq Hqp).
Qed.

Lemma is_prefix_own_tail p k r : is_prefix (p ++ k :: r) p = false.
Proof.
  destruct (is_prefix (p ++ k :: r) p) eqn:E; auto.
  apply is_prefix_spec in E as [x E].
  apply (f_equal (@List.length _)) in E.
  rewrite !length_app in E. simpl in E. lia.
Qed.

Lemma path_eqb_prefix p q : path_eqb p q = true -> is_prefix p q = true.
Proof. unfold path_eqb. now intros [H _]%andb_true_iff. Qed.

(** What [rmtree] leaves of a directory before it removes it. *)
Lemma emptied_kind s fs es :
  lookup s fs = Some (Dir es) -> anchored fs s ->
  lookup s (emptied s fs) = Some (Dir [])
  /\ forall q, kind_at q (emptied s fs) =
       if path_eqb s q then Some KDir
       else if is_prefix s q then None
       else kind_at q fs.
Proof.
  intros Hl [->|(d & k & -> & Hd)].
  - cbn [emptied]. split; [reflexivity|]. intros [|c q]; reflexivity.
  - destruct (set_at_some d k (Some (Dir [])) fs Hd) as [fs1 H1].
    assert (E : emptied (d ++ [k]) fs = fs1).
    { unfold emptied. rewrite H1. now destruct (d ++ [k]) eqn:E; [destruct d|]. }
    rewrite E. split; [apply (lookup_set_at_same _ _ _ _ H1)|].
    intros q. rewrite (kind_set_at _ _ _ _ H1 q).
    destruct (is_prefix (d ++ [k]) q) eqn:Hp.
    + apply is_prefix_spec in Hp as [r ->]. rewrite skipn_length_app.
      destruct r as [|c r].
      * now rewrite app_nil_r, path_eqb_refl.
      * now rewrite path_eqb_below.
    + destruct (path_eqb (d ++ [k]) q) eqn:Eq; [|reflexivity].
      apply path_eqb_prefix in Eq. congruence.
Qed.

(** Without [..] a resolution only goes down. *)
Lemma step_down cur c : c <> ".." -> is_prefix cur (step cur c) = true.
Proof.
  intros H. unfold step.
  destruct (String.eqb c "" || String.eqb c ".")%bool;
    [apply is_prefix_refl|].
  apply String.eqb_neq in H. rewrite H. apply is_prefix_app.
Qed.

Lemma namei_from_down fs cur cs r :
  ~ In ".." cs -> namei_from fs cur cs = inr r -> is_prefix cur r = true.
Proof.
  revert cur. induction cs as [|c cs IH]; intros cur Hn H; simpl in H.
  - injection H as <-. apply is_prefix_refl.
  - destruct (lookup cur fs) as [[d|es]|]; try discriminate.
    apply is_prefix_trans with (q := step cur c).
    + apply step_down. intros ->. apply Hn. now left.
    + apply IH; auto. intros Hin. apply Hn. now right.
Qed.

(** Such a resolution asks only about the places above its result. *)
Lemma namei_from_along fs fs' cur cs r :
  ~ In ".." cs -> namei_from fs cur cs = inr r ->
  (forall q, is_prefix q r = true -> is_dir_node (lookup q fs) = true ->
             is_dir_node (lookup q fs') = true) ->
  namei_from fs' cur cs = inr r.
Proof.
  revert cur. induction cs as [|c cs IH]; intros cur Hn H Hd;
    [exact H|].
  pose proof (namei_from_down fs cur (c :: cs) r Hn H) as Hcur.
  simpl in *. pose proof (Hd cur Hcur) as Hc.
  destruct (lookup cur fs) as [[d|es]|]; try discriminate.
  specialize (Hc eq_refl).
  destruct (lookup cur fs') as [[d'|es']|]; try discriminate.
  apply IH; auto.
Qed.

Lemma namei_along fs fs' p r :
  ~ In ".." (components p) -> namei p fs = inr r ->
  (forall q, is_prefix q r = true -> is_dir_node (lookup q fs) = true ->
             is_dir_node (lookup q fs') = true) ->
  namei p fs' = inr r.
Proof.
  unfold namei. destruct (String.eqb p ""); [discriminate|].
  apply namei_from_along.
Qed.

(** A path whose last component is a proper name resolves to a place
    of that name. *)
Lemma last_name_shape p fs s :
  namei p fs = inr s -> valid_name (last_component p) = true ->
  exists sp, s = sp ++ [last_component p].
Proof.
  unfold last_component, namei. intros Hn Hv.
  destruct (String.eqb p ""); [discriminate|].
  destruct (rstrip_decomp p) as [k Hk].
  set (r := rstrip_sep p) in *.
  pose proof (has_sep_tail_raw r) as Hts.
  assert (Hr : exists pre, components r = pre ++ [tail_raw r]).
  { destruct (has_sep r) eqn:Es.
    - destruct (split_raw r Es) as (h & Hh & _). exists (components h).
      rewrite Hh at 1.
      now rewrite components_sep_app, (components_nosep _ Hts).
    - exists []. now rewrite (components_nosep r Es), (tail_raw_nosep r Es). }
  destruct Hr as [pre Hpre].
  assert (Hc : exists j, components p = pre ++ tail_raw r :: repeat "" j).
  { destruct k as [|k].
    - exists O. cbn [seps] in Hk. rewrite app_string_nil in Hk.
      now rewrite Hk, Hpre.
    - exists (S k). rewrite Hk. cbn [seps].
      now rewrite components_seps, Hpre, <- app_assoc. }
  destruct Hc as [j Hj]. rewrite Hj, namei_from_app in Hn.
  destruct (namei_from fs [] pre) as [e|c]; [discriminate|].
  cbn [namei_from] in Hn.
  destruct (lookup c fs) as [[?|?]|]; try discriminate.
  rewrite (step_valid c _ Hv) in Hn.
  apply namei_from_empties in Hn. now exists c.
Qed.

Lemma all_sep_is_seps p : all_sep p = true -> exists k, p = seps k.
Proof.
  induction p as [|c p IH]; [now exists O|].
  cbn [all_sep]. intros [Hc Hp]%andb_true_iff.
  apply is_sep_eq in Hc. subst c. destruct (IH Hp) as [k ->].
  now exists (S k).
Qed.

Lemma rstrip_seps k : rstrip_sep (seps k) = "".
Proof.
  induction k as [|k IH]; [reflexivity|].
  cbn [seps rstrip_sep]. now rewrite IH.
Qed.

Lemma no_dotdot_repeat k : ~ In ".." (repeat "" k).
Proof. intros H. apply repeat_spec in H. discriminate. Qed.

(** The root, however many separators spell it. *)
Lemma namei_seps k fs s : namei (seps k) fs = inr s -> s = [].
Proof.
  unfold namei. destruct (String.eqb (seps k) ""); [discriminate|].
  rewrite components_of_seps. apply namei_from_empties.
Qed.

End TreeFacts.

Import TreeFacts.

(** ** Deleting a folder *)

Lemma delete_folder_on_dir p fs :
  isdir p fs = true ->
  exists s es,
    namei p fs = inr s /\ lookup s fs = Some (Dir es)
    /\ delete_folder p fs = rmdir p (emptied s fs).
Proof.
  intros Hd. destruct (isdir_inv p fs Hd) as (s & es & Hn & Hl).
  exists s, es. split; [exact Hn|]. split; [exact Hl|].
  unfold delete_folder, bind, query. rewrite Hd.
  unfold rmtree. now rewrite Hn, Hl.
Qed.

(** The emptied directory is found again by a path that only goes
    down. *)
Lemma namei_emptied p fs s es :
  ~ In ".." (Path.components p) ->
  namei p fs = inr s -> lookup s fs = Some (Dir es) ->
  namei p (emptied s fs) = inr s.
Proof.
  intros Hdd Hn Hl.
  destruct (emptied_kind s fs es Hl (namei_anchored p fs s Hn)) as [He Hk].
  apply (namei_along fs); auto.
  intros q Hq Hdir.
  destruct (path_eqb s q) eqn:E.
  - apply path_eqb_eq in E. subst q. now rewrite He.
  - apply kind_of_is_dir. apply kind_of_is_dir in Hdir.
    fold (kind_at q (emptied s fs)). rewrite Hk, E.
    replace (is_prefix s q) with false; [exact Hdir|].
    symmetry. destruct (is_prefix s q) eqn:Hp; auto.
    unfold path_eqb in E. now rewrite Hp, Hq in E.
Qed.

(** X12.  [delete_folder] on a directory, given by a path without
    [..] whose last component is a name, removes the directory with
    everything below it and nothing else; a second call finds no
    directory and does nothing. *)
Theorem delete_folder_removes_tree (folder_path : string) (fs : node) :
  isdir folder_path fs = true ->
  Path.valid_name (last_component folder_path) = true ->
  ~ In ".." (Path.components folder_path) ->
  exists s fs',
    namei folder_path fs = inr s
    /\ delete_folder folder_path fs = (Ok tt, fs')
    /\ (forall q, kind_at q fs' =
          if is_prefix s q then None else kind_at q fs)
    /\ delete_folder folder_path fs' = (Ok tt, fs').
Proof.
  intros Hd Hv Hdd.
  destruct (delete_folder_on_dir folder_path fs Hd) as (s & es & Hn & Hl & Hrun).
  pose proof (namei_anchored folder_path fs s Hn) as Ha.
  destruct (emptied_kind s fs es Hl Ha) as [He Hk].
  pose proof (namei_emptied folder_path fs s es Hdd Hn Hl) as Hn1.
  destruct (last_name_shape folder_path fs s Hn Hv) as [sp Hs].
  destruct (valid_name_inv _ Hv) as (_ & _ & Hdot & Hdotdot).
  apply String.eqb_neq in Hdot, Hdotdot.
  assert (Hsp : is_dir_node (lookup sp (emptied s fs)) = true).
  { apply (lookup_above_dir sp (last_component folder_path) []).
    rewrite <- Hs, He. discriminate. }
  destruct (set_at_some sp (last_component folder_path) None _ Hsp)
    as [fs' Hset].
  rewrite <- Hs in Hset.
  assert (Hrm : rmdir folder_path (emptied s fs) = (Ok tt, fs')).
  { unfold rmdir. rewrite Hn1, Hdot, Hdotdot, He.
    destruct s as [|c s']; [now destruct sp|].
    unfold store. now rewrite Hset. }
  assert (Hkind : forall q, kind_at q fs' =
                            if is_prefix s q then None else kind_at q fs).
  { intros q. rewrite (kind_set_at _ _ _ _ Hset q).
    destruct (is_prefix s q) eqn:Hp; [reflexivity|].
    rewrite Hk, Hp.
    destruct (path_eqb s q) eqn:E; [|reflexivity].
    apply path_eqb_prefix in E. congruence. }
  exists s, fs'. split; [exact Hn|]. split; [now rewrite Hrun|].
  split; [exact Hkind|].
  unfold delete_folder, bind, query.
  replace (isdir folder_path fs') with false; [reflexivity|].
  symmetry. unfold isdir, stat.
  destruct (namei folder_path fs') as [e|t] eqn:Hn'; [reflexivity|].
  assert (Ht : namei folder_path fs = inr t).
  { apply (namei_ext fs'); auto. intros q Hq.
    apply kind_of_is_dir. apply kind_of_is_dir in Hq.
    fold (kind_at q fs') in Hq. fold (kind_at q fs).
    rewrite Hkind in Hq. now destruct (is_prefix s q). }
  assert (t = s) by congruence. subst t.
  pose proof (Hkind s) as K. rewrite is_prefix_refl in K.
  now rewrite (kind_none_lookup _ _ K).
Qed.

Lemma delete_folder_removes_tree_witness :
  exists s fs',
    namei "/root/sub/" tree_two_levels = inr s
    /\ delete_folder "/root/sub/" tree_two_levels = (Ok tt, fs')
    /\ (forall q, kind_at q fs' =
          if is_prefix s q then None else kind_at q tree_two_levels)
    /\ delete_folder "/root/sub/" fs' = (Ok tt, fs').
Proof.
  apply (delete_folder_removes_tree "/root/sub/" tree_two_levels);
    [reflexivity | reflexivity |].
  cbn. intros [H|[H|[H|[H|[]]]]]; discriminate.
Defined.

(** X13.  [delete_folder] on a directory given by a path that ends
    in [.], or by the root path, empties the directory and then raises
    the OSError of [os.rmdir]: everything below is gone, the directory
    itself stays, and nothing else changes. *)
Theorem delete_folder_empties_then_fails (folder_path : string) (fs : node) :
  isdir folder_path fs = true ->
  last_component folder_path = "." \/ Path.all_sep folder_path = true ->
  ~ In ".." (Path.components folder_path) ->
  exists s msg fs',
    namei folder_path fs = inr s
    /\ delete_folder folder_path fs = (Raise (OSError msg), fs')
    /\ forall q, kind_at q fs' =
         if path_eqb s q then Some KDir
         else if is_prefix s q then None
         else kind_at q fs.
Proof.
  intros Hd Hlast Hdd.
  destruct (delete_folder_on_dir folder_path fs Hd) as (s & es & Hn & Hl & Hrun).
  pose proof (namei_anchored folder_path fs s Hn) as Ha.
  destruct (emptied_kind s fs es Hl Ha) as [He Hk].
  pose proof (namei_emptied folder_path fs s es Hdd Hn Hl) as Hn1.
  destruct Hlast as [Hdot|Hroot].
  - exists s, "[Errno 22] Invalid argument", (emptied s fs).
    split; [exact Hn|]. split; [|exact Hk].
    rewrite Hrun. unfold rmdir. now rewrite Hn1, Hdot.
  - exists s, "[Errno 16] Device or resource busy", (emptied s fs).
    split; [exact Hn|]. split; [|exact Hk].
    destruct (all_sep_is_seps _ Hroot) as [k Ek].
    assert (s = []) by (rewrite Ek in Hn; now apply namei_seps in Hn).
    assert (Hlc : last_component folder_path = "").
    { unfold last_component. now rewrite Ek, rstrip_seps. }
    subst s. rewrite Hrun. unfold rmdir. now rewrite Hn1, Hlc.
Qed.

Lemma delete_folder_empties_then_fails_witness :
  exists s msg fs',
    namei "/root/sub/." tree_two_levels = inr s
    /\ delete_folder "/root/sub/." tree_two_levels
       = (Raise (OSError msg), fs')
    /\ forall q, kind_at q fs' =
         if path_eqb s q then Some KDir
         else if is_prefix s q then None
         else kind_at q tree_two_levels.
Proof.
  apply (delete_folder_empties_then_fails "/root/sub/." tree_two_levels);
    [reflexivity | now left |].
  cbn. intros [H|[H|[H|[H|[]]]]]; discriminate.
Defined.

(** ** The recursion of [os.makedirs] *)

Module MakedirsFacts.
Import Path.

(** *** The head is shorter than the name *)

Lemma length_rstrip s : String.length (rstrip_sep s) <= String.length s.
Proof.
  induction s as [|c s IH]; [reflexivity|].
  cbn [rstrip_sep]. destruct (rstrip_sep s) as [|c' r].
  - destruct (is_sep c); cbn [String.length] in *; lia.
  - cbn [String.length] in *. lia.
Qed.

Lemma length_head_tail s :
  String.length (head_raw s) + String.length (tail_raw s) = String.length s.
Proof.
  induction s as [|c s IH]; [reflexivity|].
  cbn [head_raw tail_raw]. destruct (has_sep (String c s)).
  - cbn [String.length]. lia.
  - cbn [String.length]. lia.
Qed.

Lemma split_snd p : snd (split p) = tail_raw p.
Proof.
  unfold split.
  now destruct (negb (String.eqb (head_raw p) "") && negb (all_sep (head_raw p))).
Qed.

Lemma split_fst p : fst (split p) = dirname p.
Proof.
  unfold split, dirname.
  now destruct (negb (String.eqb (head_raw p) "") && negb (all_sep (head_raw p))).
Qed.

Lemma length_dirname p :
  String.length (dirname p) + String.length (tail_raw p) <= String.length p.
Proof.
  pose proof (length_head_tail p). pose proof (length_rstrip (head_raw p)).
  unfold dirname.
  destruct (negb (String.eqb (head_raw p) "") && negb (all_sep (head_raw p)));
    lia.
Qed.

Lemma length_not_empty s : s <> "" -> 0 < String.length s.
Proof. destruct s; [congruence|]. cbn. lia. Qed.

(** What [makedirs] takes for head and tail. *)
Lemma head_shorter name :
  let ht := if String.eqb (snd (split name)) ""
            then split (fst (split name)) else split name in
  snd ht <> "" -> String.length (fst ht) < String.length name.
Proof.
  cbn zeta. rewrite !split_snd, !split_fst.
  destruct (String.eqb (tail_raw name) "") eqn:E.
  - rewrite split_snd, split_fst. intros H%length_not_empty.
    pose proof (length_dirname (dirname name)).
    pose proof (length_dirname name). lia.
  - rewrite split_snd, split_fst. intros H%length_not_empty.
    pose proof (length_dirname name). lia.
Qed.

(** *** The recursion of [makedirs] *)

Lemma makedirs_from_S fuel name fs :
  makedirs_from (S fuel) name fs =
  let ht := if String.eqb (snd (split name)) ""
            then split (fst (split name)) else split name in
  if negb (String.eqb (fst ht) "") && negb (String.eqb (snd ht) "")
     && negb (exists_ (fst ht) fs)
  then
    match makedirs_from fuel (fst ht) fs with
    | (Ok _, fs1) =>
        if String.eqb (snd ht) "." then (Ok tt, fs1) else mkdir name fs1
    | (Raise e, fs1) =>
        if is_already_exists e
        then if String.eqb (snd ht) "." then (Ok tt, fs1) else mkdir name fs1
        else (Raise e, fs1)
    end
  else mkdir name fs.
Proof.
  cbn [makedirs_from]. destruct (split name) as [h t]. cbn [fst snd].
  destruct (String.eqb t "").
  - destruct (split h) as [h' t']. cbn [fst snd].
    unfold bind, query, try_except_FileExistsError, ret.
    destruct (negb (String.eqb h' "") && negb (String.eqb t' "")
              && negb (exists_ h' fs)); [|reflexivity].
    destruct (makedirs_from fuel h' fs) as [[[]|e] fs1];
      [now destruct (String.eqb t' ".")|].
    destruct (is_already_exists e); [|reflexivity].
    now destruct (String.eqb t' ".").
  - cbn [fst snd].
    unfold bind, query, try_except_FileExistsError, ret.
    destruct (negb (String.eqb h "") && negb (String.eqb t "")
              && negb (exists_ h fs)); [|reflexivity].
    destruct (makedirs_from fuel h fs) as [[[]|e] fs1];
      [now destruct (String.eqb t ".")|].
    destruct (is_already_exists e); [|reflexivity].
    now destruct (String.eqb t ".").
Qed.

(** The fuel never runs out: more of it changes nothing. *)
Lemma makedirs_from_more n :
  forall m name fs,
    String.length name <= n -> String.length name <= m ->
    makedirs_from n name fs = makedirs_from m name fs.
Proof.
  induction n as [|n IH]; intros m name fs Hn Hm.
  - destruct name; [|cbn in Hn; lia]. now destruct m.
  - destruct m as [|m].
    + destruct name; [|cbn in Hm; lia]. reflexivity.
    + rewrite !makedirs_from_S. cbn zeta.
      pose proof (head_shorter name) as Hs. cbn zeta in Hs.
      set (ht := if String.eqb (snd (split name)) ""
                 then split (fst (split name)) else split name) in *.
      destruct (String.eqb (snd ht) "") eqn:Et.
      { now rewrite andb_false_r. }
      apply String.eqb_neq in Et. specialize (Hs Et).
      rewrite (IH m (fst ht) fs) by lia. reflexivity.
Qed.

Lemma makedirs_eq name fs :
  makedirs name fs =
  let ht := if String.eqb (snd (split name)) ""
            then split (fst (split name)) else split name in
  if negb (String.eqb (fst ht) "") && negb (String.eqb (snd ht) "")
     && negb (exists_ (fst ht) fs)
  then
    match makedirs (fst ht) fs with
    | (Ok _, fs1) =>
        if String.eqb (snd ht) "." then (Ok tt, fs1) else mkdir name fs1
    | (Raise e, fs1) =>
        if is_already_exists e
        then if String.eqb (snd ht) "." then (Ok tt, fs1) else mkdir name fs1
        else (Raise e, fs1)
    end
  else mkdir name fs.
Proof.
  unfold makedirs at 1. destruct (String.length name) as [|f] eqn:El.
  - destruct name; [reflexivity | discriminate].
  - rewrite makedirs_from_S. cbn zeta.
    pose proof (head_shorter name) as Hs. cbn zeta in Hs.
    set (ht := if String.eqb (snd (split name)) ""
               then split (fst (split name)) else split name) in *.
    destruct (String.eqb (snd ht) "") eqn:Et.
    { now rewrite andb_false_r. }
    apply String.eqb_neq in Et. specialize (Hs Et).
    unfold makedirs.
    rewrite (makedirs_from_more f (String.length (fst ht)) (fst ht) fs)
      by lia.
    reflexivity.
Qed.

(** *** Heads of joined paths *)

Lemma head_raw_sep_app a b :
  has_sep b = false -> head_raw (a ++ String sep b) = (a ++ String sep "")%string.
Proof.
  intros Hb. induction a as [|c a IH].
  - cbn [append head_raw has_sep].
    replace (is_sep sep) with true by reflexivity. cbn [orb].
    now rewrite (head_raw_nosep b Hb).
  - change ((String c a ++ String sep b)%string)
      with (String c (a ++ String sep b)).
    cbn [head_raw has_sep]. rewrite has_sep_app. cbn [has_sep].
    replace (is_sep sep) with true by reflexivity.
    cbn [orb]. rewrite orb_true_r, orb_true_r. cbn [append]. now rewrite IH.
Qed.

Lemma all_sep_app a b : all_sep (a ++ b) = all_sep a && all_sep b.
Proof.
  induction a as [|c a IH]; [reflexivity|].
  cbn [append all_sep]. now rewrite IH, andb_assoc.
Qed.

Lemma all_sep_endswith s : s <> "" -> all_sep s = true -> endswith_sep s = true.
Proof.
  induction s as [|c s IH]; [congruence|]. intros _.
  cbn [all_sep endswith_sep]. intros [Hc Hs]%andb_true_iff.
  destruct s; [exact Hc|]. apply IH; [discriminate | exact Hs].
Qed.

Lemma rstrip_app_sep a : rstrip_sep (a ++ String sep "") = rstrip_sep a.
Proof.
  induction a as [|c a IH]; [reflexivity|].
  cbn [append rstrip_sep]. now rewrite IH.
Qed.

Lemma join_clean p x :
  p <> "" -> endswith_sep p = false -> has_sep x = false ->
  join p x = (p ++ String sep x)%string.
Proof.
  intros Hp He Hx. unfold join. rewrite (nosep_not_startswith _ Hx), He.
  apply String.eqb_neq in Hp. now rewrite Hp.
Qed.

Lemma dirname_sep_app a b :
  has_sep b = false ->
  dirname (a ++ String sep b) =
  if all_sep (a ++ String sep "") then (a ++ String sep "")%string
  else rstrip_sep a.
Proof.
  intros Hb. unfold dirname. rewrite (head_raw_sep_app a b Hb).
  replace (String.eqb (a ++ String sep "") "") with false
    by (now destruct a).
  cbn [negb andb].
  destruct (all_sep (a ++ String sep "")); cbn [negb]; [reflexivity|].
  apply rstrip_app_sep.
Qed.

(** The head of a path that does not end in a separator, once a name
    is joined to it, is the path. *)
Lemma dirname_clean p x :
  p <> "" -> endswith_sep p = false -> has_sep x = false ->
  dirname (p ++ String sep x) = p.
Proof.
  intros Hp He Hx. rewrite (dirname_sep_app p x Hx), all_sep_app.
  destruct (all_sep p) eqn:Ea.
  - rewrite (all_sep_endswith p Hp Ea) in He. discriminate.
  - cbn [andb]. now apply rstrip_id.
Qed.

(** Where the part before the last separator leads, the head leads. *)
Lemma dirname_resolves a b fs sp :
  has_sep b = false ->
  namei_from fs [] (components a) = inr sp ->
  is_dir_node (lookup sp fs) = true ->
  namei (dirname (a ++ String sep b)) fs = inr sp.
Proof.
  intros Hb Ha Hd. rewrite (dirname_sep_app a b Hb).
  destruct (all_sep (a ++ String sep "")) eqn:Es.
  - unfold namei.
    replace (String.eqb (a ++ String sep "") "") with false
      by (now destruct a).
    rewrite components_sep_app, namei_from_app, Ha.
    cbn [components namei_from].
    now destruct (lookup sp fs) as [[?|?]|].
  - rewrite all_sep_app in Es. cbn [all_sep] in Es.
    replace (is_sep sep) with true in Es by reflexivity.
    cbn [andb] in Es. rewrite andb_true_r in Es.
    destruct (rstrip_decomp a) as [k Hk].
    set (r := rstrip_sep a) in *.
    assert (Hr : r <> "").
    { intros E. apply rstrip_empty_all_sep in E. congruence. }
    unfold namei. apply String.eqb_neq in Hr. rewrite Hr.
    destruct k as [|k].
    + cbn [seps] in Hk. rewrite app_string_nil in Hk. now rewrite <- Hk.
    + rewrite Hk in Ha. cbn [seps] in Ha.
      rewrite components_seps, namei_from_app in Ha.
      destruct (namei_from fs [] (components r)) as [e|c]; [discriminate|].
      now rewrite (namei_from_empties fs c (S k) sp Ha).
Qed.

Lemma join_before p name fs cp :
  p <> "" -> has_sep name = false -> namei p fs = inr cp ->
  exists q, join p name = (q ++ String sep name)%string
            /\ namei_from fs [] (components q) = inr cp.
Proof.
  intros Hp Hs Hn. destruct (join_shape p name Hp Hs) as (q & Hq & Hc).
  exists q. split; [exact Hq|].
  unfold namei in Hn. apply String.eqb_neq in Hp. rewrite Hp in Hn.
  destruct Hc as [Hc|Hc]; rewrite Hc in Hn; [exact Hn|].
  rewrite namei_from_app in Hn.
  destruct (namei_from fs [] (components q)) as [e|c]; [discriminate|].
  cbn [namei_from] in Hn.
  destruct (lookup c fs) as [[?|?]|]; try discriminate. exact Hn.
Qed.

Lemma namei_not_empty p fs cp : namei p fs = inr cp -> p <> "".
Proof. intros H ->. discriminate. Qed.

(** The head of [join p name] leads where [p] leads. *)
Lemma dirname_join_resolves p name fs cp :
  namei p fs = inr cp -> is_dir_node (lookup cp fs) = true ->
  has_sep name = false ->
  namei (dirname (join p name)) fs = inr cp.
Proof.
  intros Hn Hd Hs.
  destruct (join_before p name fs cp (namei_not_empty p fs cp Hn) Hs Hn)
    as (q & -> & Hq).
  now apply dirname_resolves.
Qed.

(** Resolving [join p name] has resolved [p] on the way. *)
Lemma namei_join_inv p name fs t :
  p <> "" -> name <> "" -> has_sep name = false ->
  namei (join p name) fs = inr t ->
  exists c, namei p fs = inr c /\ is_dir_node (lookup c fs) = true
            /\ t = step c name.
Proof.
  intros Hp Hne Hs H.
  destruct (join_shape p name Hp Hs) as (q & Hq & Hc).
  unfold namei in *. rewrite Hq in H.
  replace (String.eqb (q ++ String sep name) "") with false in H
    by (now destruct q).
  apply String.eqb_neq in Hp. rewrite Hp.
  rewrite components_sep_app, (components_nosep _ Hs), namei_from_app in H.
  destruct (namei_from fs [] (components q)) as [e|c] eqn:Eq; [discriminate|].
  cbn [namei_from] in H.
  destruct (lookup c fs) as [[?|es]|] eqn:El; try discriminate.
  injection H as <-. exists c. split; [|split; [now rewrite El | reflexivity]].
  destruct Hc as [-> | ->]; [exact Eq|].
  rewrite namei_from_app, Eq. cbn [namei_from]. now rewrite El.
Qed.

(** *** Paths joined name by name *)

Lemma joined_cons top k rel : joined top (k :: rel) = joined (join top k) rel.
Proof. reflexivity. Qed.

Lemma namei_joined top rel fs cp :
  namei top fs = inr cp ->
  Forall (fun k => valid_name k = true) rel ->
  (forall a b, rel = a ++ b -> b <> [] ->
               is_dir_node (lookup (cp ++ a) fs) = true) ->
  namei (joined top rel) fs = inr (cp ++ rel).
Proof.
  intros Hn. induction rel as [|x rel IH] using rev_ind; intros Hv Hd.
  - now rewrite app_nil_r.
  - apply Forall_app in Hv as [Hv Hx]. inversion Hx as [|? ? Hxv _]; subst.
    destruct (valid_name_inv x Hxv) as (Hne & Hs & _).
    rewrite joined_snoc, app_assoc, <- (step_valid (cp ++ rel) x Hxv).
    apply namei_join; auto.
    + apply IH; auto. intros a b -> Hb.
      apply (Hd a (b ++ [x])); [now rewrite app_assoc|].
      now destruct b.
    + apply (Hd rel [x]); [reflexivity | discriminate].
Qed.

Lemma joined_clean top k rel :
  top <> "" -> Forall (fun k => valid_name k = true) (k :: rel) ->
  joined top (k :: rel) <> ""
  /\ endswith_sep (joined top (k :: rel)) = false.
Proof.
  intros Ht Hv. split; [now apply joined_not_empty|].
  destruct rel as [|x rel] using rev_ind.
  - cbn. apply join_valid_no_trailing_sep; auto.
    now inversion Hv.
  - rewrite app_comm_cons, joined_snoc.
    rewrite app_comm_cons in Hv. apply Forall_app in Hv as [Hv Hx].
    inversion Hx; subst.
    apply join_valid_no_trailing_sep; auto.
    now apply joined_not_empty.
Qed.

(** Below a free name nothing resolves to an entry. *)
Lemma joined_missing top k rel fs cp t :
  namei top fs = inr cp -> is_dir_node (lookup cp fs) = true ->
  Forall (fun k => valid_name k = true) (k :: rel) ->
  lookup (cp ++ [k]) fs = None ->
  namei (joined top (k :: rel)) fs = inr t -> lookup t fs = None.
Proof.
  intros Hn Hd Hv Hfree. revert t.
  induction rel as [|x rel IH] using rev_ind; intros t Ht.
  - inversion Hv as [|? ? Hk _]; subst.
    destruct (valid_name_inv k Hk) as (Hne & Hs & _).
    cbn in Ht. rewrite (namei_join top k fs cp Hn Hd Hne Hs) in Ht.
    injection Ht as <-. now rewrite (step_valid cp k Hk).
  - rewrite app_comm_cons in Hv, Ht.
    apply Forall_app in Hv as [Hv Hx]. inversion Hx as [|? ? Hxv _]; subst.
    destruct (valid_name_inv x Hxv) as (Hne & Hs & _).
    rewrite joined_snoc in Ht.
    apply namei_join_inv in Ht as (c & Hc & Hcd & _); auto.
    + rewrite (IH Hv c Hc) in Hcd. discriminate.
    + apply joined_not_empty; auto. now apply (namei_not_empty top fs cp).
Qed.

End MakedirsFacts.

Import MakedirsFacts.

(** ** The directories made on the way *)

Module ChainFacts.
Import Path.

Lemma is_prefix_snoc q l x :
  is_prefix q (l ++ [x]) = path_eqb (l ++ [x]) q || is_prefix q l.
Proof.
  apply Bool.eq_true_iff_eq. rewrite orb_true_iff, path_eqb_eq.
  rewrite !is_prefix_spec. split.
  - intros [r Hr]. destruct r as [|y r] using rev_ind.
    + left. now rewrite app_nil_r in Hr.
    + right. rewrite app_assoc in Hr. apply app_inj_tail in Hr as [-> _].
      now exists r.
  - intros [<-|[r ->]].
    + exists []. now rewrite app_nil_r.
    + exists (r ++ [x]). now rewrite app_assoc.
Qed.

Lemma on_the_way_nil cp q : on_the_way cp [] q = false.
Proof.
  unfold on_the_way, path_eqb. rewrite app_nil_r.
  now destruct (is_prefix cp q), (is_prefix q cp).
Qed.

Lemma on_the_way_snoc cp rel x q :
  on_the_way cp (rel ++ [x]) q
  = path_eqb (cp ++ rel ++ [x]) q || on_the_way cp rel q.
Proof.
  unfold on_the_way. rewrite app_assoc, is_prefix_snoc.
  destruct (path_eqb ((cp ++ rel) ++ [x]) q) eqn:E; cbn [orb]; [|reflexivity].
  apply path_eqb_eq in E. subst q.
  rewrite <- app_assoc, is_prefix_app.
  destruct (rel ++ [x]) as [|c r] eqn:Er; [now destruct rel|].
  now rewrite path_eqb_below.
Qed.

Lemma on_the_way_inside cp a b :
  a <> [] -> on_the_way cp (a ++ b) (cp ++ a) = true.
Proof.
  intros Ha. unfold on_the_way.
  rewrite is_prefix_app, app_assoc, is_prefix_app.
  destruct a as [|c a]; [congruence|]. now rewrite path_eqb_below.
Qed.

Lemma on_the_way_self cp rel : on_the_way cp rel cp = false.
Proof.
  unfold on_the_way. now rewrite path_eqb_refl, andb_false_r.
Qed.

Lemma on_the_way_beyond cp rel x r :
  on_the_way cp rel (cp ++ rel ++ x :: r) = false.
Proof.
  unfold on_the_way. rewrite app_assoc, is_prefix_own_tail.
  apply andb_false_r.
Qed.

(** A new directory in a free place. *)
Lemma mkdir_fresh name fs d k :
  name <> "" -> endswith_sep name = false ->
  namei name fs = inr (d ++ [k]) -> lookup (d ++ [k]) fs = None ->
  is_dir_node (lookup d fs) = true ->
  exists fs',
    mkdir name fs = (Ok tt, fs')
    /\ forall q, kind_at q fs' =
         if path_eqb (d ++ [k]) q then Some KDir else kind_at q fs.
Proof.
  intros Hne He Hn Hfree Hd.
  destruct (set_at_some d k (Some (Dir [])) fs Hd) as [fs' Hset].
  exists fs'. split.
  - unfold mkdir. rewrite (rstrip_id name He).
    replace (if all_sep name then name else name) with name
      by (now destruct (all_sep name)).
    rewrite Hn, Hfree. unfold store. now rewrite Hset.
  - intros q. rewrite (kind_set_at _ _ _ _ Hset q).
    destruct (is_prefix (d ++ [k]) q) eqn:Hp.
    + apply is_prefix_spec in Hp as [r ->]. rewrite skipn_length_app.
      destruct r as [|c r].
      * now rewrite app_nil_r, path_eqb_refl.
      * rewrite path_eqb_below. unfold kind_at.
        now rewrite lookup_app, Hfree.
    + destruct (path_eqb (d ++ [k]) q) eqn:E; [|reflexivity].
      apply path_eqb_prefix in E. congruence.
Qed.

(** [makedirs] makes the directories of a path that are missing, the
    outer ones first. *)
Lemma makedirs_chain top k rel fs cp :
  namei top fs = inr cp -> is_dir_node (lookup cp fs) = true ->
  Forall (fun k => valid_name k = true) (k :: rel) ->
  lookup (cp ++ [k]) fs = None ->
  exists fs',
    makedirs (joined top (k :: rel)) fs = (Ok tt, fs')
    /\ forall q, kind_at q fs' =
         if on_the_way cp (k :: rel) q then Some KDir else kind_at q fs.
Proof.
  intros Hn Hd Hv Hfree.
  pose proof (namei_not_empty top fs cp Hn) as Htop.
  induction rel as [|x rel IH] using rev_ind.
  - inversion Hv as [|? ? Hk _]; subst.
    destruct (valid_name_inv k Hk) as (Hne & Hs & _).
    change (joined top [k]) with (join top k).
    assert (Hname : namei (join top k) fs = inr (cp ++ [k])).
    { rewrite <- (step_valid cp k Hk). now apply namei_join. }
    destruct (mkdir_fresh (join top k) fs cp k) as (fs' & Hmk & Hkind); auto.
    { now apply join_not_empty. }
    { now apply join_valid_no_trailing_sep. }
    exists fs'. split.
    + rewrite makedirs_eq. cbn zeta.
      rewrite (split_join_tail top k Htop Hs).
      apply String.eqb_neq in Hne. rewrite Hne.
      rewrite split_fst, (split_join_tail top k Htop Hs), Hne.
      replace (exists_ (dirname (join top k)) fs) with true.
      { rewrite andb_false_r. exact Hmk. }
      unfold exists_, stat.
      rewrite (dirname_join_resolves top k fs cp Hn Hd Hs).
      now destruct (lookup cp fs).
    + intros q. rewrite Hkind.
      change [k] with ([] ++ [k]) at 2.
      now rewrite on_the_way_snoc, on_the_way_nil, orb_false_r.
  - rewrite app_comm_cons in Hv. apply Forall_app in Hv as [Hv Hx].
    inversion Hx as [|? ? Hxv _]; subst.
    destruct (valid_name_inv x Hxv) as (Hne & Hs & Hdot & _).
    destruct (IH Hv) as (fs1 & Hrec & K1).
    destruct (joined_clean top k rel Htop Hv) as [HP HPe].
    set (P := joined top (k :: rel)) in *.
    assert (Hname : joined top (k :: rel ++ [x]) = (P ++ String sep x)%string).
    { rewrite app_comm_cons, joined_snoc. now apply join_clean. }
    assert (Hdirs : forall q, is_dir_node (lookup q fs) = true ->
                              is_dir_node (lookup q fs1) = true).
    { intros q Hq. apply kind_of_is_dir. apply kind_of_is_dir in Hq.
      fold (kind_at q fs1). fold (kind_at q fs) in Hq. rewrite K1.
      now destruct (on_the_way cp (k :: rel) q). }
    assert (Hway : forall a b, k :: rel ++ [x] = a ++ b -> b <> [] ->
                     is_dir_node (lookup (cp ++ a) fs1) = true).
    { intros a b Hab Hb. destruct a as [|c a].
      - rewrite app_nil_r. now apply Hdirs.
      - destruct b as [|y b] using rev_ind; [congruence|].
        rewrite app_comm_cons, app_assoc in Hab.
        apply app_inj_tail in Hab as [Hab _].
        apply kind_of_is_dir. fold (kind_at (cp ++ c :: a) fs1).
        rewrite K1, Hab. now rewrite on_the_way_inside. }
    assert (Hres : namei (joined top (k :: rel ++ [x])) fs1
                   = inr ((cp ++ k :: rel) ++ [x])).
    { rewrite <- app_assoc. cbn [app].
      apply namei_joined; auto.
      - now apply (namei_ext fs).
      - rewrite app_comm_cons. apply Forall_app. split; auto. }
    assert (Hnew : lookup ((cp ++ k :: rel) ++ [x]) fs1 = None).
    { apply kind_none_lookup. rewrite K1, <- app_assoc.
      rewrite on_the_way_beyond. unfold kind_at.
      change (cp ++ (k :: rel) ++ [x]) with (cp ++ [k] ++ (rel ++ [x])).
      now rewrite app_assoc, lookup_app, Hfree. }
    destruct (mkdir_fresh (joined top (k :: rel ++ [x])) fs1
                (cp ++ k :: rel) x) as (fs2 & Hmk & K2); auto.
    { rewrite Hname. now destruct P. }
    { rewrite Hname, endswith_sep_app by discriminate.
      cbn [endswith_sep]. destruct x; [congruence|].
      now apply endswith_sep_nosep. }
    { apply (Hway (k :: rel) [x]); [reflexivity | discriminate]. }
    exists fs2. split.
    + rewrite makedirs_eq. cbn zeta.
      pose proof Hne as Hne'. apply String.eqb_neq in Hne'.
      assert (Hht : (if String.eqb (snd (split (joined top (k :: rel ++ [x])))) ""
                     then split (fst (split (joined top (k :: rel ++ [x]))))
                     else split (joined top (k :: rel ++ [x]))) = (P, x)).
      { rewrite split_snd, Hname, (tail_raw_sep_app P x Hs), Hne'.
        rewrite (surjective_pairing (split _)), split_fst, split_snd.
        now rewrite (tail_raw_sep_app P x Hs), (dirname_clean P x HP HPe Hs). }
      rewrite Hht. cbn [fst snd].
      apply String.eqb_neq in HP, Hdot. rewrite Hne', HP.
      replace (exists_ P fs) with false.
      { cbn [negb andb]. rewrite Hrec, Hdot. exact Hmk. }
      symmetry. unfold exists_, stat.
      destruct (namei P fs) as [e|t] eqn:Et; [reflexivity|].
      now rewrite (joined_missing top k rel fs cp t Hn Hd Hv Hfree Et).
    + intros q. rewrite K2, K1, app_comm_cons, on_the_way_snoc.
      now destruct (path_eqb (cp ++ (k :: rel) ++ [x]) q) eqn:E;
        rewrite <- app_assoc, E.
Qed.

End ChainFacts.

Import ChainFacts.

(** ** Making a folder *)

(** X14.  [make_folder] on [parent/name/.../names], where [parent]
    is a directory and [name] is free in it, makes the directories on
    the way down, the last one included, and changes nothing else; a
    second call does nothing. *)
Theorem make_folder_creates_missing (parent name : string)
  (names : list string) (fs : node) (cp : path) :
  namei parent fs = inr cp -> is_dir_node (lookup cp fs) = true ->
  Forall (fun k => Path.valid_name k = true) (name :: names) ->
  kind_at (cp ++ [name]) fs = None ->
  exists fs',
    make_folder (joined parent (name :: names)) fs = (Ok tt, fs')
    /\ (forall q, kind_at q fs' =
          if on_the_way cp (name :: names) q then Some KDir
          else kind_at q fs)
    /\ make_folder (joined parent (name :: names)) fs' = (Ok tt, fs').
Proof.
  intros Hn Hd Hv Hfree. apply kind_none_lookup in Hfree.
  destruct (makedirs_chain parent name names fs cp Hn Hd Hv Hfree)
    as (fs' & Hrun & K).
  exists fs'. split; [|split; [exact K|]].
  - unfold make_folder, bind, query.
    replace (isdir (joined parent (name :: names)) fs) with false;
      [exact Hrun|].
    symmetry. unfold isdir, stat.
    destruct (namei (joined parent (name :: names)) fs) as [e|t] eqn:Et;
      [reflexivity|].
    now rewrite (joined_missing parent name names fs cp t Hn Hd Hv Hfree Et).
  - unfold make_folder, bind, query.
    replace (isdir (joined parent (name :: names)) fs') with true;
      [reflexivity|].
    symmetry. unfold isdir, stat.
    assert (Hdirs : forall q, is_dir_node (lookup q fs) = true ->
                              is_dir_node (lookup q fs') = true).
    { intros q Hq. apply kind_of_is_dir. apply kind_of_is_dir in Hq.
      fold (kind_at q fs'). fold (kind_at q fs) in Hq. rewrite K.
      now destruct (on_the_way cp (name :: names) q). }
    assert (Hon : forall a b, name :: names = a ++ b -> a <> [] ->
                    is_dir_node (lookup (cp ++ a) fs') = true).
    { intros a b Hab Ha. apply kind_of_is_dir.
      fold (kind_at (cp ++ a) fs'). rewrite K, Hab.
      now rewrite on_the_way_inside. }
    rewrite (namei_joined parent (name :: names) fs' cp).
    + pose proof (Hon (name :: names) [] (eq_sym (app_nil_r _))
                    ltac:(discriminate)) as Hlast.
      now destruct (lookup (cp ++ name :: names) fs') as [[?|?]|].
    + now apply (namei_ext fs).
    + exact Hv.
    + intros a b Hab _. destruct a as [|c a].
      * rewrite app_nil_r. now apply Hdirs.
      * apply (Hon (c :: a) b Hab). discriminate.
Qed.

Lemma make_folder_creates_missing_witness :
  exists fs',
    make_folder (joined "/dest/" ["x"; "y"; "z"]) tree_two_levels = (Ok tt, fs')
    /\ (forall q, kind_at q fs' =
          if on_the_way ["dest"] ["x"; "y"; "z"] q then Some KDir
          else kind_at q tree_two_levels)
    /\ make_folder (joined "/dest/" ["x"; "y"; "z"]) fs' = (Ok tt, fs').
Proof.
  apply (make_folder_creates_missing "/dest/" "x" ["y"; "z"] tree_two_levels
           ["dest"]); try reflexivity.
  repeat constructor.
Defined.

(** X15.  [make_folder] on the path of a regular file raises the
    FileExistsError of [os.mkdir] and leaves the tree as it was. *)
Theorem make_folder_on_file (folder_path : string) (fs : node) :
  isfile folder_path fs = true ->
  make_folder folder_path fs
  = (Raise (FileExistsError "[Errno 17] File exists"), fs).
Proof.
  intros Hf. destruct (isfile_inv folder_path fs Hf) as (s & d & Hn & Hl).
  destruct (file_path_shape folder_path fs s d Hn Hl)
    as (sp & Hs & Hvt & Hsp & Hcase).
  destruct (valid_name_inv _ Hvt) as (Htne & Hts & _).
  unfold make_folder, bind, query.
  replace (isdir folder_path fs) with false
    by (unfold isdir, stat; now rewrite Hn, Hl).
  assert (Hmk : mkdir folder_path fs
                = (Raise (FileExistsError "[Errno 17] File exists"), fs)).
  { unfold mkdir.
    rewrite (rstrip_id folder_path (file_path_clean _ _ _ _ Hn Hl)).
    replace (if Path.all_sep folder_path then folder_path else folder_path)
      with folder_path by (now destruct (Path.all_sep folder_path)).
    now rewrite Hn, Hl. }
  rewrite makedirs_eq. cbn zeta. rewrite split_snd.
  apply String.eqb_neq in Htne. rewrite Htne.
  rewrite split_fst, split_snd, Htne.
  destruct Hcase as [[Hns _]|(h & Ha & Hh & Hc)].
  - unfold Path.dirname. rewrite (head_raw_nosep _ Hns). exact Hmk.
  - replace (exists_ (Path.dirname folder_path) fs) with true.
    { rewrite andb_false_r. exact Hmk. }
    symmetry. unfold exists_, stat. rewrite Ha at 1.
    rewrite (dirname_resolves h _ fs sp Hts Hc Hsp).
    now destruct (lookup sp fs).
Qed.

Lemma make_folder_on_file_witness :
  make_folder "/root/a.txt" tree_two_levels
  = (Raise (FileExistsError "[Errno 17] File exists"), tree_two_levels).
Proof.
  apply (make_folder_on_file "/root/a.txt" tree_two_levels). reflexivity.
Defined.

(** ** The folder of the calling file *)

(** X16.  For a calling file whose name has a directory part,
    [current_directory] returns a path of the directory that holds the
    file: the path resolves to that directory, and joined with the
    name of the file it resolves to the file. *)
Theorem current_directory_holds_the_caller (caller_file : string)
  (fs : node) :
  isfile caller_file fs = true -> Path.has_sep caller_file = true ->
  exists sp,
    namei caller_file fs = inr (sp ++ [Path.basename caller_file])
    /\ namei (current_directory caller_file) fs = inr sp
    /\ isdir (current_directory caller_file) fs = true
    /\ namei (Path.join (current_directory caller_file)
                (Path.basename caller_file)) fs
       = namei caller_file fs.
Proof.
  intros Hf Hsep. destruct (isfile_inv caller_file fs Hf) as (s & d & Hn & Hl).
  destruct (file_path_shape caller_file fs s d Hn Hl)
    as (sp & Hs & Hvt & Hsp & Hcase).
  destruct (valid_name_inv _ Hvt) as (Htne & Hts & _).
  destruct Hcase as [[Hns _]|(h & Ha & Hh & Hc)]; [congruence|].
  assert (Hdir : namei (Path.dirname caller_file) fs = inr sp).
  { rewrite Ha at 1. now apply dirname_resolves. }
  assert (Hcur : namei (current_directory caller_file) fs = inr sp).
  { unfold current_directory, namei.
    replace (String.eqb (Path.dirname caller_file ++ "/") "") with false
      by (now destruct (Path.dirname caller_file)).
    change "/" with (String Path.sep "").
    rewrite components_sep_app, namei_from_app.
    unfold namei in Hdir.
    destruct (String.eqb (Path.dirname caller_file) ""); [discriminate|].
    rewrite Hdir. cbn [Path.components namei_from].
    now destruct (lookup sp fs) as [[?|?]|]. }
  unfold Path.basename. exists sp. subst s.
  split; [exact Hn|]. split; [exact Hcur|]. split.
  - unfold isdir, stat. rewrite Hcur.
    now destruct (lookup sp fs) as [[?|?]|].
  - rewrite (namei_join _ (Path.tail_raw caller_file) fs sp Hcur Hsp Htne Hts).
    now rewrite (step_valid sp _ Hvt).
Qed.

Lemma current_directory_holds_the_caller_witness :
  exists sp,
    namei "/root/sub/b.txt" tree_two_levels
    = inr (sp ++ [Path.basename "/root/sub/b.txt"])
    /\ namei (current_directory "/root/sub/b.txt") tree_two_levels = inr sp
    /\ isdir (current_directory "/root/sub/b.txt") tree_two_levels = true
    /\ namei (Path.join (current_directory "/root/sub/b.txt")
                (Path.basename "/root/sub/b.txt")) tree_two_levels
       = namei "/root/sub/b.txt" tree_two_levels.
Proof.
  apply (current_directory_holds_the_caller "/root/sub/b.txt" tree_two_levels);
    reflexivity.
Defined.

(** X17.  For a calling file known by a bare name, one without a
    separator, [current_directory] returns the root path, whatever the
    working directory is. *)
Theorem current_directory_of_bare_name (caller_file : string) :
  Path.has_sep caller_file = false -> current_directory caller_file = "/".
Proof.
  intros H. unfold current_directory, Path.dirname.
  now rewrite (head_raw_nosep caller_file H).
Qed.

Lemma current_directory_of_bare_name_witness :
  current_directory "script.py" = "/".
Proof. apply (current_directory_of_bare_name "script.py"). reflexivity. Defined.

(** ** The walk and the listing of one directory *)

Lemma list_dir_files_full (folder_path : string) (fs : node)
  (es : list (string * node)) :
  wf_fs fs = true -> stat folder_path fs = inr (Dir es) ->
  list_dir_files folder_path true fs
  = (Ok (map (Path.join folder_path) (filenames es)), fs).
Proof.
  intros Hwf Hst.
  destruct (stat_dir_inv folder_path fs es Hst) as (cp & Hn & Hl).
  assert (Hls : listdir folder_path fs = (Ok (names es), fs)).
  { unfold listdir. now rewrite Hst. }
  unfold list_dir_files. rewrite (bind_ok _ _ fs _ fs Hls).
  rewrite (for_append_query (names es)
             (fun name => isfile (Path.join folder_path name))
             (fun name => Path.join folder_path name) fs).
  rewrite filenames_sel. f_equal. f_equal.
  apply (flat_map_children folder_path fs cp es
           (fun n => is_file_node (Some n))).
  intros name child Hin.
  apply (isdir_child folder_path fs cp es name child Hwf Hn Hl Hin).
Qed.

Lemma tree_paths_dir top es :
  tree_paths top (Dir es)
  = map (Path.join top) (filenames es)
    ++ flat_map (fun e => map (fun f => joined top (fst e :: fst f))
                            (files_below (snd e))) es.
Proof.
  unfold tree_paths. rewrite files_below_dir, map_app. f_equal.
  - rewrite map_map. unfold filenames.
    induction es as [|[k [d|l]] es IH]; [reflexivity| |].
    + cbn [flat_map fst snd app map]. f_equal. exact IH.
    + cbn [flat_map fst snd app]. exact IH.
  - induction es as [|[k v] es IH]; [reflexivity|].
    cbn [flat_map fst snd]. now rewrite map_app, map_map, IH.
Qed.

Lemma no_dirs_nothing_below {B} (g : string * node -> path * list byte -> B)
  es :
  dirnames es = [] ->
  flat_map (fun e => map (g e) (files_below (snd e))) es = [].
Proof.
  unfold dirnames.
  induction es as [|[k [d|l]] es IH]; cbn [flat_map fst snd map app];
    [reflexivity| |discriminate]. exact IH.
Qed.

(** X18.  In a directory of a well-formed tree [list_dir_tree] begins
    with the paths [list_dir_files] returns with [full_path], in the
    same order; what follows comes from the folders below, and when
    [list_dir_folders] finds none the two results are the same. *)
Theorem list_dir_tree_begins_with_files (folder_path : string) (fs : node)
  (es : list (string * node)) :
  wf_fs fs = true -> stat folder_path fs = inr (Dir es) ->
  exists here deeper,
    list_dir_files folder_path true fs = (Ok here, fs)
    /\ list_dir_tree folder_path fs = (Ok (here ++ deeper), fs)
    /\ (list_dir_folders folder_path false fs = (Ok [], fs) -> deeper = []).
Proof.
  intros Hwf Hst.
  destruct (stat_dir_inv folder_path fs es Hst) as (cp & Hn & Hl).
  exists (map (Path.join folder_path) (filenames es)),
    (flat_map (fun e => map (fun f => joined folder_path (fst e :: fst f))
                          (files_below (snd e))) es).
  split; [now apply list_dir_files_full|]. split.
  - rewrite list_dir_tree_listed. unfold walk. rewrite Hst.
    rewrite (listed_walk fs Hwf (Dir es) folder_path cp Hn Hl).
    now rewrite tree_paths_dir.
  - destruct (list_dir_files_names folder_path fs es Hwf Hst) as [_ Hfo].
    rewrite Hfo. intros H. injection H as H.
    now apply (no_dirs_nothing_below
                 (fun e f => joined folder_path (fst e :: fst f))).
Qed.

Lemma list_dir_tree_begins_with_files_witness :
  exists here deeper,
    list_dir_files "/root" true tree_two_levels = (Ok here, tree_two_levels)
    /\ list_dir_tree "/root" tree_two_levels
       = (Ok (here ++ deeper), tree_two_levels)
    /\ (list_dir_folders "/root" false tree_two_levels
        = (Ok [], tree_two_levels) -> deeper = []).
Proof.
  apply (list_dir_tree_begins_with_files "/root" tree_two_levels
           [("a.txt", File [x61]); ("sub", Dir [("b.txt", File [x62])])]);
    reflexivity.
Defined.

(** ** A destination that is no directory *)

(** [shutil.move] of a regular file to a path that does not resolve:
    the rename fails, and so does the copy that stands in for it. *)
Lemma move_file_no_way src dst fs s d e :
  namei src fs = inr s -> lookup s fs = Some (File d) ->
  namei dst fs = inl e ->
  move_file src dst fs = (Raise (exn_of_errno e), fs).
Proof.
  intros Hs Hl Hd.
  assert (He : is_OSError (exn_of_errno e) = true).
  { apply namei_errno in Hd as [-> | ->]; reflexivity. }
  unfold move_file, bind at 1, query at 1.
  replace (isfile dst fs) with false by (unfold isfile, stat; now rewrite Hd).
  unfold shutil_move, bind at 1, query at 1.
  replace (isdir dst fs) with false by (unfold isdir, stat; now rewrite Hd).
  unfold try_except_OSError, rename. rewrite Hs, Hd.
  unfold fail at 1, raise at 1. rewrite He.
  unfold bind at 1, query at 1.
  replace (isdir src fs) with false by (unfold isdir, stat; now rewrite Hs, Hl).
  unfold bind at 1, copy2, bind at 1, query at 1.
  replace (isdir dst fs) with false by (unfold isdir, stat; now rewrite Hd).
  unfold bind at 1, query at 1.
  replace (samefile src dst fs) with false
    by (unfold samefile; now rewrite Hs, Hd).
  unfold bind at 1, open_r. rewrite Hs, Hl.
  unfold bind at 1, read_bytes. rewrite Hl.
  unfold bind at 1, open_w. rewrite Hd. reflexivity.
Qed.

(** X19.  [move_all_files_from_root] does not make the destination.
    In a well-formed tree, when [to_folder] is a path that is not
    empty and no directory, and the root folder is a directory that
    holds a regular file at some depth, the first file met raises
    FileNotFoundError or NotADirectoryError, and nothing has moved.
    (The empty string is no destination of this kind: joined to a name
    it is the name alone, a path in the working directory.) *)
Theorem move_all_files_needs_the_folder (root_folder to_folder : string)
  (fs : node) (es : list (string * node)) :
  wf_fs fs = true -> stat root_folder fs = inr (Dir es) ->
  count_files (Dir es) <> 0%nat ->
  to_folder <> "" -> isdir to_folder fs = false ->
  exists e,
    move_all_files_from_root root_folder to_folder fs = (Raise e, fs)
    /\ (e = FileNotFoundError \/ e = NotADirectoryError).
Proof.
  intros Hwf Hst Hcount Hto Hnd.
  destruct (stat_dir_inv root_folder fs es Hst) as (cp & Hn & Hl).
  pose proof (namei_not_empty root_folder fs cp Hn) as Hroot.
  assert (Hwfd : wf (Dir es) = true).
  { apply (wf_lookup cp fs); auto. now apply wf_fs_wf. }
  pose proof (length_files_below (Dir es)) as Hlen. cbn beta iota in Hlen.
  destruct (files_below (Dir es)) as [|[rel d] rest] eqn:Efb.
  { cbn [List.length] in Hlen. congruence. }
  assert (Hin : In (rel, d) (files_below (Dir es))).
  { rewrite Efb. now left. }
  destruct (files_below_valid (Dir es) Hwfd rel d Hin) as [Hne Hv].
  destruct (files_below_resolve fs Hwf (Dir es) root_folder cp Hn Hl rel d Hin)
    as [Hs Hls].
  destruct (listed_path_tail root_folder (rel, d) Hroot Hne Hv)
    as [Htail Hvt].
  unfold listed_path in Htail. cbn [fst] in Htail.
  destruct (valid_name_inv _ Hvt) as (Htne & Hts & _).
  assert (Hdst : exists e, namei (Path.join to_folder (basename_of (rel, d))) fs
                           = inl e).
  { destruct (namei (Path.join to_folder (basename_of (rel, d))) fs)
      as [e|t] eqn:Et; [now exists e|].
    apply namei_join_inv in Et as (c & Hc & Hcd & _); auto.
    unfold isdir, stat in Hnd. rewrite Hc in Hnd.
    destruct (lookup c fs) as [[?|?]|]; discriminate. }
  destruct Hdst as [e He].
  exists (exn_of_errno e). split.
  - rewrite move_all_files_from_root_loop.
    unfold bind at 1. rewrite list_dir_tree_listed. unfold walk. rewrite Hst.
    rewrite (listed_walk fs Hwf (Dir es) root_folder cp Hn Hl).
    unfold tree_paths. rewrite Efb. cbn [map for_each fst].
    unfold bind at 1.
    replace (flatten_step to_folder (joined root_folder rel) fs)
      with (@Raise unit (exn_of_errno e), fs); [reflexivity|].
    symmetry. unfold flatten_step, bind at 1, query at 1.
    rewrite (isfile_intro _ fs _ d Hs Hls).
    destruct (Path.split (joined root_folder rel)) as [head tail].
    cbn [snd] in Htail. subst tail.
    now apply (move_file_no_way _ _ fs (cp ++ rel) d e).
  - apply namei_errno in He as [-> | ->]; auto.
Qed.

Lemma move_all_files_needs_the_folder_witness :
  exists e,
    move_all_files_from_root "/root" "/nowhere" tree_two_levels
    = (Raise e, tree_two_levels)
    /\ (e = FileNotFoundError \/ e = NotADirectoryError).
Proof.
  apply (move_all_files_needs_the_folder "/root" "/nowhere" tree_two_levels
           [("a.txt", File [x61]); ("sub", Dir [("b.txt", File [x62])])]);
    try reflexivity; discriminate.
Defined.

(** With the empty string for [to_folder] the files go to the working
    directory. *)
Example flatten_into_working_directory :
  move_all_files_from_root "/root" "" tree_two_levels
  = (Ok tt,
     Dir [("root", Dir [("sub", Dir [])]);
          ("dest", Dir []);
          ("a.txt", File [x61]); ("b.txt", File [x62])]).
Proof. reflexivity. Qed.
